(** * Local mod ingestion: source detection and staging

    A shallow embedding of the "Add Mods" page of the desktop mod manager:
    [detectSource] (classification of the dropped files), the metadata form's
    [validateAndGet], and [finalize] (staging of the payload, the preview
    image and [metadata.json] under [mods/<id>/]); around them, the URL
    field ([isGameBananaUrl]), [startDialog], [onPickFiles] and the [onDrop]
    of the drop zone.

    Conventions of the model.
    - A JavaScript string is a [string] of code units below 256 (Latin-1),
      which is enough for every pattern the code tests: all of them are
      ASCII.
    - A path is the list of its segments; [join p s] appends one segment
      (a file name is one segment, the data directory is the first one).
      The platform's [join] also normalises what it is given; the model
      does not, and the properties below name the paths as the code builds
      them: none speaks of where a name such as [..] resolves.
    - The file system, the notifications, the console, the persisted store
      and the dialog state are the fields of [World]; an asynchronous
      function is a function [World -> result A] that either resolves or
      rejects, in both cases with the world it leaves behind.  A rejection
      that nothing catches is the rejection of [finalize] itself.
    - What the platform decides (the UUID, the clock, the data directory,
      [localeCompare], [JSZip.loadAsync], the data URL of an image, which
      I/O operation fails) is a field of [Platform].
    - [ModCategory] and [ModStatus] are declared outside these sources: a
      category is its string, and [DOWNLOADED] is the one status used. *)

From Stdlib Require Import String Ascii List ZArith Lia Bool OrdersEx Sorted.
From stdpp Require Import base gmap list strings pretty.
Import ListNotations.

Local Open Scope string_scope.
Local Open Scope list_scope.

(** ** JavaScript strings *)

Module Js.

(** [a-z] to [A-Z]; every other code unit is left alone.  For an ASCII
    pattern character this is the canonicalisation the [i] flag applies
    (a code unit of 128 or more never canonicalises to an ASCII one). *)
Definition upcase (c : ascii) : ascii :=
  let n := nat_of_ascii c in
  if (97 <=? n)%nat && (n <=? 122)%nat then ascii_of_nat (n - 32) else c.

(** [String.prototype.toLowerCase] on one Latin-1 code unit: [A-Z] and
    U+00C0..U+00DE (but U+00D7) move up by 32. *)
Definition downcase (c : ascii) : ascii :=
  let n := nat_of_ascii c in
  if ((65 <=? n)%nat && (n <=? 90)%nat)
     || ((192 <=? n)%nat && (n <=? 222)%nat && negb (n =? 215)%nat)
  then ascii_of_nat (n + 32) else c.

Fixpoint toLowerCase (s : string) : string :=
  match s with
  | EmptyString => EmptyString
  | String c s' => String (downcase c) (toLowerCase s')
  end.

(** A pattern character matches a subject character under the [i] flag. *)
Definition char_ci (p c : ascii) : bool :=
  Ascii.eqb (upcase p) (upcase c).

(** A literal followed by [$], tried at the current position. *)
Fixpoint match_here (lit s : string) : bool :=
  match lit, s with
  | EmptyString, EmptyString => true
  | String p lit', String c s' => char_ci p c && match_here lit' s'
  | _, _ => false
  end.

(** [s.match(/(lit1|lit2|...)$/i)]: the pattern is tried at every start
    index from the left, the alternatives in their order; the result is the
    matched text ([m[0]]). *)
Fixpoint regex_match (alts : list string) (s : string) : option string :=
  if existsb (fun lit => match_here lit s) alts then Some s
  else match s with
       | EmptyString => None
       | String _ s' => regex_match alts s'
       end.

(** [re.test(s)] *)
Definition regex_test (alts : list string) (s : string) : bool :=
  match regex_match alts s with Some _ => true | None => false end.

(** [s.endsWith(suffix)] *)
Fixpoint endsWith (s suffix : string) : bool :=
  String.eqb s suffix
  || match s with
     | EmptyString => false
     | String _ s' => endsWith s' suffix
     end.

(** [s.split('/')]: never empty, the segments between the slashes. *)
Fixpoint split_slash (s : string) : list string :=
  match s with
  | EmptyString => [EmptyString]
  | String c s' =>
      if Ascii.eqb c "/"%char then EmptyString :: split_slash s'
      else match split_slash s' with
           | seg :: rest => String c seg :: rest
           | [] => [String c EmptyString]
           end
  end.

(** White space and line terminators below 256, as [trim] strips them. *)
Definition is_space (c : ascii) : bool :=
  let n := nat_of_ascii c in
  ((9 <=? n)%nat && (n <=? 13)%nat) || (n =? 32)%nat || (n =? 160)%nat.

Fixpoint trimStart (s : string) : string :=
  match s with
  | EmptyString => EmptyString
  | String c s' => if is_space c then trimStart s' else s
  end.

Fixpoint trimEnd (s : string) : string :=
  match s with
  | EmptyString => EmptyString
  | String c s' =>
      match trimEnd s' with
      | EmptyString => if is_space c then EmptyString else String c EmptyString
      | t => String c t
      end
  end.

Definition trim (s : string) : string := trimEnd (trimStart s).

(** Truthiness of a string that may be [undefined]. *)
Definition truthy (o : option string) : bool :=
  match o with
  | Some (String _ _) => true
  | _ => false
  end.

(** [o || d] for such a string. *)
Definition or_else (o : option string) (d : string) : string :=
  match o with
  | Some (String c s) => String c s
  | _ => d
  end.

(** [o || undefined] *)
Definition or_undefined (o : option string) : option string :=
  match o with
  | Some (String c s) => Some (String c s)
  | _ => None
  end.

End Js.

(** The patterns of the two source files. *)
Definition re_vpk : list string := [".vpk"].
Definition re_archive : list string := [".zip"; ".rar"; ".7z"].
Definition re_image : list string :=
  [".png"; ".jpg"; ".jpeg"; ".webp"; ".gif"; ".svg"].

(** ** Files and detected sources *)

Record File := mkFile {
  name : string;
  webkitRelativePath : option string;
  bytes : list Byte.byte
}.

Inductive DetectedSource :=
| archive (file : File)
| vpk (file : File)
| folder_vpk (files : list File) (folderName : option string).

(** [(file as any).webkitRelativePath || file.name] *)
Definition fileName (file : File) : string :=
  Js.or_else (webkitRelativePath file) (name file).

Definition is_vpk (f : File) : bool := Js.regex_test re_vpk (name f).
Definition is_archive (f : File) : bool := Js.regex_test re_archive (name f).

(** [files.filter(Boolean)]: the holes of the array are dropped. *)
Definition filter_Boolean {A} (files : list (option A)) : list A :=
  omap id files.

Definition detectSource (files : list (option File)) : option DetectedSource :=
  match files with
  | [] => None
  | _ =>
    let flat := filter_Boolean files in
    let vpk_ := List.find is_vpk flat in
    match (length flat =? 1)%nat, vpk_ with
    | true, Some v => Some (vpk v)
    | _, _ =>
      let archive_ := List.find is_archive flat in
      match (length flat =? 1)%nat, archive_ with
      | true, Some a => Some (archive a)
      | _, _ =>
        let anyVpk := List.filter is_vpk flat in
        match anyVpk with
        | first :: _ =>
            let rel := webkitRelativePath first in
            let folderName :=
              if Js.truthy rel
              then List.head (Js.split_slash (Js.or_else rel EmptyString))
              else None in
            Some (folder_vpk anyVpk folderName)
        | [] => None
        end
      end
    end
  end.

(** ** Paths, errors, notifications, the store *)

Abbreviation path := (list string).

(** [join(dir, segment)] *)
Definition join (dir : path) (segment : string) : path := dir ++ [segment].

Inductive io_op :=
| op_exists (abs : path)
| op_mkdir (abs : path)
| op_writeFile (abs : path)
| op_readDir (abs : path).

Inductive JsError :=
| IoError (op : io_op) (cause : string)
| Error (message : string).

Inductive Toast :=
| toast_error (message : string)
| toast_info (message : string)
| toast_success (message : string).

Inductive SourceType := st_url | st_archive | st_vpk | st_folder_vpk.

Inductive ModStatus := DOWNLOADED.

(** One inner entry of a loaded ZIP, as [Object.values(zip.files)] lists
    them; [data] is what [entry.async('uint8array')] resolves to. *)
Module Zip.
Record entry := mk {
  name : string;
  dir : bool;
  data : list Byte.byte
}.
End Zip.

(** The record the metadata form hands over ([ModMetadata]; its [imageSrc]
    is not read by [finalize]). *)
Module Meta.
Record t := mk {
  name : string;
  author : option string;
  link : option string;
  description : option string;
  imageFile : option File
}.
End Meta.

(** The raw values of the metadata form. *)
Module Form.
Record t := mk {
  name : string;
  author : option string;
  description : option string;
  link : option string;
  imageFile : option File
}.
End Form.

(** A flat JSON object, as [metadata] is. *)
Inductive jvalue :=
| JNull
| JString (s : string)
| JNumber (n : Z).

Abbreviation jobject := (list (string * jvalue)).

Module Dto.
Record t := mk {
  remoteId : string;
  name : string;
  description : string;
  remoteUrl : string;
  author : string;
  downloadable : bool;
  remoteAddedAt : string;
  remoteUpdatedAt : string;
  tags : list string;
  images : list string;
  hero : option string;
  downloadCount : Z;
  likes : Z;
  category : string
}.
End Dto.

Inductive StoreCall :=
| addMod (dto : Dto.t) (modPath : path) (status : ModStatus)
| setModPath (id : string) (modPath : path)
| setModStatus (id : string) (status : ModStatus).

(** ** The platform *)

Record Platform := mkPlatform {
  (** [crypto.randomUUID()] *)
  randomUUID : string;
  (** [appLocalDataDir()], one segment of the model *)
  appLocalDataDir : string;
  (** [new Date().toISOString()] *)
  toISOString : string;
  (** [a.localeCompare(b)] *)
  localeCompare : string -> string -> Z;
  (** [JSZip.loadAsync(bytes)], then [Object.values(zip.files)]; on the
      left the message of the error the promise rejects with when the data
      is not a readable ZIP *)
  loadAsync : list Byte.byte -> string + list Zip.entry;
  (** whether the n-th I/O operation of the run, which is [op], fails *)
  io_fault : nat -> io_op -> option string;
  (** zod's [z.string().url()] *)
  isUrl : string -> bool;
  (** [FileReader.readAsDataURL]; [None] is a read failure *)
  readAsDataURL : File -> option string;
  encodeURIComponent : string -> string
}.

(** ** The world and asynchronous computations *)

Record World := mkWorld {
  dirs : gset (list string);
  fs : gmap (list string) (list Byte.byte);
  toasts : list Toast;
  console : list JsError;
  store : list StoreCall;
  open : bool;
  detected : option DetectedSource;
  clock : nat
}.

Definition set_dirs (f : gset (list string) -> gset (list string)) (w : World) : World :=
  mkWorld (f (dirs w)) (fs w) (toasts w) (console w) (store w) (open w)
          (detected w) (clock w).
Definition set_fs (f : gmap (list string) (list Byte.byte) -> gmap (list string) (list Byte.byte))
    (w : World) : World :=
  mkWorld (dirs w) (f (fs w)) (toasts w) (console w) (store w) (open w)
          (detected w) (clock w).
Definition add_toast (t : Toast) (w : World) : World :=
  mkWorld (dirs w) (fs w) (toasts w ++ [t]) (console w) (store w) (open w)
          (detected w) (clock w).
Definition add_console (e : JsError) (w : World) : World :=
  mkWorld (dirs w) (fs w) (toasts w) (console w ++ [e]) (store w) (open w)
          (detected w) (clock w).
Definition add_store (c : StoreCall) (w : World) : World :=
  mkWorld (dirs w) (fs w) (toasts w) (console w) (store w ++ [c]) (open w)
          (detected w) (clock w).
Definition set_open (b : bool) (w : World) : World :=
  mkWorld (dirs w) (fs w) (toasts w) (console w) (store w) b
          (detected w) (clock w).
Definition set_detected (d : option DetectedSource) (w : World) : World :=
  mkWorld (dirs w) (fs w) (toasts w) (console w) (store w) (open w)
          d (clock w).
Definition tick (w : World) : World :=
  mkWorld (dirs w) (fs w) (toasts w) (console w) (store w) (open w)
          (detected w) (S (clock w)).

Inductive result (A : Type) :=
| Resolved (a : A) (w : World)
| Rejected (e : JsError) (w : World).
Arguments Resolved {A} a w.
Arguments Rejected {A} e w.

Definition Async (A : Type) : Type := World -> result A.

Definition ret {A} (a : A) : Async A := fun w => Resolved a w.
Definition throw {A} (e : JsError) : Async A := fun w => Rejected e w.
Definition bind {A B} (m : Async A) (k : A -> Async B) : Async B :=
  fun w => match m w with
           | Resolved a w' => k a w'
           | Rejected e w' => Rejected e w'
           end.
Definition try_catch {A} (body : Async A) (handler : JsError -> Async A) : Async A :=
  fun w => match body w with
           | Resolved a w' => Resolved a w'
           | Rejected e w' => handler e w'
           end.
Definition modify (f : World -> World) : Async unit :=
  fun w => Resolved tt (f w).

Declare Scope async_scope.
Delimit Scope async_scope with async.
Notation "'do' x <- m ; k" := (bind m (fun x => k))
  (at level 10, x name, m at level 100, k at level 200) : async_scope.
Local Open Scope async_scope.

(** ** JSON and text encoding *)

Definition dquote : ascii := "034"%char.
Definition backslash : ascii := "092"%char.
Definition newline : string := String "010"%char EmptyString.

Definition hex_digit (n : nat) : ascii :=
  if (n <? 10)%nat then ascii_of_nat (48 + n) else ascii_of_nat (87 + n).

(** [QuoteJSONString], one code unit. *)
Definition json_escape (c : ascii) : string :=
  let n := nat_of_ascii c in
  if (n =? 8)%nat then String backslash "b"
  else if (n =? 9)%nat then String backslash "t"
  else if (n =? 10)%nat then String backslash "n"
  else if (n =? 12)%nat then String backslash "f"
  else if (n =? 13)%nat then String backslash "r"
  else if (n =? 34)%nat then String backslash (String dquote EmptyString)
  else if (n =? 92)%nat then String backslash (String backslash EmptyString)
  else if (n <? 32)%nat
       then String backslash
              ("u00" +:+ String (hex_digit (n / 16))
                          (String (hex_digit (n mod 16)) EmptyString))
  else String c EmptyString.

Fixpoint json_escape_all (s : string) : string :=
  match s with
  | EmptyString => EmptyString
  | String c s' => json_escape c +:+ json_escape_all s'
  end.

Definition json_quote (s : string) : string :=
  String dquote (json_escape_all s +:+ String dquote EmptyString).

Definition json_value (v : jvalue) : string :=
  match v with
  | JNull => "null"
  | JString s => json_quote s
  | JNumber n => pretty n
  end.

Fixpoint json_members (fields : jobject) : string :=
  match fields with
  | [] => EmptyString
  | [(k, v)] => "  " +:+ json_quote k +:+ ": " +:+ json_value v
  | (k, v) :: rest =>
      "  " +:+ json_quote k +:+ ": " +:+ json_value v +:+ "," +:+ newline
      +:+ json_members rest
  end.

(** [JSON.stringify(obj, null, 2)] for a flat object *)
Definition JSON_stringify (obj : jobject) : string :=
  match obj with
  | [] => "{}"
  | _ => "{" +:+ newline +:+ json_members obj +:+ newline +:+ "}"
  end.

(** [new TextEncoder().encode(text)]: UTF-8 of code units below 256 *)
Fixpoint TextEncoder_encode (text : string) : list Byte.byte :=
  match text with
  | EmptyString => []
  | String c s =>
      let n := nat_of_ascii c in
      if (n <? 128)%nat then byte_of_ascii c :: TextEncoder_encode s
      else byte_of_ascii (ascii_of_nat (192 + n / 64))
           :: byte_of_ascii (ascii_of_nat (128 + n mod 64))
           :: TextEncoder_encode s
  end.

(** ** [Array.prototype.sort] *)

(** The sort is stable: an element stays in front of the elements it
    compares equal to. *)
Fixpoint sort_insert {A} (compareFn : A -> A -> Z) (x : A) (l : list A) : list A :=
  match l with
  | [] => [x]
  | y :: l' =>
      if (0 <? compareFn x y)%Z then y :: sort_insert compareFn x l'
      else x :: l
  end.

Definition Array_sort {A} (compareFn : A -> A -> Z) (l : list A) : list A :=
  List.fold_right (sort_insert compareFn) [] l.

(** ** The placeholder image *)

Definition requote (s : string) : string :=
  string_of_list_ascii
    (List.map (fun c => if Ascii.eqb c "'"%char then dquote else c)
       (list_ascii_of_string s)).

(** The markup has no apostrophe of its own: it is written here with
    apostrophes where the source has double quotes. *)
Definition FALLBACK_SVG : string :=
  requote
    ("<svg xmlns='http://www.w3.org/2000/svg' width='640' height='360'>"
     +:+ "<defs><linearGradient id='g' x1='0' x2='1' y1='0' y2='1'>"
     +:+ "<stop stop-color='#1f2937' offset='0'/>"
     +:+ "<stop stop-color='#111827' offset='1'/></linearGradient></defs>"
     +:+ "<rect width='100%' height='100%' fill='url(#g)'/>"
     +:+ "<g font-family='Inter, Arial, sans-serif' fill='#E5E7EB' text-anchor='middle'>"
     +:+ "<text x='50%' y='48%' font-size='36' font-weight='700'>MOD</text>"
     +:+ "<text x='50%' y='62%' font-size='14' fill='#9CA3AF'>No image provided</text>"
     +:+ "</g></svg>").

(** ** The file system *)

(** The non-empty prefixes of a path: what [mkdir] with [recursive] makes. *)
Fixpoint prefixes (abs : path) : list path :=
  match abs with
  | [] => []
  | seg :: rest => [seg] :: List.map (cons seg) (prefixes rest)
  end.

(** [child_of d p = Some n] when [p] is the entry [n] of the directory [d]. *)
Fixpoint child_of (d p : path) : option string :=
  match d, p with
  | [], [n] => Some n
  | x :: d', y :: p' => if String.eqb x y then child_of d' p' else None
  | _, _ => None
  end.

Definition entries_of (d : path) (w : World) : list string :=
  omap (child_of d) (elements (dirs w ∪ dom (fs w))).

Section Finalize.

Variable plat : Platform.

(** One I/O operation: the platform may make it fail; it counts either way. *)
Definition io {A} (op : io_op) (run : World -> A * World) : Async A :=
  fun w =>
    match io_fault plat (clock w) op with
    | Some cause => Rejected (IoError op cause) (tick w)
    | None => let '(a, w') := run (tick w) in Resolved a w'
    end.

Definition exists_ (abs : path) : Async bool :=
  io (op_exists abs)
     (fun w => (bool_decide (abs ∈ dirs w ∪ dom (fs w)), w)).

Definition mkdir (abs : path) : Async unit :=
  io (op_mkdir abs)
     (fun w => (tt, set_dirs (fun d => list_to_set (prefixes abs) ∪ d) w)).

Definition writeFile (abs : path) (data : list Byte.byte) : Async unit :=
  io (op_writeFile abs) (fun w => (tt, set_fs (insert abs data) w)).

Definition readDir (abs : path) : Async (list string) :=
  io (op_readDir abs) (fun w => (entries_of abs w, w)).

Definition ensureDir (abs : path) : Async unit :=
  do present <- exists_ abs;
  if negb present then mkdir abs else ret tt.

Definition writeBytes (abs : path) (data : list Byte.byte) : Async unit :=
  writeFile abs data.

Definition writeText (abs : path) (text : string) : Async unit :=
  writeFile abs (TextEncoder_encode text).

Definition toast (t : Toast) : Async unit := modify (add_toast t).
Definition console_error (e : JsError) : Async unit := modify (add_console e).

(** ** The metadata form *)

Definition max_length (n : nat) (field : option string) : bool :=
  match field with
  | None => true
  | Some s => (String.length s <=? n)%nat
  end.

(** The zod schema, as [form.trigger()] checks it. *)
Definition schema_valid (values : Form.t) : bool :=
  (2 <=? String.length (Form.name values))%nat
  && max_length 128 (Form.author values)
  && max_length 4000 (Form.description values)
  && match Form.link values with
     | None => true
     | Some EmptyString => true
     | Some l => isUrl plat l
     end.

Definition validateAndGet (values : Form.t) : option Meta.t :=
  if schema_valid values then
    Some {| Meta.name := Js.trim (Form.name values);
            Meta.author := Js.or_undefined (Js.trim <$> Form.author values);
            Meta.description := Js.or_undefined (Js.trim <$> Form.description values);
            Meta.link := Js.or_undefined (Js.trim <$> Form.link values);
            Meta.imageFile := Form.imageFile values |}
  else None.

(** ** Staging *)

Definition zip_payload (f : Zip.entry) : bool :=
  negb (Zip.dir f) && Js.regex_test re_vpk (Zip.name f).

(** The body of the [try] block. *)
Definition stage_payload (src : DetectedSource) (modDir filesDir : path) : Async unit :=
  match src with
  | vpk file => writeBytes (join filesDir (name file)) (bytes file)
  | folder_vpk files folderName =>
      let sorted :=
        Array_sort (fun a b => localeCompare plat (fileName a) (fileName b)) files in
      do _ <- modify (set_detected (Some (folder_vpk sorted folderName)));
      match List.find is_vpk sorted with
      | None => throw (Error "No .vpk found in folder")
      | Some first => writeBytes (join filesDir (name first)) (bytes first)
      end
  | archive file =>
      let lower := Js.toLowerCase (name file) in
      if Js.endsWith lower ".zip" then
        match loadAsync plat (bytes file) with
        | inl message => throw (Error message)
        | inr zip_files =>
            match List.find zip_payload zip_files with
            | None =>
                do _ <- writeBytes (join modDir (name file)) (bytes file);
                toast (toast_error "No .vpk found inside .zip – stored archive for installer")
            | Some entry =>
                let buf := Zip.data entry in
                let baseName :=
                  Js.or_else
                    (Some (List.last (Js.split_slash (Zip.name entry)) EmptyString))
                    "mod.vpk" in
                writeBytes (join filesDir baseName) buf
            end
        end
      else writeBytes (join modDir (name file)) (bytes file)
  end.

(** The [catch] block. *)
Definition stage_failed (src : DetectedSource) (modDir : path) (e : JsError) : Async unit :=
  do _ <- console_error e;
  do _ <- toast (toast_error "Failed to process archive");
  match src with
  | vpk file | archive file => writeBytes (join modDir (name file)) (bytes file)
  | folder_vpk _ _ => ret tt
  end.

Definition write_preview (meta : Meta.t) (modDir : path) : Async string :=
  match Meta.imageFile meta with
  | Some image =>
      let previewName :=
        "preview" +:+ match Js.regex_match re_image (name image) with
                      | Some ext => Js.toLowerCase ext
                      | None => ".png"
                      end in
      do _ <- writeBytes (join modDir previewName) (bytes image);
      ret previewName
  | None =>
      do _ <- writeText (join modDir "preview.svg") FALLBACK_SVG;
      ret "preview.svg"
  end.

Definition jnullable (o : option string) : jvalue :=
  match Js.or_undefined o with
  | Some s => JString s
  | None => JNull
  end.

Definition metadata_of (modId : string) (meta : Meta.t) (category previewName : string)
    : jobject :=
  [ ("id", JString modId);
    ("kind", JString "local");
    ("name", JString (Meta.name meta));
    ("author", JString (Js.or_else (Meta.author meta) "Unknown"));
    ("link", jnullable (Meta.link meta));
    ("description", jnullable (Meta.description meta));
    ("category", JString category);
    ("createdAt", JString (toISOString plat));
    ("preview", JString previewName);
    ("_schema", JNumber 1) ].

Definition image_data_url (meta : Meta.t) : Async string :=
  match Meta.imageFile meta with
  | Some image =>
      match readAsDataURL plat image with
      | Some url => ret url
      | None => throw (Error "read fail")
      end
  | None => ret ("data:image/svg+xml;utf8," +:+ encodeURIComponent plat FALLBACK_SVG)
  end.

Definition modDto_of (modId : string) (meta : Meta.t) (category imageDataUrl : string)
    : Dto.t :=
  {| Dto.remoteId := modId;
     Dto.name := Meta.name meta;
     Dto.description := Js.or_else (Js.or_undefined (Meta.description meta)) EmptyString;
     Dto.remoteUrl := Js.or_else (Js.or_undefined (Meta.link meta)) "local://manual";
     Dto.author := Js.or_else (Meta.author meta) "Unknown";
     Dto.downloadable := false;
     Dto.remoteAddedAt := toISOString plat;
     Dto.remoteUpdatedAt := toISOString plat;
     Dto.tags := [];
     Dto.images := [imageDataUrl];
     Dto.hero := None;
     Dto.downloadCount := 0;
     Dto.likes := 0;
     Dto.category := category |}.

Definition is_archive_source (src : DetectedSource) : bool :=
  match src with archive _ => true | _ => false end.

Definition modId_of : string := "local-" +:+ randomUUID plat.
Definition modsRoot_of : path := join [appLocalDataDir plat] "mods".
Definition modDir_of : path := join modsRoot_of modId_of.
Definition filesDir_of : path := join modDir_of "files".

(** After the [try]: if [files/] holds no packed asset and the source is
    an archive, the archive is written to the mod directory. *)
Definition keep_archive (src : DetectedSource) (modDir filesDir : path) : Async unit :=
  do filesList <- readDir filesDir;
  let hasVpk := existsb (Js.regex_test re_vpk) filesList in
  if negb hasVpk && is_archive_source src
  then match src with
       | archive file => writeBytes (join modDir (name file)) (bytes file)
       | _ => ret tt
       end
  else ret tt.

(** The metadata document, the store and the closing notice. *)
Definition register (meta : Meta.t) (category previewName : string) : Async unit :=
  let modId := modId_of in
  let modDir := modDir_of in
  let metadata := metadata_of modId meta category previewName in
  do _ <- writeText (join modDir "metadata.json") (JSON_stringify metadata);
  do imageDataUrl <- image_data_url meta;
  let modDto := modDto_of modId meta category imageDataUrl in
  do _ <- modify (add_store (addMod modDto modDir DOWNLOADED));
  do _ <- modify (add_store (setModPath modId modDir));
  do _ <- modify (add_store (setModStatus modId DOWNLOADED));
  do _ <- toast (toast_success ("Added: " +:+ Meta.name meta));
  modify (set_open false).

(** Everything [finalize] does once the early returns are behind it. *)
Definition stage (src : DetectedSource) (meta : Meta.t) (category : string) : Async unit :=
  let modsRoot := modsRoot_of in
  let modDir := modDir_of in
  let filesDir := filesDir_of in
  do _ <- ensureDir modsRoot;
  do _ <- ensureDir modDir;
  do _ <- ensureDir filesDir;
  do previewName <- write_preview meta modDir;
  do _ <- try_catch (stage_payload src modDir filesDir) (stage_failed src modDir);
  do _ <- keep_archive src modDir filesDir;
  register meta category previewName.

Definition finalize (values : Form.t) (category : string) (sourceType : SourceType)
    : Async unit :=
  match validateAndGet values with
  | None => ret tt
  | Some meta =>
      match sourceType with
      | st_url =>
          do _ <- toast (toast_info "URL flow is handled by the API pipeline.");
          modify (set_open false)
      | _ =>
          fun w =>
            match detected w with
            | None => toast (toast_error "No files detected.") w
            | Some src => stage src meta category w
            end
      end
  end.

End Finalize.

(** * Vocabulary of the specification, auxiliary worlds and scenarios *)

(** The specification's wording: a name "ends in" an extension "in any
    case" when it is some stem followed by the letters of the extension,
    each in either case. *)
Fixpoint fold_case (s : string) : string :=
  match s with
  | EmptyString => EmptyString
  | String c s' => String (Js.upcase c) (fold_case s')
  end.

Definition ends_in (ext s : string) : Prop :=
  exists stem tail, s = stem +:+ tail /\ fold_case tail = fold_case ext.

Definition no_slash (s : string) : Prop :=
  ~ In "/"%char (list_ascii_of_string s).

(** The part of a relative path in front of its first slash. *)
Fixpoint first_segment (s : string) : string :=
  match s with
  | EmptyString => EmptyString
  | String c s' => if Ascii.eqb c "/"%char then EmptyString else String c (first_segment s')
  end.

(** The folder name [detectSource] derives from an entry. *)
Definition folder_of (f : File) : option string :=
  match webkitRelativePath f with
  | Some (String c rel) => Some (first_segment (String c rel))
  | _ => None
  end.

(** "Exactly the matching subset": [sub] keeps, in their order, the
    entries of [l] that satisfy [P], and no other. *)
Inductive matching_subset {A} (P : A -> Prop) : list A -> list A -> Prop :=
| ms_nil : matching_subset P [] []
| ms_keep x l sub : P x -> matching_subset P l sub -> matching_subset P (x :: l) (x :: sub)
| ms_drop x l sub : ~ P x -> matching_subset P l sub -> matching_subset P (x :: l) sub.

Definition ex_readme : File := mkFile "readme.txt" (Some "a/readme.txt") [Byte.x72].
Definition ex_b_vpk : File := mkFile "b.vpk" (Some "a/b.vpk") [Byte.x0b].
Definition ex_c_vpk : File := mkFile "c.vpk" (Some "a/c.vpk") [Byte.x0c].

(** The world an [ensureDir] that does not fail leaves behind. *)
Definition ensured (abs : path) (w : World) : World :=
  if bool_decide (abs ∈ dirs w ∪ dom (fs w)) then tick w
  else set_dirs (fun d => list_to_set (prefixes abs) ∪ d) (tick (tick w)).

(** The author written to the document: the trimmed author of the form,
    ["Unknown"] when none was supplied. *)
Definition author_or_unknown (supplied : option string) : string :=
  match supplied with
  | None => "Unknown"
  | Some a => match Js.trim a with
              | EmptyString => "Unknown"
              | t => t
              end
  end.

(** A nullable text field: [null] when nothing was supplied. *)
Definition nullable (supplied : option string) : jvalue :=
  match supplied with
  | None => JNull
  | Some s => match Js.trim s with
              | EmptyString => JNull
              | t => JString t
              end
  end.

(** The name of the preview file: [preview] and the recognised image
    extension in lower case, [.png] for any other image name, and
    [preview.svg] when there is no image. *)
Definition preview_name (image : option File) : string :=
  match image with
  | None => "preview.svg"
  | Some img =>
      match Js.regex_match re_image (name img) with
      | Some ext => "preview" +:+ Js.toLowerCase ext
      | None => "preview.png"
      end
  end.

Definition preview_data (image : option File) : list Byte.byte :=
  match image with
  | None => TextEncoder_encode FALLBACK_SVG
  | Some img => bytes img
  end.

(** The ten fields of [metadata.json], in the order they are written. *)
Definition metadata_document (plat : Platform) (values : Form.t) (category : string)
    : jobject :=
  [ ("id", JString ("local-" +:+ randomUUID plat));
    ("kind", JString "local");
    ("name", JString (Js.trim (Form.name values)));
    ("author", JString (author_or_unknown (Form.author values)));
    ("link", nullable (Form.link values));
    ("description", nullable (Form.description values));
    ("category", JString category);
    ("createdAt", JString (toISOString plat));
    ("preview", JString (preview_name (Form.imageFile values)));
    ("_schema", JNumber 1) ].

(** No I/O operation of the run fails. *)
Definition reliable (plat : Platform) : Prop :=
  forall n op, io_fault plat n op = None.

(** The image of the form, if any, can be read back as a data URL. *)
Definition readable (plat : Platform) (image : option File) : Prop :=
  match image with
  | Some img => is_Some (readAsDataURL plat img)
  | None => True
  end.

(** What a completed run adds to the store and to the dialog. *)
Definition registered (plat : Platform) (meta : Meta.t) (category : string)
    (w w' : World) : Prop :=
  exists url,
    store w' = store w
      ++ [addMod (modDto_of plat (modId_of plat) meta category url)
            (modDir_of plat) DOWNLOADED;
          setModPath (modId_of plat) (modDir_of plat);
          setModStatus (modId_of plat) DOWNLOADED]
    /\ open w' = false.

(** Every operation succeeds, except perhaps a write into [files/]. *)
Definition sound_outside_files (plat : Platform) : Prop :=
  forall n op,
    (forall nm, op <> op_writeFile (join (filesDir_of plat) nm)) ->
    io_fault plat n op = None.

(** The world once the layout exists and the preview is written. *)
Definition prepared (plat : Platform) (meta : Meta.t) (w : World) : World :=
  set_fs (insert (join (modDir_of plat) (preview_name (Meta.imageFile meta)))
            (preview_data (Meta.imageFile meta)))
    (tick (ensured (filesDir_of plat)
             (ensured (modDir_of plat) (ensured (modsRoot_of plat) w)))).

(** What [keep_archive] leaves in the file system. *)
Definition kept_fs (plat : Platform) (src : DetectedSource) (w : World)
    : gmap (list string) (list Byte.byte) :=
  match src with
  | archive file =>
      if existsb (Js.regex_test re_vpk) (entries_of (filesDir_of plat) w)
      then fs w
      else <[join (modDir_of plat) (name file) := bytes file]> (fs w)
  | _ => fs w
  end.

(** Case-sensitive lexical order, by code unit. *)
Definition codeUnitCompare (a b : string) : Z :=
  match String.compare a b with
  | Lt => (-1)%Z
  | Eq => 0%Z
  | Gt => 1%Z
  end.

Definition never_fails : nat -> io_op -> option string := fun _ _ => None.

Definition not_a_zip : list Byte.byte -> string + list Zip.entry :=
  fun _ => inl "Can't find end of central directory : is this a zip file ?".

Definition ex_platform (fault : nat -> io_op -> option string)
    (zip : list Byte.byte -> string + list Zip.entry) : Platform :=
  {| randomUUID := "3f2c";
     appLocalDataDir := "/data";
     toISOString := "2025-01-01T00:00:00.000Z";
     localeCompare := codeUnitCompare;
     loadAsync := zip;
     io_fault := fault;
     isUrl := fun _ => true;
     readAsDataURL := fun _ => Some "data:image/png;base64,AA==";
     encodeURIComponent := fun s => s |}.

Definition ex_world (src : option DetectedSource) : World :=
  mkWorld ∅ ∅ [] [] [] true src 0.

Definition ex_form : Form.t :=
  Form.mk " Red Armor " (Some "  ") (Some EmptyString) (Some EmptyString) None.

Definition ex_meta : Meta.t := Meta.mk "Red Armor" None None None None.

Definition ex_modDir : path := ["/data"; "mods"; "local-3f2c"].

Definition ex_skin : File := mkFile "SkinPack.vpk" None [Byte.x01; Byte.x02].

Definition ex_bundle : File := mkFile "bundle.ZIP" None [Byte.x50; Byte.x4b].

Definition ex_inner_skin : Zip.entry :=
  Zip.mk "inner/skin.vpk" false [Byte.x0a; Byte.x0b].
Definition ex_inner_dir : Zip.entry := Zip.mk "odd.vpk" true [].
Definition ex_inner_other : Zip.entry := Zip.mk "b/other.VPK" false [Byte.x0c].
Definition ex_inner_readme : Zip.entry := Zip.mk "readme.txt" false [Byte.x0d].

(** The world a run ends in, resolved or not. *)
Definition world_of {A} (r : result A) : World :=
  match r with
  | Resolved _ w => w
  | Rejected _ w => w
  end.

(** A comparator [Array.prototype.sort] can rely on: if [a] sorts after
    [b] then [b] does not sort after [a], and "does not sort after" is
    transitive. *)
Definition consistent (cmp : string -> string -> Z) : Prop :=
  (forall a b, (0 < cmp a b)%Z -> (cmp b a <= 0)%Z)
  /\ (forall a b c, (cmp a b <= 0)%Z -> (cmp b c <= 0)%Z -> (cmp a c <= 0)%Z).

Definition ex_nested_a : File := mkFile "a.vpk" (Some "m/z/a.vpk") [Byte.x0a].
Definition ex_top_b : File := mkFile "b.vpk" (Some "m/b.vpk") [Byte.x0b].

Definition is_resolved {A} (r : result A) : bool :=
  match r with
  | Resolved _ _ => true
  | Rejected _ _ => false
  end.



(** Writes into a directory fail, every other operation succeeds. *)
Definition fails_in (dir : path) : nat -> io_op -> option string :=
  fun _ op =>
    match op with
    | op_writeFile abs =>
        match child_of dir abs with
        | Some _ => Some "EACCES"
        | None => None
        end
    | _ => None
    end.

(** Writes to one path fail, every other operation succeeds. *)
Definition fails_at (target : path) : nat -> io_op -> option string :=
  fun _ op =>
    match op with
    | op_writeFile abs => if bool_decide (abs = target) then Some "ENOSPC" else None
    | _ => None
    end.



(** * The rest of the page: the URL field, the dialog, picking and dropping *)

Module Re.

(** A literal under the [i] flag at the current position: what follows it. *)
Fixpoint literal (lit s : string) : option string :=
  match lit, s with
  | EmptyString, _ => Some s
  | String p lit', String c s' => if Js.char_ci p c then literal lit' s' else None
  | String _ _, EmptyString => None
  end.

(** A literal followed by the rest [k] of the pattern. *)
Definition then_ (lit : string) (k : string -> bool) (s : string) : bool :=
  match literal lit s with
  | Some rest => k rest
  | None => false
  end.

(** [(lit)?] followed by [k]: with the literal first, without it on
    backtracking. *)
Definition optional (lit : string) (k : string -> bool) (s : string) : bool :=
  then_ lit k s || k s.

(** [s.replace(/(lit1|lit2|...)$/i, '')]: the leftmost match is removed. *)
Fixpoint strip_end (alts : list string) (s : string) : string :=
  if existsb (fun lit => Js.match_here lit s) alts then EmptyString
  else match s with
       | EmptyString => EmptyString
       | String c s' => String c (strip_end alts s')
       end.

End Re.

(** [/^https?:\/\/(www\.)?gamebanana\.com\//i.test(url.trim())] *)
Definition isGameBananaUrl (url : string) : bool :=
  Re.then_ "http"
    (Re.optional "s"
       (Re.then_ "://"
          (Re.optional "www."
             (Re.then_ "gamebanana.com/" (fun _ => true)))))
    (Js.trim url).

(** [v.split('/').filter(Boolean).pop()] *)
Definition guessName (v : string) : option string :=
  List.last
    (List.map Some
       (List.filter (fun seg => Js.truthy (Some seg)) (Js.split_slash v)))
    None.

(** The state of the page around the world: the add-mod form, the name the
    metadata form starts from, the highlight of the drop zone. *)
Record Page := mkPage {
  world : World;
  form_category : string;
  form_sourceType : SourceType;
  form_url : option string;
  initialMeta_name : option string;
  dragging : bool
}.

Inductive DialogRequest :=
| from_url (url : string) (name : option string)
| from_files (ds : DetectedSource).

Definition kind_of (ds : DetectedSource) : SourceType :=
  match ds with
  | archive _ => st_archive
  | vpk _ => st_vpk
  | folder_vpk _ _ => st_folder_vpk
  end.

(** The name the dialog proposes for a detected source. *)
Definition proposed_name (ds : DetectedSource) : string :=
  match ds with
  | archive file => Re.strip_end re_archive (name file)
  | vpk file => Re.strip_end re_vpk (name file)
  | folder_vpk files folderName =>
      Js.or_else folderName
        (Js.or_else
           (match files with
            | first :: _ => Some (Re.strip_end re_vpk (name first))
            | [] => None
            end)
           EmptyString)
  end.

Definition startDialog (SKINS : string) (ds : DialogRequest) (pg : Page) : Page :=
  match ds with
  | from_url url nm =>
      {| world := set_open true (set_detected None (world pg));
         form_category := SKINS;
         form_sourceType := st_url;
         form_url := Some url;
         initialMeta_name := Some (Js.or_else nm EmptyString);
         dragging := dragging pg |}
  | from_files d =>
      let n := proposed_name d in
      {| world := set_open true (set_detected (Some d) (world pg));
         form_category := SKINS;
         form_sourceType := kind_of d;
         form_url := None;
         initialMeta_name := Some (Js.or_else (Some n) EmptyString);
         dragging := dragging pg |}
  end.

Definition page_toast (t : Toast) (pg : Page) : Page :=
  {| world := add_toast t (world pg);
     form_category := form_category pg;
     form_sourceType := form_sourceType pg;
     form_url := form_url pg;
     initialMeta_name := initialMeta_name pg;
     dragging := dragging pg |}.

Definition setDragging (b : bool) (pg : Page) : Page :=
  {| world := world pg;
     form_category := form_category pg;
     form_sourceType := form_sourceType pg;
     form_url := form_url pg;
     initialMeta_name := initialMeta_name pg;
     dragging := b |}.

(** The Enter key of the URL field and the Continue button. *)
Definition submit_url (SKINS : string) (v : string) (pg : Page) : Page :=
  if negb (isGameBananaUrl v)
  then page_toast (toast_error "Only GameBanana URLs are supported right now.") pg
  else startDialog SKINS (from_url v (guessName v)) pg.

Definition onPickFiles (SKINS : string) (files : list (option File)) (pg : Page) : Page :=
  match detectSource files with
  | None => page_toast (toast_error "Unsupported selection.") pg
  | Some ds => startDialog SKINS (from_files ds) pg
  end.

(** [files.every(f => !f)] *)
Definition all_holes {A} (files : list (option A)) : bool :=
  forallb (fun f => match f with None => true | Some _ => false end) files.

(** The [onDrop] of the drop zone. [items] is the length of
    [dataTransfer.items] and [fromItems] what walking them yields. *)
Definition onDrop (SKINS : string) (dropped : list (option File)) (items : nat)
    (fromItems : list (option File)) (pg : Page) : Page :=
  let pg := setDragging false pg in
  let files :=
    if (match dropped with [] => true | _ => false end || all_holes dropped)
       && negb (items =? 0)%nat
    then match fromItems with
         | [] => dropped
         | _ => fromItems
         end
    else dropped in
  match detectSource files with
  | None => page_toast (toast_error "Unsupported file(s).") pg
  | Some ds => startDialog SKINS (from_files ds) pg
  end.


(** * Traces of a run *)

(** What one operation of [finalize] can do to the world before the mod is
    registered; [S] holds the paths that may be written. *)
Inductive step (S : path -> Prop) : World -> World -> Prop :=
| step_tick w : step S w (tick w)
| step_mkdir w abs :
    step S w (set_dirs (fun d => list_to_set (prefixes abs) ∪ d) w)
| step_write w abs data : S abs -> step S w (set_fs (insert abs data) w)
| step_toast w t : (forall m, t <> toast_success m) -> step S w (add_toast t w)
| step_console w e : step S w (add_console e w)
| step_detected w d : step S w (set_detected d w).

Definition evolves (S : path -> Prop) : World -> World -> Prop := rtc (step S).

(** Whatever its outcome, [m] only takes such steps. *)
Definition within (S : path -> Prop) {A} (m : Async A) : Prop :=
  forall w, evolves S w (world_of (m w)).

(** Whatever its outcome, [m] leaves the projection [f] of the world alone. *)
Definition keeps {X A} (f : World -> X) (m : Async A) : Prop :=
  forall w, f (world_of (m w)) = f w.

(** The registration that ends a completed run. *)
Definition completed (plat : Platform) (meta : Meta.t) (category url : string)
    (w : World) : World :=
  set_open false
    (add_toast (toast_success ("Added: " +:+ Meta.name meta))
       (add_store (setModStatus (modId_of plat) DOWNLOADED)
          (add_store (setModPath (modId_of plat) (modDir_of plat))
             (add_store
                (addMod (modDto_of plat (modId_of plat) meta category url)
                   (modDir_of plat) DOWNLOADED) w)))).

(** How a run past the early returns ends: rejected at the end of a
    trace, or completed by the registration after one. *)
Definition run_outcome (plat : Platform) (meta : Meta.t) (category : string)
    (S : path -> Prop) (w : World) (r : result unit) : Prop :=
  exists w1,
    evolves S w w1
    /\ ((exists e, r = Rejected e w1)
        \/ (exists url, r = Resolved tt (completed plat meta category url w1))).

(** The paths a run may write. *)
Definition footprint (plat : Platform) (meta : Meta.t) (src : DetectedSource)
    (abs : path) : Prop :=
  abs = join (modDir_of plat) (preview_name (Meta.imageFile meta))
  \/ (exists nm, abs = join (filesDir_of plat) nm)
  \/ abs = join (modDir_of plat) "metadata.json"
  \/ match src with
     | vpk file | archive file => abs = join (modDir_of plat) (name file)
     | folder_vpk _ _ => False
     end.

(** The paths written once the preview is in place. *)
Definition footprint_after_preview (plat : Platform) (src : DetectedSource)
    (abs : path) : Prop :=
  (exists nm, abs = join (filesDir_of plat) nm)
  \/ abs = join (modDir_of plat) "metadata.json"
  \/ match src with
     | vpk file | archive file => abs = join (modDir_of plat) (name file)
     | folder_vpk _ _ => False
     end.

(** A source as [detectSource] makes them. *)
Definition classified (src : DetectedSource) : Prop :=
  match src with
  | vpk file => is_vpk file = true
  | archive file => is_archive file = true /\ is_vpk file = false
  | folder_vpk files _ => files <> [] /\ forall f, In f files -> is_vpk f = true
  end.

(** The six names a preview file can have. *)
Definition preview_names : list string :=
  ["preview.svg"; "preview.png"; "preview.jpg"; "preview.jpeg"; "preview.webp";
   "preview.gif"].

(** Sorted for a comparator: no element sorts after a later one. *)
Definition sorted_by {A} (cmp : A -> A -> Z) (l : list A) : Prop :=
  StronglySorted (fun a b => (cmp a b <= 0)%Z) l.

Definition ex_page (w : World) : Page :=
  mkPage w "Skins" st_vpk None None false.

(** * Properties *)

(** ** The model at work *)

Example detect_single_vpk :
  detectSource [Some (mkFile "SkinPack.VPK" None [])]
  = Some (vpk (mkFile "SkinPack.VPK" None [])).
Proof. reflexivity. Qed.

Example detect_folder :
  detectSource [Some (mkFile "readme.txt" (Some "a/readme.txt") []);
                Some (mkFile "b.vpk" (Some "a/b.vpk") []);
                Some (mkFile "c.vpk" (Some "a/c.vpk") [])]
  = Some (folder_vpk [mkFile "b.vpk" (Some "a/b.vpk") [];
                      mkFile "c.vpk" (Some "a/c.vpk") []] (Some "a")).
Proof. reflexivity. Qed.

Example stringify_small :
  JSON_stringify [("a", JString "x"); ("n", JNumber 1); ("z", JNull)]
  = "{" +:+ newline +:+ "  " +:+ String dquote "a" +:+ String dquote ": "
        +:+ String dquote "x" +:+ String dquote "," +:+ newline
        +:+ "  " +:+ String dquote "n" +:+ String dquote ": 1," +:+ newline
        +:+ "  " +:+ String dquote "z" +:+ String dquote ": null" +:+ newline +:+ "}".
Proof. vm_compute. reflexivity. Qed.

(** The first scenario of the specification: [SkinPack.vpk], staged under
    the name "Red Armor" with no author. *)
Example stage_single_packed_asset :
  let run := finalize (ex_platform never_fails not_a_zip) ex_form "Skins" st_vpk
               (ex_world (detectSource [Some ex_skin])) in
  is_resolved run = true
  /\ fs (world_of run) !! join (join ex_modDir "files") "SkinPack.vpk"
     = Some [Byte.x01; Byte.x02]
  /\ fs (world_of run) !! join ex_modDir "preview.svg"
     = Some (TextEncoder_encode FALLBACK_SVG)
  /\ fs (world_of run) !! join ex_modDir "metadata.json"
     = Some (TextEncoder_encode
               (JSON_stringify
                  [ ("id", JString "local-3f2c");
                    ("kind", JString "local");
                    ("name", JString "Red Armor");
                    ("author", JString "Unknown");
                    ("link", JNull);
                    ("description", JNull);
                    ("category", JString "Skins");
                    ("createdAt", JString "2025-01-01T00:00:00.000Z");
                    ("preview", JString "preview.svg");
                    ("_schema", JNumber 1) ]))
  /\ toasts (world_of run) = [toast_success "Added: Red Armor"]
  /\ open (world_of run) = false.
Proof. cbv zeta. split_and!; vm_compute; reflexivity. Qed.

(** An archive that is not a ZIP is stored whole in the mod directory. *)
Example stage_rar_archive :
  let run := finalize (ex_platform never_fails not_a_zip) ex_form "Skins" st_archive
               (ex_world (detectSource [Some (mkFile "pack.rar" None [Byte.x52])])) in
  is_resolved run = true
  /\ fs (world_of run) !! join ex_modDir "pack.rar" = Some [Byte.x52]
  /\ toasts (world_of run) = [toast_success "Added: Red Armor"].
Proof. cbv zeta. split_and!; vm_compute; reflexivity. Qed.

(** A file that [JSZip] cannot read: the [catch] block stores it whole. *)
Example stage_unreadable_zip :
  let run := finalize (ex_platform never_fails not_a_zip) ex_form "Skins" st_archive
               (ex_world (detectSource [Some ex_bundle])) in
  is_resolved run = true
  /\ fs (world_of run) !! join ex_modDir "bundle.ZIP" = Some [Byte.x50; Byte.x4b]
  /\ console (world_of run)
     = [Error "Can't find end of central directory : is this a zip file ?"]
  /\ toasts (world_of run)
     = [toast_error "Failed to process archive"; toast_success "Added: Red Armor"].
Proof. cbv zeta. split_and!; vm_compute; reflexivity. Qed.

(** ** Names and extensions *)

Lemma match_here_iff lit s :
  Js.match_here lit s = true <-> fold_case s = fold_case lit.
Proof.
  revert s. induction lit as [|p lit IH]; intros [|c s]; simpl; try easy.
  unfold Js.char_ci. rewrite andb_true_iff, Ascii.eqb_eq, IH.
  split.
  - intros [-> ->]. reflexivity.
  - intros H. injection H as H1 H2. auto.
Qed.

Lemma regex_match_sound alts s m :
  Js.regex_match alts s = Some m ->
  exists stem lit, s = stem +:+ m /\ In lit alts /\ fold_case m = fold_case lit.
Proof.
  induction s as [|c s IH]; simpl.
  - destruct (existsb _ alts) eqn:E; [|discriminate].
    intros [= <-]. apply existsb_exists in E as (lit & Hin & Hm).
    exists EmptyString, lit. rewrite match_here_iff in Hm. auto.
  - destruct (existsb _ alts) eqn:E.
    + intros [= <-]. apply existsb_exists in E as (lit & Hin & Hm).
      exists EmptyString, lit. rewrite match_here_iff in Hm. auto.
    + intros H. destruct (IH H) as (stem & lit & -> & Hin & Hm).
      exists (String c stem), lit. auto.
Qed.

Lemma regex_match_complete alts stem tail lit :
  In lit alts -> fold_case tail = fold_case lit ->
  exists m, Js.regex_match alts (stem +:+ tail) = Some m.
Proof.
  intros Hin Hm.
  assert (Hex : existsb (fun l => Js.match_here l tail) alts = true).
  { apply existsb_exists. exists lit. rewrite match_here_iff. auto. }
  induction stem as [|c stem IH].
  - change (EmptyString +:+ tail) with tail.
    destruct tail; simpl in *; rewrite Hex; eauto.
  - change (String c stem +:+ tail) with (String c (stem +:+ tail)).
    cbn [Js.regex_match].
    destruct (existsb (fun l => Js.match_here l (String c (stem +:+ tail))) alts);
      [eauto | exact IH].
Qed.

Lemma regex_test_iff alts s :
  Js.regex_test alts s = true <-> exists lit, In lit alts /\ ends_in lit s.
Proof.
  unfold Js.regex_test, ends_in. split.
  - destruct (Js.regex_match alts s) as [m|] eqn:E; [|discriminate].
    intros _. destruct (regex_match_sound _ _ _ E) as (stem & lit & -> & Hin & Hm).
    eauto 6.
  - intros (lit & Hin & stem & tail & -> & Hm).
    destruct (regex_match_complete alts stem tail lit Hin Hm) as [m ->].
    reflexivity.
Qed.

Lemma is_vpk_iff f : is_vpk f = true <-> ends_in ".vpk" (name f).
Proof.
  unfold is_vpk. rewrite regex_test_iff. split.
  - intros (lit & [<-|[]] & H). exact H.
  - intros H. exists ".vpk". split; [left; reflexivity | exact H].
Qed.

Lemma is_archive_iff f :
  is_archive f = true
  <-> ends_in ".zip" (name f) \/ ends_in ".rar" (name f) \/ ends_in ".7z" (name f).
Proof.
  unfold is_archive. rewrite regex_test_iff. split.
  - intros (lit & [<-|[<-|[<-|[]]]] & H); auto.
  - intros [H|[H|H]]; eexists; (split; [|exact H]); simpl; auto.
Qed.

Lemma split_slash_head s :
  List.head (Js.split_slash s) = Some (first_segment s).
Proof.
  induction s as [|c s IH]; simpl; [reflexivity|].
  destruct (Ascii.eqb c "/"); [reflexivity|].
  destruct (Js.split_slash s); simpl in *; congruence.
Qed.

(** ** Classification *)

Lemma filter_matching_subset {A} (p : A -> bool) (P : A -> Prop) l :
  (forall x, p x = true <-> P x) ->
  matching_subset P l (List.filter p l).
Proof.
  intros Hp. induction l as [|x l IH]; simpl; [constructor|].
  destruct (p x) eqn:E.
  - apply ms_keep; [apply Hp, E | exact IH].
  - apply ms_drop; [rewrite <- Hp; congruence | exact IH].
Qed.

Lemma filter_Boolean_Some {A} (l : list A) : filter_Boolean (Some <$> l) = l.
Proof.
  unfold filter_Boolean. induction l as [|x l IH]; simpl; [reflexivity|].
  f_equal. exact IH.
Qed.

Lemma filter_nil_iff {A} (p : A -> bool) l :
  List.filter p l = [] <-> forall x, In x l -> p x = false.
Proof.
  induction l as [|x l IH]; simpl; [tauto|].
  destruct (p x) eqn:E; split; try discriminate.
  - intros H. specialize (H x (or_introl eq_refl)). congruence.
  - intros H y [<-|Hy]; [exact E | apply IH; assumption].
  - intros H. apply IH. auto.
Qed.

(** C6. A drop of exactly one entry: a name ending in the packed-asset
    extension, in any case, is classified as the single packed asset with
    that entry; otherwise a name ending in .zip, .rar or .7z, in any case,
    is classified as the single archive with that entry. *)
Theorem detectSource_single_entry (f : File) :
  (ends_in ".vpk" (name f) -> detectSource [Some f] = Some (vpk f))
  /\ (~ ends_in ".vpk" (name f) ->
      ends_in ".zip" (name f) \/ ends_in ".rar" (name f) \/ ends_in ".7z" (name f) ->
      detectSource [Some f] = Some (archive f)).
Proof.
  split.
  - intros H. apply is_vpk_iff in H.
    unfold detectSource. simpl. rewrite H. reflexivity.
  - intros Hn H. apply is_archive_iff in H.
    assert (Hv : is_vpk f = false).
    { destruct (is_vpk f) eqn:E; [|reflexivity]. apply is_vpk_iff in E. tauto. }
    unfold detectSource. simpl. rewrite Hv, H. reflexivity.
Qed.

Lemma detectSource_single_entry_witness :
  detectSource [Some (mkFile "SkinPack.VPK" None [])]
    = Some (vpk (mkFile "SkinPack.VPK" None []))
  /\ detectSource [Some (mkFile "bundle.7Z" None [])]
    = Some (archive (mkFile "bundle.7Z" None [])).
Proof.
  split.
  - apply (proj1 (detectSource_single_entry (mkFile "SkinPack.VPK" None []))).
    exists "SkinPack", ".VPK". split; reflexivity.
  - apply (proj2 (detectSource_single_entry (mkFile "bundle.7Z" None []))).
    + intros H. apply (is_vpk_iff (mkFile "bundle.7Z" None [])) in H.
      discriminate H.
    + right. right. exists "bundle", ".7Z". split; reflexivity.
Defined.

(** C7. A drop of two or more entries with at least one packed-asset name
    is classified as a folder holding exactly the matching entries, in
    their order, whatever else is mixed in; the folder name is the first
    segment of the first matching entry's relative path when it has one and
    is absent otherwise.  An empty drop, and a drop of two or more entries
    none of which matches, are unrecognised. *)
Theorem detectSource_many_entries (files : list File) :
  (2 <= length files ->
   (exists f, In f files /\ ends_in ".vpk" (name f)) ->
   exists first rest,
     detectSource (Some <$> files)
       = Some (folder_vpk (first :: rest) (folder_of first))
     /\ matching_subset (fun f => ends_in ".vpk" (name f)) files (first :: rest))
  /\ (files = [] -> detectSource (Some <$> files) = None)
  /\ (2 <= length files ->
      (forall f, In f files -> ~ ends_in ".vpk" (name f)) ->
      detectSource (Some <$> files) = None).
Proof.
  assert (Hmulti : 2 <= length files ->
            detectSource (Some <$> files)
            = match List.filter is_vpk files with
              | first :: rest => Some (folder_vpk (first :: rest) (folder_of first))
              | [] => None
              end).
  { intros Hlen. unfold detectSource.
    destruct files as [|f1 [|f2 files']]; simpl in Hlen; try lia.
    pose proof (filter_Boolean_Some (f1 :: f2 :: files')) as Hflat.
    change (Some <$> f1 :: f2 :: files')
      with (Some f1 :: (Some <$> f2 :: files')) in *.
    cbv zeta iota beta. rewrite Hflat.
    change (length (f1 :: f2 :: files') =? 1)%nat with false. cbv iota.
    destruct (List.filter is_vpk (f1 :: f2 :: files')) as [|first rest]; [reflexivity|].
    f_equal. f_equal. unfold folder_of.
    destruct (webkitRelativePath first) as [[|c rel]|]; try reflexivity.
    cbn [Js.truthy Js.or_else]. rewrite split_slash_head. reflexivity. }
  split; [|split].
  - intros Hlen (f & Hin & Hf). rewrite (Hmulti Hlen).
    pose proof (filter_matching_subset is_vpk (fun f => ends_in ".vpk" (name f))
                  files is_vpk_iff) as Hsub.
    destruct (List.filter is_vpk files) as [|first rest] eqn:E.
    + exfalso. apply is_vpk_iff in Hf.
      rewrite (proj1 (filter_nil_iff _ _) E f Hin) in Hf. discriminate.
    + exists first, rest. auto.
  - intros ->. reflexivity.
  - intros Hlen Hnone. rewrite (Hmulti Hlen).
    replace (List.filter is_vpk files) with (@nil File); [reflexivity|].
    symmetry. apply filter_nil_iff. intros f Hin.
    destruct (is_vpk f) eqn:E; [|reflexivity].
    apply is_vpk_iff in E. destruct (Hnone f Hin E).
Qed.

Lemma detectSource_many_entries_witness :
  (exists first rest,
     detectSource (Some <$> [ex_readme; ex_c_vpk; ex_b_vpk])
       = Some (folder_vpk (first :: rest) (folder_of first))
     /\ matching_subset (fun f => ends_in ".vpk" (name f))
          [ex_readme; ex_c_vpk; ex_b_vpk] (first :: rest))
  /\ detectSource (Some <$> []) = None
  /\ detectSource (Some <$> [ex_readme; ex_readme]) = None.
Proof.
  split; [|split].
  - apply (proj1 (detectSource_many_entries [ex_readme; ex_c_vpk; ex_b_vpk])).
    + simpl. lia.
    + exists ex_b_vpk. split; [simpl; auto|].
      exists "b", ".vpk". split; reflexivity.
  - apply (proj1 (proj2 (detectSource_many_entries []))). reflexivity.
  - apply (proj2 (proj2 (detectSource_many_entries [ex_readme; ex_readme]))).
    + simpl. lia.
    + intros f Hin H. apply is_vpk_iff in H.
      destruct Hin as [<-|[<-|[]]]; discriminate H.
Defined.

(** ** Running asynchronous code *)

Arguments TextEncoder_encode : simpl never.
Arguments JSON_stringify : simpl never.
Arguments FALLBACK_SVG : simpl never.

Lemma bind_resolved {A B} (m : Async A) (k : A -> Async B) w a w1 :
  m w = Resolved a w1 -> bind m k w = k a w1.
Proof. unfold bind. intros ->. reflexivity. Qed.

Lemma bind_resolved_inv {A B} (m : Async A) (k : A -> Async B) w b w' :
  bind m k w = Resolved b w' ->
  exists a w1, m w = Resolved a w1 /\ k a w1 = Resolved b w'.
Proof.
  unfold bind. destruct (m w) as [a w1|e w1]; [eauto | discriminate].
Qed.

Section Runs.

Variable plat : Platform.

Lemma run_io {A B} op (run : World -> A * World) (k : A -> Async B) w :
  io_fault plat (clock w) op = None ->
  bind (io plat op run) k w = k (fst (run (tick w))) (snd (run (tick w))).
Proof.
  intros H. unfold bind, io. rewrite H. destruct (run (tick w)). reflexivity.
Qed.

Lemma run_io_fault {A B} op (run : World -> A * World) (k : A -> Async B) w cause :
  io_fault plat (clock w) op = Some cause ->
  bind (io plat op run) k w = Rejected (IoError op cause) (tick w).
Proof. intros H. unfold bind, io. rewrite H. reflexivity. Qed.

Lemma run_writeFile {B} abs data (k : unit -> Async B) w :
  io_fault plat (clock w) (op_writeFile abs) = None ->
  bind (writeFile plat abs data) k w = k tt (set_fs (insert abs data) (tick w)).
Proof. intros H. unfold writeFile. rewrite run_io by exact H. reflexivity. Qed.

Lemma writeFile_resolved abs data w :
  io_fault plat (clock w) (op_writeFile abs) = None ->
  writeFile plat abs data w = Resolved tt (set_fs (insert abs data) (tick w)).
Proof. intros H. unfold writeFile, io. rewrite H. reflexivity. Qed.

Lemma run_readDir {B} abs (k : list string -> Async B) w :
  io_fault plat (clock w) (op_readDir abs) = None ->
  bind (readDir plat abs) k w = k (entries_of abs (tick w)) (tick w).
Proof. intros H. unfold readDir. rewrite run_io by exact H. reflexivity. Qed.

Lemma run_ensureDir {B} abs (k : unit -> Async B) w :
  (forall n, io_fault plat n (op_exists abs) = None) ->
  (forall n, io_fault plat n (op_mkdir abs) = None) ->
  bind (ensureDir plat abs) k w = k tt (ensured abs w).
Proof.
  intros He Hm. unfold ensureDir, exists_, mkdir, ensured.
  unfold bind, io. rewrite He.
  change (dirs (tick w)) with (dirs w). change (fs (tick w)) with (fs w).
  case_bool_decide; cbn [negb]; [reflexivity|].
  change (clock (tick w)) with (S (clock w)). rewrite Hm. reflexivity.
Qed.

Lemma run_modify {B} f (k : unit -> Async B) w :
  bind (modify f) k w = k tt (f w).
Proof. reflexivity. Qed.

End Runs.

Lemma ensured_fs abs w : fs (ensured abs w) = fs w.
Proof. unfold ensured. case_bool_decide; reflexivity. Qed.
Lemma ensured_toasts abs w : toasts (ensured abs w) = toasts w.
Proof. unfold ensured. case_bool_decide; reflexivity. Qed.
Lemma ensured_console abs w : console (ensured abs w) = console w.
Proof. unfold ensured. case_bool_decide; reflexivity. Qed.
Lemma ensured_store abs w : store (ensured abs w) = store w.
Proof. unfold ensured. case_bool_decide; reflexivity. Qed.
Lemma ensured_open abs w : open (ensured abs w) = open w.
Proof. unfold ensured. case_bool_decide; reflexivity. Qed.
Lemma ensured_detected abs w : detected (ensured abs w) = detected w.
Proof. unfold ensured. case_bool_decide; reflexivity. Qed.

Ltac ensured_simpl :=
  rewrite ?ensured_fs, ?ensured_toasts, ?ensured_console, ?ensured_store,
    ?ensured_open, ?ensured_detected.

(** ** Staging without a source *)

(** C8. With no detected source, a submitted form (valid metadata, a file
    source type) ends in the notice "No files detected." and nothing else:
    the run returns before its first I/O operation, so no directory and no
    file is created, nothing is registered and the dialog stays as it is. *)
Theorem finalize_no_source plat values category sourceType meta w :
  validateAndGet plat values = Some meta ->
  sourceType <> st_url ->
  detected w = None ->
  finalize plat values category sourceType w
    = Resolved tt (add_toast (toast_error "No files detected.") w)
  /\ forall w', finalize plat values category sourceType w = Resolved tt w' ->
       dirs w' = dirs w /\ fs w' = fs w /\ store w' = store w
       /\ clock w' = clock w /\ open w' = open w.
Proof.
  intros Hmeta Hst Hdet.
  assert (Hrun : finalize plat values category sourceType w
                 = Resolved tt (add_toast (toast_error "No files detected.") w)).
  { unfold finalize. rewrite Hmeta.
    destruct sourceType; try congruence; rewrite Hdet; reflexivity. }
  split; [exact Hrun|].
  intros w' H. rewrite Hrun in H. injection H as <-. repeat split.
Qed.

Lemma finalize_no_source_witness :
  finalize (ex_platform never_fails not_a_zip) ex_form "Skins" st_vpk (ex_world None)
  = Resolved tt (add_toast (toast_error "No files detected.") (ex_world None)).
Proof.
  apply (proj1 (finalize_no_source (ex_platform never_fails not_a_zip)
                  ex_form "Skins" st_vpk ex_meta (ex_world None)
                  eq_refl ltac:(discriminate) eq_refl)).
Defined.

(** ** The metadata document *)

Lemma validateAndGet_Some plat values meta :
  validateAndGet plat values = Some meta ->
  Meta.name meta = Js.trim (Form.name values)
  /\ Js.or_else (Meta.author meta) "Unknown" = author_or_unknown (Form.author values)
  /\ jnullable (Meta.link meta) = nullable (Form.link values)
  /\ jnullable (Meta.description meta) = nullable (Form.description values)
  /\ Meta.imageFile meta = Form.imageFile values.
Proof.
  unfold validateAndGet. destruct (schema_valid plat values); [|discriminate].
  intros [= <-]. cbn [Meta.name Meta.author Meta.link Meta.description Meta.imageFile].
  unfold jnullable, nullable, author_or_unknown.
  repeat split.
  - destruct (Form.author values) as [a|]; simpl; [|reflexivity].
    destruct (Js.trim a); reflexivity.
  - destruct (Form.link values) as [a|]; simpl; [|reflexivity].
    destruct (Js.trim a); reflexivity.
  - destruct (Form.description values) as [a|]; simpl; [|reflexivity].
    destruct (Js.trim a); reflexivity.
Qed.

Lemma metadata_of_document plat values meta category :
  validateAndGet plat values = Some meta ->
  metadata_of plat (modId_of plat) meta category (preview_name (Meta.imageFile meta))
  = metadata_document plat values category.
Proof.
  intros H. destruct (validateAndGet_Some _ _ _ H) as (Hn & Ha & Hl & Hd & Hi).
  unfold metadata_of, metadata_document, modId_of.
  rewrite Hn, Ha, Hl, Hd, Hi. reflexivity.
Qed.

Lemma io_resolved_inv {A} plat op (run : World -> A * World) w a w1 :
  io plat op run w = Resolved a w1 -> run (tick w) = (a, w1).
Proof.
  unfold io. destruct (io_fault plat (clock w) op); [discriminate|].
  destruct (run (tick w)). intros [= -> ->]. reflexivity.
Qed.

Lemma writeFile_resolved_inv plat abs data w u w1 :
  writeFile plat abs data w = Resolved u w1 ->
  w1 = set_fs (insert abs data) (tick w).
Proof. intros H. apply io_resolved_inv in H. congruence. Qed.

Lemma write_preview_resolved_inv plat meta modDir w n w1 :
  write_preview plat meta modDir w = Resolved n w1 ->
  n = preview_name (Meta.imageFile meta).
Proof.
  unfold write_preview, preview_name.
  destruct (Meta.imageFile meta) as [img|]; intros H;
    apply bind_resolved_inv in H as (u & w2 & _ & H); injection H as <- _.
  - destruct (Js.regex_match re_image (name img)); reflexivity.
  - reflexivity.
Qed.

Lemma image_data_url_resolved_inv plat meta w url w1 :
  image_data_url plat meta w = Resolved url w1 -> w1 = w.
Proof.
  unfold image_data_url. destruct (Meta.imageFile meta) as [img|].
  - destruct (readAsDataURL plat img); [|discriminate]. intros [= _ <-]. reflexivity.
  - intros [= _ <-]. reflexivity.
Qed.

(** What a completed [stage] leaves: the document, written last, the
    three calls on the store and the closing notice. *)
Lemma stage_resolved_inv plat src meta category w w' :
  stage plat src meta category w = Resolved tt w' ->
  exists w7 url,
    fs w' = <[join (modDir_of plat) "metadata.json" :=
               TextEncoder_encode
                 (JSON_stringify
                    (metadata_of plat (modId_of plat) meta category
                       (preview_name (Meta.imageFile meta))))]> (fs w7)
    /\ store w' = store w7
         ++ [addMod (modDto_of plat (modId_of plat) meta category url)
               (modDir_of plat) DOWNLOADED;
             setModPath (modId_of plat) (modDir_of plat);
             setModStatus (modId_of plat) DOWNLOADED]
    /\ toasts w' = toasts w7 ++ [toast_success ("Added: " +:+ Meta.name meta)]
    /\ open w' = false.
Proof.
  unfold stage, register. intros H.
  apply bind_resolved_inv in H as (? & w1 & _ & H).
  apply bind_resolved_inv in H as (? & w2 & _ & H).
  apply bind_resolved_inv in H as (? & w3 & _ & H).
  apply bind_resolved_inv in H as (pn & w4 & Hpn & H).
  apply write_preview_resolved_inv in Hpn as ->.
  apply bind_resolved_inv in H as (? & w5 & _ & H).
  apply bind_resolved_inv in H as (? & w7 & _ & H).
  apply bind_resolved_inv in H as (? & w8 & Hw & H).
  apply writeFile_resolved_inv in Hw as ->.
  apply bind_resolved_inv in H as (url & w9 & Hu & H).
  apply image_data_url_resolved_inv in Hu as ->.
  injection H as <-. exists w7, url.
  cbn [fs store toasts open set_fs add_store add_toast set_open tick].
  rewrite <- !app_assoc. auto.
Qed.

(** C9. Whenever [finalize] completes and registers the mod, the file
    [metadata.json] in the mod directory is the JSON text of exactly the
    fields [id], [kind] = "local", [name], [author], [link],
    [description], [category], [createdAt], [preview] and [_schema] = 1:
    the name is the name of the form trimmed, the author is "Unknown" when
    none was supplied, link and description are [null] when not supplied,
    [createdAt] is the platform's ISO timestamp and [preview] the name of
    the preview file. *)
Theorem finalize_metadata_document plat values category sourceType w w' :
  finalize plat values category sourceType w = Resolved tt w' ->
  store w' <> store w ->
  fs w' !! join (modDir_of plat) "metadata.json"
  = Some (TextEncoder_encode
            (JSON_stringify (metadata_document plat values category))).
Proof.
  unfold finalize. intros H Hstore.
  destruct (validateAndGet plat values) as [meta|] eqn:Hmeta.
  2: { injection H as <-. congruence. }
  assert (Hrest : (fun w => match detected w with
                            | None => toast (toast_error "No files detected.") w
                            | Some src => stage plat src meta category w
                            end) w = Resolved tt w' ->
                  fs w' !! join (modDir_of plat) "metadata.json"
                  = Some (TextEncoder_encode
                            (JSON_stringify (metadata_document plat values category)))).
  { cbv beta. destruct (detected w) as [src|].
    - intros Hs. apply stage_resolved_inv in Hs as (w7 & url & Hfs & _).
      rewrite Hfs, lookup_insert_eq, (metadata_of_document _ _ _ _ Hmeta).
      reflexivity.
    - intros [= <-]. exfalso. apply Hstore. reflexivity. }
  destruct sourceType; try (apply Hrest; exact H).
  injection H as <-. exfalso. apply Hstore. reflexivity.
Qed.

Lemma finalize_metadata_document_witness :
  fs (world_of
        (finalize (ex_platform never_fails not_a_zip) ex_form "Skins" st_vpk
           (ex_world (Some (vpk ex_skin)))))
    !! join ex_modDir "metadata.json"
  = Some (TextEncoder_encode
            (JSON_stringify
               (metadata_document (ex_platform never_fails not_a_zip) ex_form "Skins"))).
Proof.
  apply (finalize_metadata_document (ex_platform never_fails not_a_zip)
           ex_form "Skins" st_vpk (ex_world (Some (vpk ex_skin)))).
  - vm_compute. reflexivity.
  - vm_compute. discriminate.
Defined.

(** Projections of an updated world, as rewriting rules. *)
Lemma fs_set_fs f w : fs (set_fs f w) = f (fs w).
Proof. reflexivity. Qed.
Lemma fs_add_toast t w : fs (add_toast t w) = fs w.
Proof. reflexivity. Qed.
Lemma fs_add_console e w : fs (add_console e w) = fs w.
Proof. reflexivity. Qed.
Lemma fs_set_detected d w : fs (set_detected d w) = fs w.
Proof. reflexivity. Qed.
Lemma fs_tick w : fs (tick w) = fs w.
Proof. reflexivity. Qed.
Lemma toasts_set_fs f w : toasts (set_fs f w) = toasts w.
Proof. reflexivity. Qed.
Lemma toasts_add_toast t w : toasts (add_toast t w) = toasts w ++ [t].
Proof. reflexivity. Qed.
Lemma toasts_add_console e w : toasts (add_console e w) = toasts w.
Proof. reflexivity. Qed.
Lemma toasts_set_detected d w : toasts (set_detected d w) = toasts w.
Proof. reflexivity. Qed.
Lemma toasts_tick w : toasts (tick w) = toasts w.
Proof. reflexivity. Qed.
Lemma console_set_fs f w : console (set_fs f w) = console w.
Proof. reflexivity. Qed.
Lemma console_add_toast t w : console (add_toast t w) = console w.
Proof. reflexivity. Qed.
Lemma console_add_console e w : console (add_console e w) = console w ++ [e].
Proof. reflexivity. Qed.
Lemma console_set_detected d w : console (set_detected d w) = console w.
Proof. reflexivity. Qed.
Lemma console_tick w : console (tick w) = console w.
Proof. reflexivity. Qed.
Lemma store_set_fs f w : store (set_fs f w) = store w.
Proof. reflexivity. Qed.
Lemma store_add_toast t w : store (add_toast t w) = store w.
Proof. reflexivity. Qed.
Lemma store_add_console e w : store (add_console e w) = store w.
Proof. reflexivity. Qed.
Lemma store_set_detected d w : store (set_detected d w) = store w.
Proof. reflexivity. Qed.
Lemma store_tick w : store (tick w) = store w.
Proof. reflexivity. Qed.

Ltac world_simpl :=
  repeat first
    [ rewrite fs_set_fs
    | rewrite fs_add_toast
    | rewrite fs_add_console
    | rewrite fs_set_detected
    | rewrite fs_tick
    | rewrite toasts_set_fs
    | rewrite toasts_add_toast
    | rewrite toasts_add_console
    | rewrite toasts_set_detected
    | rewrite toasts_tick
    | rewrite console_set_fs
    | rewrite console_add_toast
    | rewrite console_add_console
    | rewrite console_set_detected
    | rewrite console_tick
    | rewrite store_set_fs
    | rewrite store_add_toast
    | rewrite store_add_console
    | rewrite store_set_detected
    | rewrite store_tick ].

(** ** Running the phases of [stage] *)

Lemma bind_assoc {A B C} (m : Async A) (f : A -> Async B) (k : B -> Async C) w :
  bind (bind m f) k w = bind m (fun a => bind (f a) k) w.
Proof. unfold bind. destruct (m w); reflexivity. Qed.

Lemma child_of_iff d p n : child_of d p = Some n <-> p = join d n.
Proof.
  unfold join. revert p. induction d as [|x d IH]; intros p; simpl.
  - destruct p as [|y [|z p]]; split; intros H; try discriminate; congruence.
  - destruct p as [|y p]; [split; discriminate|].
    destruct (String.eqb_spec x y) as [->|Hne].
    + rewrite IH. split; congruence.
    + split; [discriminate | congruence].
Qed.

Lemma entries_of_iff d w n :
  In n (entries_of d w) <-> join d n ∈ dirs w ∪ dom (fs w).
Proof.
  unfold entries_of. rewrite <- list_elem_of_In, list_elem_of_omap. split.
  - intros (p & Hp & Hc). apply child_of_iff in Hc as ->.
    apply elem_of_elements in Hp. exact Hp.
  - intros H. exists (join d n). split; [apply elem_of_elements, H|].
    apply child_of_iff. reflexivity.
Qed.

Lemma join_join_ne d n1 n2 n3 : join d n1 <> join (join d n2) n3.
Proof.
  unfold join. rewrite <- app_assoc. intros H. apply app_inv_head in H.
  discriminate.
Qed.

Section Phases.

Variable plat : Platform.

Lemma run_write_preview {B} meta modDir (k : string -> Async B) w :
  io_fault plat (clock w)
    (op_writeFile (join modDir (preview_name (Meta.imageFile meta)))) = None ->
  bind (write_preview plat meta modDir) k w
  = k (preview_name (Meta.imageFile meta))
      (set_fs (insert (join modDir (preview_name (Meta.imageFile meta)))
                 (preview_data (Meta.imageFile meta))) (tick w)).
Proof.
  unfold write_preview, preview_name, preview_data, writeBytes, writeText.
  destruct (Meta.imageFile meta) as [img|]; intros H; rewrite bind_assoc.
  - destruct (Js.regex_match re_image (name img));
      rewrite run_writeFile by exact H; reflexivity.
  - rewrite run_writeFile by exact H. reflexivity.
Qed.

Lemma fail_write_preview {B} meta modDir (k : string -> Async B) w cause :
  io_fault plat (clock w)
    (op_writeFile (join modDir (preview_name (Meta.imageFile meta)))) = Some cause ->
  bind (write_preview plat meta modDir) k w
  = Rejected (IoError (op_writeFile (join modDir (preview_name (Meta.imageFile meta))))
                cause) (tick w).
Proof.
  unfold write_preview, preview_name, preview_data, writeBytes, writeText, writeFile.
  destruct (Meta.imageFile meta) as [img|]; intros H; rewrite bind_assoc.
  - destruct (Js.regex_match re_image (name img));
      rewrite (run_io_fault _ _ _ _ _ _ H); reflexivity.
  - rewrite (run_io_fault _ _ _ _ _ _ H). reflexivity.
Qed.

Lemma run_register meta category previewName w :
  io_fault plat (clock w) (op_writeFile (join (modDir_of plat) "metadata.json")) = None ->
  readable plat (Meta.imageFile meta) ->
  exists w',
    register plat meta category previewName w = Resolved tt w'
    /\ fs w' = <[join (modDir_of plat) "metadata.json" :=
                  TextEncoder_encode
                    (JSON_stringify
                       (metadata_of plat (modId_of plat) meta category previewName))]>
                 (fs w)
    /\ toasts w' = toasts w ++ [toast_success ("Added: " +:+ Meta.name meta)]
    /\ console w' = console w
    /\ registered plat meta category w w'.
Proof.
  intros Hw Hr. unfold register, writeText.
  rewrite run_writeFile by exact Hw.
  unfold image_data_url, readable, registered in *.
  destruct (Meta.imageFile meta) as [img|].
  - destruct Hr as [url ->]. eexists. split; [reflexivity|].
    cbn [fs store toasts console open set_fs add_store add_toast set_open tick].
    split_and!; try reflexivity. exists url. rewrite <- !app_assoc. auto.
  - eexists. split; [reflexivity|].
    cbn [fs store toasts console open set_fs add_store add_toast set_open tick].
    split_and!; try reflexivity. eexists. rewrite <- !app_assoc. auto.
Qed.

Hypothesis Hsound : sound_outside_files plat.

Lemma sound_exists n abs : io_fault plat n (op_exists abs) = None.
Proof. apply Hsound. discriminate. Qed.

Lemma sound_mkdir n abs : io_fault plat n (op_mkdir abs) = None.
Proof. apply Hsound. discriminate. Qed.

Lemma sound_readDir n abs : io_fault plat n (op_readDir abs) = None.
Proof. apply Hsound. discriminate. Qed.

Lemma sound_modDir n nm : io_fault plat n (op_writeFile (join (modDir_of plat) nm)) = None.
Proof.
  apply Hsound. intros nm' H.
  assert (Hp : join (modDir_of plat) nm = join (filesDir_of plat) nm')
    by congruence.
  exact (join_join_ne _ _ _ _ Hp).
Qed.

Lemma run_keep_archive src w :
  exists w',
    keep_archive plat src (modDir_of plat) (filesDir_of plat) w = Resolved tt w'
    /\ toasts w' = toasts w /\ console w' = console w /\ store w' = store w
    /\ fs w' = kept_fs plat src w.
Proof.
  unfold keep_archive, kept_fs, writeBytes.
  rewrite run_readDir by apply sound_readDir.
  change (entries_of (filesDir_of plat) (tick w))
    with (entries_of (filesDir_of plat) w).
  destruct src as [file|file|files folderName]; cbn [is_archive_source].
  - destruct (existsb (Js.regex_test re_vpk) (entries_of (filesDir_of plat) w));
      cbn [negb andb].
    + eexists. split; [reflexivity|]. split_and!; reflexivity.
    + eexists. split.
      * unfold writeFile, io. rewrite sound_modDir. reflexivity.
      * split_and!; reflexivity.
  - rewrite andb_false_r. eexists. split; [reflexivity|]. split_and!; reflexivity.
  - rewrite andb_false_r. eexists. split; [reflexivity|]. split_and!; reflexivity.
Qed.

(** A run of [stage] whose payload phase completes, possibly through its
    [catch] block, completes. *)
Lemma stage_run src meta category w w5 :
  readable plat (Meta.imageFile meta) ->
  try_catch (stage_payload plat src (modDir_of plat) (filesDir_of plat))
    (stage_failed plat src (modDir_of plat)) (prepared plat meta w) = Resolved tt w5 ->
  exists w',
    stage plat src meta category w = Resolved tt w'
    /\ fs w' = <[join (modDir_of plat) "metadata.json" :=
                  TextEncoder_encode
                    (JSON_stringify
                       (metadata_of plat (modId_of plat) meta category
                          (preview_name (Meta.imageFile meta))))]>
                 (kept_fs plat src w5)
    /\ toasts w' = toasts w5 ++ [toast_success ("Added: " +:+ Meta.name meta)]
    /\ console w' = console w5
    /\ registered plat meta category w5 w'.
Proof.
  intros Hr Hp. unfold stage.
  rewrite !run_ensureDir by (intros; first [apply sound_exists | apply sound_mkdir]).
  rewrite run_write_preview by apply sound_modDir.
  fold (prepared plat meta w).
  rewrite (bind_resolved _ _ _ _ _ Hp).
  destruct (run_keep_archive src w5) as (w6 & Hk & Ht & Hc & Hs & Hf).
  rewrite (bind_resolved _ _ _ _ _ Hk).
  destruct (run_register meta category (preview_name (Meta.imageFile meta)) w6
              (sound_modDir _ _) Hr)
    as (w' & Hreg & Hfs & Hto & Hco & url & Hst & Hop).
  exists w'. split; [exact Hreg|].
  rewrite Hfs, Hto, Hco, Hf, Ht, Hc. split_and!; try reflexivity.
  exists url. rewrite Hst, Hs. auto.
Qed.

Lemma prepared_fs meta w :
  fs (prepared plat meta w)
  = <[join (modDir_of plat) (preview_name (Meta.imageFile meta)) :=
        preview_data (Meta.imageFile meta)]> (fs w).
Proof. unfold prepared. cbn [fs set_fs tick]. ensured_simpl. reflexivity. Qed.

Lemma prepared_toasts meta w : toasts (prepared plat meta w) = toasts w.
Proof. unfold prepared. cbn [toasts set_fs tick]. ensured_simpl. reflexivity. Qed.

Lemma prepared_console meta w : console (prepared plat meta w) = console w.
Proof. unfold prepared. cbn [console set_fs tick]. ensured_simpl. reflexivity. Qed.

Lemma prepared_store meta w : store (prepared plat meta w) = store w.
Proof. unfold prepared. cbn [store set_fs tick]. ensured_simpl. reflexivity. Qed.

End Phases.

(** ** Names again: [.zip] and the base name *)

Lemma downcase_upcase c : Js.downcase (Js.upcase c) = Js.downcase c.
Proof. destruct c as [[] [] [] [] [] [] [] []]; reflexivity. Qed.

Lemma toLowerCase_fold_case s : Js.toLowerCase (fold_case s) = Js.toLowerCase s.
Proof.
  induction s as [|c s IH]; simpl; [reflexivity|].
  rewrite downcase_upcase, IH. reflexivity.
Qed.

Lemma toLowerCase_app s t :
  Js.toLowerCase (s +:+ t) = Js.toLowerCase s +:+ Js.toLowerCase t.
Proof. induction s as [|c s IH]; simpl; [reflexivity|]. rewrite IH. reflexivity. Qed.

Lemma endsWith_app s suffix : Js.endsWith (s +:+ suffix) suffix = true.
Proof.
  induction s as [|c s IH].
  - change (EmptyString +:+ suffix) with suffix.
    destruct suffix; cbn [Js.endsWith]; rewrite String.eqb_refl; reflexivity.
  - change (String c s +:+ suffix) with (String c (s +:+ suffix)).
    cbn [Js.endsWith]. rewrite IH. apply orb_true_r.
Qed.

Lemma ends_in_zip_endsWith s :
  ends_in ".zip" s -> Js.endsWith (Js.toLowerCase s) ".zip" = true.
Proof.
  intros (stem & tail & -> & H).
  rewrite toLowerCase_app, <- (toLowerCase_fold_case tail), H.
  apply endsWith_app.
Qed.

Lemma match_here_vpk_no_slash s :
  Js.match_here ".vpk" s = true -> Js.split_slash s = [s].
Proof.
  destruct s as [|c1 [|c2 [|c3 [|c4 [|c5 s]]]]];
    cbn [Js.match_here]; rewrite ?andb_true_iff; intros H;
    try (exfalso; clear -H; intuition discriminate).
  destruct H as (H1 & H2 & H3 & H4 & _).
  assert (Hc : forall p c, Js.char_ci p c = true -> p <> "/"%char ->
               Js.upcase p = p -> Ascii.eqb c "/" = false).
  { intros p c Hpc Hp Hup. unfold Js.char_ci in Hpc.
    apply Ascii.eqb_eq in Hpc. apply Ascii.eqb_neq. intros ->.
    apply Hp. rewrite <- Hup, Hpc. reflexivity. }
  assert (E1 : Ascii.eqb c1 "/" = false)
    by (apply (Hc "."%char); [exact H1 | discriminate | reflexivity]).
  assert (Hv : forall p c, Js.char_ci p c = true ->
               Js.upcase p <> "/"%char -> Ascii.eqb c "/" = false).
  { intros p c Hpc Hp. unfold Js.char_ci in Hpc.
    apply Ascii.eqb_eq in Hpc. apply Ascii.eqb_neq. intros ->.
    apply Hp. rewrite Hpc. reflexivity. }
  assert (E2 : Ascii.eqb c2 "/" = false)
    by (apply (Hv "v"%char); [exact H2 | discriminate]).
  assert (E3 : Ascii.eqb c3 "/" = false)
    by (apply (Hv "p"%char); [exact H3 | discriminate]).
  assert (E4 : Ascii.eqb c4 "/" = false)
    by (apply (Hv "k"%char); [exact H4 | discriminate]).
  cbn [Js.split_slash]. rewrite E1, E2, E3, E4. reflexivity.
Qed.

Lemma string_app_assoc (s t u : string) : (s +:+ t) +:+ u = s +:+ t +:+ u.
Proof.
  induction s as [|c s IH]; [reflexivity|].
  change (String c ((s +:+ t) +:+ u) = String c (s +:+ t +:+ u)).
  rewrite IH. reflexivity.
Qed.

Lemma split_slash_nonempty s : Js.split_slash s <> [].
Proof.
  destruct s as [|c s]; simpl; [discriminate|].
  destruct (Ascii.eqb c "/"); [discriminate|].
  destruct (Js.split_slash s); discriminate.
Qed.

(** Whether a name is a packed asset's is decided by its last segment. *)
Lemma regex_test_vpk_last s :
  Js.regex_test re_vpk (List.last (Js.split_slash s) EmptyString)
  = Js.regex_test re_vpk s.
Proof.
  unfold Js.regex_test.
  induction s as [|c s IH]; [reflexivity|].
  cbn [Js.split_slash].
  destruct (Ascii.eqb c "/") eqn:Ec.
  - apply Ascii.eqb_eq in Ec as ->.
    pose proof (split_slash_nonempty s) as Hne.
    destruct (Js.split_slash s) as [|seg rest] eqn:Es; [congruence|].
    change (List.last (EmptyString :: seg :: rest) EmptyString)
      with (List.last (seg :: rest) EmptyString).
    rewrite IH. reflexivity.
  - pose proof (split_slash_nonempty s) as Hne.
    destruct (Js.split_slash s) as [|seg rest] eqn:Es; [congruence|].
    cbn [Js.regex_match re_vpk existsb].
    destruct (Js.match_here ".vpk" (String c s)) eqn:Em.
    + pose proof (match_here_vpk_no_slash _ Em) as Hn.
      cbn [Js.split_slash] in Hn. rewrite Ec, Es in Hn.
      injection Hn as Hseg Hrest. subst rest.
      cbn [List.last]. rewrite Hseg.
      cbn [Js.regex_match re_vpk existsb]. rewrite Em. reflexivity.
    + cbn [orb]. destruct rest as [|seg' rest].
      * assert (Hs : seg = s).
        { clear -Es. revert seg Es. induction s as [|d s IHs]; intros seg Es.
          - injection Es as <-. reflexivity.
          - cbn [Js.split_slash] in Es.
            pose proof (split_slash_nonempty s) as Hne.
            destruct (Ascii.eqb d "/"); [congruence|].
            destruct (Js.split_slash s) as [|seg0 rest0]; [congruence|].
            injection Es as <- ->. f_equal. apply IHs. reflexivity. }
        subst seg. cbn [List.last]. cbn [Js.regex_match re_vpk existsb].
        rewrite Em. reflexivity.
      * change (List.last (String c seg :: seg' :: rest) EmptyString)
          with (List.last (seg :: seg' :: rest) EmptyString).
        exact IH.
Qed.

Lemma split_slash_app p t :
  Js.split_slash (p +:+ "/" +:+ t) = Js.split_slash p ++ Js.split_slash t.
Proof.
  induction p as [|c p IH].
  - reflexivity.
  - change (String c p +:+ "/" +:+ t) with (String c (p +:+ "/" +:+ t)).
    cbn [Js.split_slash]. rewrite IH.
    destruct (Ascii.eqb c "/"); [reflexivity|].
    pose proof (split_slash_nonempty p) as Hne.
    destruct (Js.split_slash p); [congruence | reflexivity].
Qed.

Lemma split_slash_no_slash s : no_slash s -> Js.split_slash s = [s].
Proof.
  unfold no_slash. induction s as [|c s IH]; intros H; [reflexivity|].
  cbn [Js.split_slash]. simpl in H.
  destruct (Ascii.eqb_spec c "/") as [->|Hc]; [tauto|].
  rewrite IH by tauto. reflexivity.
Qed.

(** The base name: what follows the last slash. *)
Lemma last_segment prefix base :
  no_slash base ->
  prefix = EmptyString \/ (exists p, prefix = p +:+ "/") ->
  List.last (Js.split_slash (prefix +:+ base)) EmptyString = base.
Proof.
  intros Hb [->|[p ->]].
  - change (EmptyString +:+ base) with base.
    rewrite split_slash_no_slash by exact Hb. reflexivity.
  - replace ((p +:+ "/") +:+ base) with (p +:+ "/" +:+ base).
    + rewrite split_slash_app, (split_slash_no_slash base Hb).
      apply last_last.
    + symmetry. apply string_app_assoc.
Qed.

(** ** Archives *)

Lemma reliable_sound plat : reliable plat -> sound_outside_files plat.
Proof. intros H n op _. apply H. Qed.

Lemma regex_test_vpk_iff s : Js.regex_test re_vpk s = true <-> ends_in ".vpk" s.
Proof.
  rewrite regex_test_iff. split.
  - intros (lit & [<-|[]] & H). exact H.
  - intros H. exists ".vpk". split; [left; reflexivity | exact H].
Qed.

Lemma zip_payload_iff e :
  zip_payload e = true <-> Zip.dir e = false /\ ends_in ".vpk" (Zip.name e).
Proof.
  unfold zip_payload. rewrite andb_true_iff, negb_true_iff, regex_test_vpk_iff.
  reflexivity.
Qed.

Lemma find_none_of {A} (p : A -> bool) l :
  (forall x, In x l -> p x = false) -> List.find p l = None.
Proof.
  induction l as [|x l IH]; intros H; [reflexivity|]. simpl.
  rewrite (H x (or_introl eq_refl)). apply IH. intros y Hy. apply H. right. exact Hy.
Qed.

Lemma find_first {A} (p : A -> bool) before x after :
  (forall y, In y before -> p y = false) -> p x = true ->
  List.find p (before ++ x :: after) = Some x.
Proof.
  intros Hb Hx. induction before as [|y before IH]; simpl.
  - rewrite Hx. reflexivity.
  - rewrite (Hb y (or_introl eq_refl)). apply IH. intros z Hz. apply Hb. right. exact Hz.
Qed.

Lemma matching_subset_one {A} (P : A -> Prop) l x :
  matching_subset P l [x] ->
  exists before after,
    l = before ++ x :: after /\ P x /\ (forall y, In y before -> ~ P y).
Proof.
  intros H. remember [x] as sub eqn:Esub.
  induction H as [|y l sub Hy H IH|y l sub Hy H IH].
  - discriminate.
  - injection Esub as -> ->. exists [], l. repeat split; [exact Hy|]. intros z [].
  - destruct (IH Esub) as (before & after & -> & Hx & Hb).
    exists (y :: before), after. repeat split; [exact Hx|].
    intros z [<-|Hz]; [exact Hy | apply Hb, Hz].
Qed.

Lemma lookup_files_frame (m : gmap (list string) (list Byte.byte)) modDir a b c x y z nm :
  (<[join modDir a := x]> (<[join modDir b := y]> (<[join modDir c := z]> m)))
    !! join (join modDir "files") nm
  = m !! join (join modDir "files") nm.
Proof.
  rewrite !lookup_insert_ne by apply join_join_ne. reflexivity.
Qed.

Section Archives.

Variable plat : Platform.
Hypothesis Hreliable : reliable plat.

Variables (values : Form.t) (category : string) (sourceType : SourceType).
Variables (meta : Meta.t) (file : File) (w : World).
Hypothesis Hmeta : validateAndGet plat values = Some meta.
Hypothesis Hreadable : readable plat (Meta.imageFile meta).
Hypothesis HsourceType : sourceType <> st_url.
Hypothesis Hdetected : detected w = Some (archive file).

Lemma finalize_stage_archive :
  finalize plat values category sourceType w
  = stage plat (archive file) meta category w.
Proof.
  unfold finalize. rewrite Hmeta.
  destruct sourceType; try congruence; rewrite Hdetected; reflexivity.
Qed.

Variable zip_files : list Zip.entry.
Hypothesis Hzip : ends_in ".zip" (name file).
Hypothesis Hload : loadAsync plat (bytes file) = inr zip_files.

(** A ZIP without a payload: the archive is stored in the mod directory
    and the notice is shown. *)
Lemma stage_zip_without_payload :
  List.find zip_payload zip_files = None ->
  exists w',
    finalize plat values category sourceType w = Resolved tt w'
    /\ fs w' = <[join (modDir_of plat) "metadata.json" :=
                  TextEncoder_encode
                    (JSON_stringify (metadata_document plat values category))]>
                (<[join (modDir_of plat) (name file) := bytes file]>
                   (<[join (modDir_of plat) (preview_name (Form.imageFile values)) :=
                        preview_data (Form.imageFile values)]> (fs w)))
    /\ toasts w' = toasts w
         ++ [toast_error "No .vpk found inside .zip – stored archive for installer";
             toast_success ("Added: " +:+ Js.trim (Form.name values))]
    /\ console w' = console w
    /\ registered plat meta category w w'.
Proof.
  intros Hfind. rewrite finalize_stage_archive.
  pose proof (reliable_sound plat Hreliable) as Hsound.
  destruct (validateAndGet_Some _ _ _ Hmeta) as (Hn & _ & _ & _ & Hi).
  edestruct (stage_run plat Hsound (archive file) meta category w) as
    (w' & Hrun & Hfs & Hto & Hco & url & Hst & Hop).
  { exact Hreadable. }
  { unfold try_catch, stage_payload, writeBytes, toast.
    rewrite (ends_in_zip_endsWith _ Hzip), Hload, Hfind.
    rewrite run_writeFile by apply Hreliable. reflexivity. }
  exists w'. split; [exact Hrun|].
  unfold registered. rewrite Hfs, Hto, Hco, Hst.
  unfold kept_fs. world_simpl.
  rewrite prepared_fs, prepared_toasts, prepared_console, prepared_store.
  rewrite (metadata_of_document _ _ _ _ Hmeta), Hn, Hi.
  split_and!.
  - destruct (existsb _ _); [reflexivity|]. rewrite insert_insert_eq. reflexivity.
  - rewrite <- app_assoc. reflexivity.
  - reflexivity.
  - exists url. auto.
Qed.

(** A ZIP with a payload: the first file entry with a packed-asset name is
    extracted under its base name. *)
Lemma stage_zip_with_payload entry :
  List.find zip_payload zip_files = Some entry ->
  exists w',
    finalize plat values category sourceType w = Resolved tt w'
    /\ fs w' = <[join (modDir_of plat) "metadata.json" :=
                  TextEncoder_encode
                    (JSON_stringify (metadata_document plat values category))]>
                (<[join (filesDir_of plat)
                     (List.last (Js.split_slash (Zip.name entry)) EmptyString) :=
                     Zip.data entry]>
                   (<[join (modDir_of plat) (preview_name (Form.imageFile values)) :=
                        preview_data (Form.imageFile values)]> (fs w)))
    /\ toasts w' = toasts w ++ [toast_success ("Added: " +:+ Js.trim (Form.name values))]
    /\ console w' = console w
    /\ registered plat meta category w w'.
Proof.
  intros Hfind. rewrite finalize_stage_archive.
  pose proof (reliable_sound plat Hreliable) as Hsound.
  destruct (validateAndGet_Some _ _ _ Hmeta) as (Hn & _ & _ & _ & Hi).
  assert (Hvpk : Js.regex_test re_vpk
                   (List.last (Js.split_slash (Zip.name entry)) EmptyString) = true).
  { rewrite regex_test_vpk_last. apply find_some in Hfind as [_ Hp].
    unfold zip_payload in Hp. apply andb_true_iff in Hp. tauto. }
  assert (Hbase : Js.or_else
                    (Some (List.last (Js.split_slash (Zip.name entry)) EmptyString))
                    "mod.vpk"
                  = List.last (Js.split_slash (Zip.name entry)) EmptyString).
  { destruct (List.last (Js.split_slash (Zip.name entry)) EmptyString);
      [discriminate Hvpk | reflexivity]. }
  edestruct (stage_run plat Hsound (archive file) meta category w) as
    (w' & Hrun & Hfs & Hto & Hco & url & Hst & Hop).
  { exact Hreadable. }
  { unfold try_catch, stage_payload, writeBytes.
    rewrite (ends_in_zip_endsWith _ Hzip), Hload, Hfind, Hbase.
    rewrite writeFile_resolved by apply Hreliable. reflexivity. }
  exists w'. split; [exact Hrun|].
  unfold registered. rewrite Hfs, Hto, Hco, Hst.
  assert (Hhas : existsb (Js.regex_test re_vpk)
            (entries_of (filesDir_of plat)
               (set_fs (insert (join (filesDir_of plat)
                          (List.last (Js.split_slash (Zip.name entry)) EmptyString))
                          (Zip.data entry)) (tick (prepared plat meta w)))) = true).
  { apply existsb_exists. eexists. split; [|exact Hvpk].
    apply entries_of_iff.
    apply elem_of_union_r, elem_of_dom. rewrite fs_set_fs, lookup_insert_eq. eauto. }
  unfold kept_fs. rewrite Hhas. world_simpl.
  rewrite prepared_fs, prepared_toasts, prepared_console, prepared_store.
  rewrite (metadata_of_document _ _ _ _ Hmeta), Hn, Hi.
  split_and!; try reflexivity. exists url. auto.
Qed.

End Archives.

(** ** Archives: the claims *)

(** C5. A ZIP archive none of whose inner entries has a packed-asset name
    is stored whole and unmodified in the mod directory, not under
    [files/], where nothing is written; the run still completes and
    registers the mod, and the condition is observable as the notice "No
    .vpk found inside .zip" shown before the closing "Added" notice. *)
Theorem finalize_zip_no_payload plat values category sourceType meta file zip_files w :
  reliable plat ->
  validateAndGet plat values = Some meta ->
  readable plat (Meta.imageFile meta) ->
  sourceType <> st_url ->
  detected w = Some (archive file) ->
  ends_in ".zip" (name file) ->
  loadAsync plat (bytes file) = inr zip_files ->
  (forall e, In e zip_files -> ~ ends_in ".vpk" (Zip.name e)) ->
  exists w',
    finalize plat values category sourceType w = Resolved tt w'
    /\ fs w' = <[join (modDir_of plat) "metadata.json" :=
                  TextEncoder_encode
                    (JSON_stringify (metadata_document plat values category))]>
                (<[join (modDir_of plat) (name file) := bytes file]>
                   (<[join (modDir_of plat) (preview_name (Form.imageFile values)) :=
                        preview_data (Form.imageFile values)]> (fs w)))
    /\ (forall nm, fs w' !! join (filesDir_of plat) nm = fs w !! join (filesDir_of plat) nm)
    /\ toasts w' = toasts w
         ++ [toast_error "No .vpk found inside .zip – stored archive for installer";
             toast_success ("Added: " +:+ Js.trim (Form.name values))]
    /\ console w' = console w
    /\ registered plat meta category w w'.
Proof.
  intros Hrel Hmeta Hread Hst Hdet Hzip Hload Hnone.
  destruct (stage_zip_without_payload plat Hrel values category sourceType meta
              file w Hmeta Hread Hst Hdet zip_files Hzip Hload)
    as (w' & Hrun & Hfs & Hrest).
  { apply find_none_of. intros e He.
    destruct (zip_payload e) eqn:E; [|reflexivity].
    apply zip_payload_iff in E as [_ E]. destruct (Hnone e He E). }
  exists w'. split; [exact Hrun|]. split; [exact Hfs|]. split; [|exact Hrest].
  intros nm. rewrite Hfs. apply lookup_files_frame.
Qed.

Lemma finalize_zip_no_payload_witness :
  exists w',
    finalize (ex_platform never_fails (fun _ => inr [ex_inner_readme]))
      ex_form "Skins" st_archive (ex_world (Some (archive ex_bundle)))
    = Resolved tt w'
    /\ fs w' !! join ex_modDir "bundle.ZIP" = Some [Byte.x50; Byte.x4b]
    /\ toasts w'
       = [toast_error "No .vpk found inside .zip – stored archive for installer";
          toast_success "Added: Red Armor"].
Proof.
  destruct (finalize_zip_no_payload
              (ex_platform never_fails (fun _ => inr [ex_inner_readme]))
              ex_form "Skins" st_archive ex_meta ex_bundle [ex_inner_readme]
              (ex_world (Some (archive ex_bundle))))
    as (w' & Hrun & Hfs & _ & Hto & _).
  - intros n op. reflexivity.
  - reflexivity.
  - exact I.
  - discriminate.
  - reflexivity.
  - exists "bundle", ".ZIP". split; reflexivity.
  - reflexivity.
  - intros e [<-|[]] H. apply regex_test_vpk_iff in H. discriminate H.
  - exists w'. split; [exact Hrun|]. split.
    + rewrite Hfs. rewrite lookup_insert_ne by (intros [=]).
      apply lookup_insert_eq.
    + exact Hto.
Defined.

(** C4. A ZIP archive with exactly one inner entry whose name ends in the
    packed-asset extension, in any case: the decompressed bytes of that
    entry are written, unchanged, to [files/<base>], where [base] is what
    follows the last slash of the entry's name. *)
Theorem finalize_zip_single_payload plat values category sourceType meta file
    zip_files entry prefix base w :
  reliable plat ->
  validateAndGet plat values = Some meta ->
  readable plat (Meta.imageFile meta) ->
  sourceType <> st_url ->
  detected w = Some (archive file) ->
  ends_in ".zip" (name file) ->
  loadAsync plat (bytes file) = inr zip_files ->
  matching_subset (fun e => ends_in ".vpk" (Zip.name e)) zip_files [entry] ->
  Zip.dir entry = false ->
  Zip.name entry = prefix +:+ base ->
  no_slash base ->
  prefix = EmptyString \/ (exists p, prefix = p +:+ "/") ->
  exists w',
    finalize plat values category sourceType w = Resolved tt w'
    /\ fs w' = <[join (modDir_of plat) "metadata.json" :=
                  TextEncoder_encode
                    (JSON_stringify (metadata_document plat values category))]>
                (<[join (filesDir_of plat) base := Zip.data entry]>
                   (<[join (modDir_of plat) (preview_name (Form.imageFile values)) :=
                        preview_data (Form.imageFile values)]> (fs w)))
    /\ toasts w' = toasts w ++ [toast_success ("Added: " +:+ Js.trim (Form.name values))]
    /\ console w' = console w
    /\ registered plat meta category w w'.
Proof.
  intros Hrel Hmeta Hread Hst Hdet Hzip Hload Hone Hdir Hname Hbase Hprefix.
  destruct (matching_subset_one _ _ _ Hone) as (before & after & -> & He & Hb).
  destruct (stage_zip_with_payload plat Hrel values category sourceType meta
              file w Hmeta Hread Hst Hdet (before ++ entry :: after) Hzip Hload entry)
    as (w' & Hrun & Hfs & Hrest).
  { apply find_first.
    - intros y Hy. destruct (zip_payload y) eqn:E; [|reflexivity].
      apply zip_payload_iff in E as [_ E]. destruct (Hb y Hy E).
    - apply zip_payload_iff. auto. }
  exists w'. split; [exact Hrun|]. split; [|exact Hrest].
  rewrite Hfs, Hname, (last_segment prefix base Hbase Hprefix). reflexivity.
Qed.

Lemma finalize_zip_single_payload_witness :
  exists w',
    finalize (ex_platform never_fails (fun _ => inr [ex_inner_readme; ex_inner_skin]))
      ex_form "Skins" st_archive (ex_world (Some (archive ex_bundle)))
    = Resolved tt w'
    /\ fs w' !! join (join ex_modDir "files") "skin.vpk" = Some [Byte.x0a; Byte.x0b].
Proof.
  destruct (finalize_zip_single_payload
              (ex_platform never_fails (fun _ => inr [ex_inner_readme; ex_inner_skin]))
              ex_form "Skins" st_archive ex_meta ex_bundle
              [ex_inner_readme; ex_inner_skin] ex_inner_skin "inner/" "skin.vpk"
              (ex_world (Some (archive ex_bundle))))
    as (w' & Hrun & Hfs & _).
  - intros n op. reflexivity.
  - reflexivity.
  - exact I.
  - discriminate.
  - reflexivity.
  - exists "bundle", ".ZIP". split; reflexivity.
  - reflexivity.
  - apply ms_drop.
    + intros H. apply regex_test_vpk_iff in H. discriminate H.
    + apply ms_keep; [|apply ms_nil].
      exists "inner/skin", ".vpk". split; reflexivity.
  - reflexivity.
  - reflexivity.
  - unfold no_slash. simpl. intros H.
    repeat (destruct H as [H|H]; [discriminate H|]). exact H.
  - right. exists "inner". reflexivity.
  - exists w'. split; [exact Hrun|].
    rewrite Hfs. rewrite lookup_insert_ne by (intros [=]).
    apply lookup_insert_eq.
Defined.

(** C10. Among the inner entries of a ZIP archive, the first one in the
    archive's order that is a file with a packed-asset name is the one
    extracted, under its base name; whatever follows it, matching or not,
    is dropped without a notice.  A directory entry is passed over even
    when its name ends in the extension: when no file entry has a
    packed-asset name the archive counts as having no payload and is
    stored whole. *)
Theorem finalize_zip_first_payload plat values category sourceType meta file
    zip_files w :
  reliable plat ->
  validateAndGet plat values = Some meta ->
  readable plat (Meta.imageFile meta) ->
  sourceType <> st_url ->
  detected w = Some (archive file) ->
  ends_in ".zip" (name file) ->
  loadAsync plat (bytes file) = inr zip_files ->
  (forall before entry after prefix base,
     zip_files = before ++ entry :: after ->
     (forall e, In e before -> Zip.dir e = true \/ ~ ends_in ".vpk" (Zip.name e)) ->
     Zip.dir entry = false ->
     ends_in ".vpk" (Zip.name entry) ->
     Zip.name entry = prefix +:+ base ->
     no_slash base ->
     prefix = EmptyString \/ (exists p, prefix = p +:+ "/") ->
     exists w',
       finalize plat values category sourceType w = Resolved tt w'
       /\ fs w' = <[join (modDir_of plat) "metadata.json" :=
                     TextEncoder_encode
                       (JSON_stringify (metadata_document plat values category))]>
                   (<[join (filesDir_of plat) base := Zip.data entry]>
                      (<[join (modDir_of plat) (preview_name (Form.imageFile values)) :=
                           preview_data (Form.imageFile values)]> (fs w)))
       /\ toasts w' = toasts w
            ++ [toast_success ("Added: " +:+ Js.trim (Form.name values))])
  /\ ((forall e, In e zip_files -> Zip.dir e = true \/ ~ ends_in ".vpk" (Zip.name e)) ->
      exists w',
        finalize plat values category sourceType w = Resolved tt w'
        /\ fs w' = <[join (modDir_of plat) "metadata.json" :=
                      TextEncoder_encode
                        (JSON_stringify (metadata_document plat values category))]>
                    (<[join (modDir_of plat) (name file) := bytes file]>
                       (<[join (modDir_of plat) (preview_name (Form.imageFile values)) :=
                            preview_data (Form.imageFile values)]> (fs w)))).
Proof.
  intros Hrel Hmeta Hread Hst Hdet Hzip Hload.
  assert (Hskip : forall l, (forall e, In e l ->
                      Zip.dir e = true \/ ~ ends_in ".vpk" (Zip.name e)) ->
                    forall e, In e l -> zip_payload e = false).
  { intros l Hl e He. destruct (zip_payload e) eqn:E; [|reflexivity].
    apply zip_payload_iff in E as [Ed Ev].
    destruct (Hl e He) as [H|H]; [congruence | destruct (H Ev)]. }
  split.
  - intros before entry after prefix base Hsplit Hbefore Hdir Hvpk Hname Hbase Hprefix.
    destruct (stage_zip_with_payload plat Hrel values category sourceType meta
                file w Hmeta Hread Hst Hdet zip_files Hzip Hload entry)
      as (w' & Hrun & Hfs & Hto & _).
    { rewrite Hsplit. apply find_first.
      - apply Hskip, Hbefore.
      - apply zip_payload_iff. auto. }
    exists w'. split; [exact Hrun|]. split; [|exact Hto].
    rewrite Hfs, Hname, (last_segment prefix base Hbase Hprefix). reflexivity.
  - intros Hall.
    destruct (stage_zip_without_payload plat Hrel values category sourceType meta
                file w Hmeta Hread Hst Hdet zip_files Hzip Hload)
      as (w' & Hrun & Hfs & _).
    { apply find_none_of, Hskip, Hall. }
    exists w'. auto.
Qed.

Lemma finalize_zip_first_payload_witness :
  (exists w',
     finalize (ex_platform never_fails
                 (fun _ => inr [ex_inner_dir; ex_inner_skin; ex_inner_other]))
       ex_form "Skins" st_archive (ex_world (Some (archive ex_bundle)))
     = Resolved tt w'
     /\ fs w' !! join (join ex_modDir "files") "skin.vpk" = Some [Byte.x0a; Byte.x0b]
     /\ fs w' !! join (join ex_modDir "files") "other.VPK" = None
     /\ toasts w' = [toast_success "Added: Red Armor"])
  /\ (exists w',
        finalize (ex_platform never_fails (fun _ => inr [ex_inner_dir; ex_inner_readme]))
          ex_form "Skins" st_archive (ex_world (Some (archive ex_bundle)))
        = Resolved tt w'
        /\ fs w' !! join ex_modDir "bundle.ZIP" = Some [Byte.x50; Byte.x4b]).
Proof.
  split.
  - destruct (finalize_zip_first_payload
                (ex_platform never_fails
                   (fun _ => inr [ex_inner_dir; ex_inner_skin; ex_inner_other]))
                ex_form "Skins" st_archive ex_meta ex_bundle
                [ex_inner_dir; ex_inner_skin; ex_inner_other]
                (ex_world (Some (archive ex_bundle))))
      as [Hfirst _].
    + intros n op. reflexivity.
    + reflexivity.
    + exact I.
    + discriminate.
    + reflexivity.
    + exists "bundle", ".ZIP". split; reflexivity.
    + reflexivity.
    + destruct (Hfirst [ex_inner_dir] ex_inner_skin [ex_inner_other]
                  "inner/" "skin.vpk") as (w' & Hrun & Hfs & Hto).
      * reflexivity.
      * intros e [<-|[]]. left. reflexivity.
      * reflexivity.
      * exists "inner/skin", ".vpk". split; reflexivity.
      * reflexivity.
      * unfold no_slash. simpl. intros H.
        repeat (destruct H as [H|H]; [discriminate H|]). exact H.
      * right. exists "inner". reflexivity.
      * exists w'. split; [exact Hrun|]. rewrite Hfs. split_and!.
        -- rewrite lookup_insert_ne by (intros [=]). apply lookup_insert_eq.
        -- rewrite !lookup_insert_ne by (intros [=]). reflexivity.
        -- exact Hto.
  - destruct (finalize_zip_first_payload
                (ex_platform never_fails (fun _ => inr [ex_inner_dir; ex_inner_readme]))
                ex_form "Skins" st_archive ex_meta ex_bundle
                [ex_inner_dir; ex_inner_readme]
                (ex_world (Some (archive ex_bundle))))
      as [_ Hnone].
    + intros n op. reflexivity.
    + reflexivity.
    + exact I.
    + discriminate.
    + reflexivity.
    + exists "bundle", ".ZIP". split; reflexivity.
    + reflexivity.
    + destruct Hnone as (w' & Hrun & Hfs).
      * intros e [<-|[<-|[]]]; [left; reflexivity|right].
        intros H. apply regex_test_vpk_iff in H. discriminate H.
      * exists w'. split; [exact Hrun|]. rewrite Hfs.
        rewrite lookup_insert_ne by (intros [=]). apply lookup_insert_eq.
Defined.

(** ** Folders *)

Lemma Array_sort_first {A} (key : A -> string) cmp (l : list A) :
  consistent cmp -> l <> [] ->
  exists first rest,
    Array_sort (fun a b => cmp (key a) (key b)) l = first :: rest
    /\ In first l
    /\ forall x, In x l -> (cmp (key first) (key x) <= 0)%Z.
Proof.
  intros [Hanti Htrans] Hne.
  assert (Hrefl : forall a, (cmp a a <= 0)%Z).
  { intros a. destruct (Z.ltb_spec 0 (cmp a a)) as [H|H]; [|exact H].
    apply Hanti, H. }
  induction l as [|x l IH]; [congruence|]. clear Hne.
  destruct l as [|x' l'].
  - exists x, []. split; [reflexivity|]. split; [left; reflexivity|].
    intros y [<-|[]]. apply Hrefl.
  - destruct IH as (y & r & Hs & Hin & Hmin); [discriminate|].
    change (Array_sort (fun a b => cmp (key a) (key b)) (x :: x' :: l'))
      with (sort_insert (fun a b => cmp (key a) (key b)) x
              (Array_sort (fun a b => cmp (key a) (key b)) (x' :: l'))).
    rewrite Hs. cbn [sort_insert].
    destruct (Z.ltb_spec 0 (cmp (key x) (key y))) as [Hgt|Hle].
    + eexists y, _. split; [reflexivity|]. split; [right; exact Hin|].
      intros z [<-|Hz]; [apply Hanti, Hgt | apply Hmin, Hz].
    + exists x, (y :: r). split; [reflexivity|]. split; [left; reflexivity|].
      intros z [<-|Hz]; [apply Hrefl|].
      apply (Htrans _ (key y)); [exact Hle | apply Hmin, Hz].
Qed.

(** C2, as the code has it. Of a folder of packed assets the one staged is
    a first one in the order of [localeCompare] on [fileName], that is on
    the relative path of an entry that has one and on its name otherwise;
    the bytes of that entry alone are written to [files/<name>], under
    the entry's own name. *)
Theorem finalize_folder_first plat values category sourceType meta files folderName w :
  reliable plat ->
  consistent (localeCompare plat) ->
  validateAndGet plat values = Some meta ->
  readable plat (Meta.imageFile meta) ->
  sourceType <> st_url ->
  detected w = Some (folder_vpk files folderName) ->
  files <> [] ->
  (forall f, In f files -> ends_in ".vpk" (name f)) ->
  exists first w',
    In first files
    /\ (forall f, In f files ->
          (localeCompare plat (fileName first) (fileName f) <= 0)%Z)
    /\ finalize plat values category sourceType w = Resolved tt w'
    /\ fs w' = <[join (modDir_of plat) "metadata.json" :=
                  TextEncoder_encode
                    (JSON_stringify (metadata_document plat values category))]>
                (<[join (filesDir_of plat) (name first) := bytes first]>
                   (<[join (modDir_of plat) (preview_name (Form.imageFile values)) :=
                        preview_data (Form.imageFile values)]> (fs w)))
    /\ toasts w' = toasts w ++ [toast_success ("Added: " +:+ Js.trim (Form.name values))]
    /\ registered plat meta category w w'.
Proof.
  intros Hrel Hcmp Hmeta Hread Hst Hdet Hne Hall.
  destruct (Array_sort_first fileName (localeCompare plat) files Hcmp Hne)
    as (first & rest & Hsort & Hin & Hmin).
  exists first.
  assert (Hfin : finalize plat values category sourceType w
                 = stage plat (folder_vpk files folderName) meta category w).
  { unfold finalize. rewrite Hmeta.
    destruct sourceType; try congruence; rewrite Hdet; reflexivity. }
  destruct (validateAndGet_Some _ _ _ Hmeta) as (Hn & _ & _ & _ & Hi).
  edestruct (stage_run plat (reliable_sound plat Hrel)
               (folder_vpk files folderName) meta category w)
    as (w' & Hrun & Hfs & Hto & Hco & url & Hstore & Hop).
  { exact Hread. }
  { unfold try_catch, stage_payload, writeBytes.
    rewrite run_modify, Hsort. cbn [List.find].
    rewrite (proj2 (is_vpk_iff first) (Hall first Hin)).
    rewrite writeFile_resolved by apply Hrel. reflexivity. }
  exists w'. split; [exact Hin|]. split; [exact Hmin|].
  rewrite Hfin. split; [exact Hrun|].
  unfold registered. rewrite Hfs, Hto, Hstore. unfold kept_fs. world_simpl.
  rewrite prepared_fs, prepared_toasts, prepared_store.
  rewrite (metadata_of_document _ _ _ _ Hmeta), Hn, Hi.
  split_and!; try reflexivity. exists url. auto.
Qed.

Lemma compare_le_trans a b c :
  String.compare a b <> Gt -> String.compare b c <> Gt -> String.compare a c <> Gt.
Proof.
  intros Hab Hbc.
  destruct (String.compare a b) eqn:E1; [| |congruence];
    destruct (String.compare b c) eqn:E2; try congruence.
  - apply String.compare_eq_iff in E1. subst. rewrite E2. discriminate.
  - apply String.compare_eq_iff in E1. subst. rewrite E2. discriminate.
  - apply String.compare_eq_iff in E2. subst. rewrite E1. discriminate.
  - pose proof (@StrictOrder_Transitive _ _ String_as_OT.lt_strorder a b c E1 E2) as H.
    change (String.compare a c = Lt) in H. rewrite H. discriminate.
Qed.

Lemma codeUnitCompare_consistent : consistent codeUnitCompare.
Proof.
  unfold consistent, codeUnitCompare. split.
  - intros a b. rewrite (String.compare_antisym b a).
    destruct (String.compare a b); simpl; lia.
  - intros a b c Hab Hbc.
    pose proof (compare_le_trans a b c) as H.
    destruct (String.compare a b); try lia;
      destruct (String.compare b c); try lia;
      destruct (String.compare a c); try lia; exfalso; apply H; congruence.
Qed.

(** The folder drop of the specification, [readme.txt], [a/c.vpk] and
    [a/b.vpk], classified and then staged: only [b.vpk] is under [files/]. *)
Lemma finalize_folder_first_witness :
  exists w',
    finalize (ex_platform never_fails not_a_zip) ex_form "Skins" st_folder_vpk
      (ex_world (detectSource (Some <$> [ex_readme; ex_c_vpk; ex_b_vpk])))
    = Resolved tt w'
    /\ fs w' !! join (join ex_modDir "files") "b.vpk" = Some [Byte.x0b]
    /\ fs w' !! join (join ex_modDir "files") "c.vpk" = None
    /\ toasts w' = [toast_success "Added: Red Armor"].
Proof.
  destruct (finalize_folder_first (ex_platform never_fails not_a_zip)
              ex_form "Skins" st_folder_vpk ex_meta [ex_c_vpk; ex_b_vpk] (Some "a")
              (ex_world (detectSource (Some <$> [ex_readme; ex_c_vpk; ex_b_vpk]))))
    as (first & w' & Hin & Hmin & Hrun & Hfs & Hto & _).
  - intros n op. reflexivity.
  - exact codeUnitCompare_consistent.
  - reflexivity.
  - exact I.
  - discriminate.
  - reflexivity.
  - discriminate.
  - intros f [<-|[<-|[]]].
    + exists "c", ".vpk". split; reflexivity.
    + exists "b", ".vpk". split; reflexivity.
  - exists w'. split; [exact Hrun|].
    destruct Hin as [<-|[<-|[]]].
    + specialize (Hmin ex_b_vpk (or_intror (or_introl eq_refl))).
      vm_compute in Hmin. destruct (Hmin eq_refl).
    + rewrite Hfs. split_and!.
      * rewrite lookup_insert_ne by (intros [=]). apply lookup_insert_eq.
      * rewrite !lookup_insert_ne by (intros [=]). reflexivity.
      * exact Hto.
Defined.

(** C2 as stated fails: the entries are not sorted by name. In the folder
    [m] with [m/z/a.vpk] and [m/b.vpk], [a.vpk] is the first by name, in
    case-sensitive lexical order; the run stages [b.vpk], whose path comes
    first, and not [a.vpk]. *)
Lemma folder_sorted_by_name_counterexample :
  List.head (Array_sort (fun a b => codeUnitCompare (name a) (name b))
               [ex_nested_a; ex_top_b]) = Some ex_nested_a
  /\ is_resolved
       (finalize (ex_platform never_fails not_a_zip) ex_form "Skins" st_folder_vpk
          (ex_world (Some (folder_vpk [ex_nested_a; ex_top_b] (Some "m"))))) = true
  /\ fs (world_of
           (finalize (ex_platform never_fails not_a_zip) ex_form "Skins" st_folder_vpk
              (ex_world (Some (folder_vpk [ex_nested_a; ex_top_b] (Some "m"))))))
       !! join (join ex_modDir "files") "a.vpk" = None
  /\ fs (world_of
           (finalize (ex_platform never_fails not_a_zip) ex_form "Skins" st_folder_vpk
              (ex_world (Some (folder_vpk [ex_nested_a; ex_top_b] (Some "m"))))))
       !! join (join ex_modDir "files") "b.vpk" = Some [Byte.x0b].
Proof. split_and!; vm_compute; reflexivity. Qed.

(** ** Failures *)

Lemma prefixes_self (abs : path) : abs <> [] -> In abs (prefixes abs).
Proof.
  induction abs as [|seg rest IH]; [congruence|]. intros _. simpl.
  destruct rest as [|seg' rest']; [left; reflexivity|].
  right. apply in_map. apply IH. discriminate.
Qed.

Lemma ensured_exists abs w :
  abs <> [] -> abs ∈ dirs (ensured abs w) ∪ dom (fs (ensured abs w)).
Proof.
  intros Hne. unfold ensured. case_bool_decide as H.
  - exact H.
  - apply elem_of_union_l, elem_of_union_l, elem_of_list_to_set, list_elem_of_In.
    apply prefixes_self, Hne.
Qed.

Lemma ensured_keeps abs w x :
  x ∈ dirs w ∪ dom (fs w) -> x ∈ dirs (ensured abs w) ∪ dom (fs (ensured abs w)).
Proof.
  unfold ensured. case_bool_decide; [tauto|].
  cbn [dirs fs set_dirs tick]. intros Hx.
  apply elem_of_union in Hx as [Hx|Hx].
  - apply elem_of_union_l, elem_of_union_r, Hx.
  - apply elem_of_union_r, Hx.
Qed.

Lemma ensured_dirs abs w : dirs w ⊆ dirs (ensured abs w).
Proof.
  unfold ensured. case_bool_decide; [reflexivity|].
  cbn [dirs set_dirs tick]. set_solver.
Qed.









(** C3, as the code has it. A failure to write the preview image ends the
    run: [finalize] rejects with that error before the payload is staged,
    so nothing is written, nothing is registered and no notice is shown;
    the three directories created before it are left in place, beside
    every directory that was there. *)
Theorem finalize_preview_error plat values category sourceType meta src cause w :
  validateAndGet plat values = Some meta ->
  sourceType <> st_url ->
  detected w = Some src ->
  (forall n abs, io_fault plat n (op_exists abs) = None) ->
  (forall n abs, io_fault plat n (op_mkdir abs) = None) ->
  (forall n, io_fault plat n
     (op_writeFile (join (modDir_of plat) (preview_name (Form.imageFile values))))
     = Some cause) ->
  exists w',
    finalize plat values category sourceType w
    = Rejected
        (IoError
           (op_writeFile (join (modDir_of plat) (preview_name (Form.imageFile values))))
           cause) w'
    /\ fs w' = fs w /\ toasts w' = toasts w /\ console w' = console w
    /\ store w' = store w /\ open w' = open w
    /\ dirs w ⊆ dirs w'
    /\ modsRoot_of plat ∈ dirs w' ∪ dom (fs w')
    /\ modDir_of plat ∈ dirs w' ∪ dom (fs w')
    /\ filesDir_of plat ∈ dirs w' ∪ dom (fs w').
Proof.
  intros Hmeta Hst Hdet Hex Hmk Hfail.
  destruct (validateAndGet_Some _ _ _ Hmeta) as (_ & _ & _ & _ & Hi).
  assert (Hfin : finalize plat values category sourceType w
                 = stage plat src meta category w).
  { unfold finalize. rewrite Hmeta.
    destruct sourceType; try congruence; rewrite Hdet; reflexivity. }
  rewrite Hfin. unfold stage.
  rewrite !run_ensureDir by (intros; first [apply Hex | apply Hmk]).
  rewrite (fail_write_preview plat meta (modDir_of plat) _ _ cause)
    by (rewrite Hi; apply Hfail).
  rewrite Hi. eexists. split; [reflexivity|].
  change (dirs (tick ?x)) with (dirs x).
  split_and!.
  1-5: world_simpl; change (open (tick ?x)) with (open x); ensured_simpl; reflexivity.
  - etransitivity; [apply ensured_dirs|].
    etransitivity; [apply ensured_dirs | apply ensured_dirs].
  - change (fs (tick ?x)) with (fs x).
    apply ensured_keeps, ensured_keeps, ensured_exists. discriminate.
  - change (fs (tick ?x)) with (fs x).
    apply ensured_keeps, ensured_exists. discriminate.
  - change (fs (tick ?x)) with (fs x).
    apply ensured_exists. discriminate.
Qed.

Lemma finalize_preview_error_witness :
  exists w',
    finalize (ex_platform (fails_at (join ex_modDir "preview.svg")) not_a_zip)
      ex_form "Skins" st_vpk (ex_world (Some (vpk ex_skin)))
    = Rejected (IoError (op_writeFile (join ex_modDir "preview.svg")) "ENOSPC") w'
    /\ fs w' = ∅ /\ store w' = []
    /\ join ex_modDir "files" ∈ dirs w' ∪ dom (fs w').
Proof.
  destruct (finalize_preview_error
              (ex_platform (fails_at (join ex_modDir "preview.svg")) not_a_zip)
              ex_form "Skins" st_vpk ex_meta (vpk ex_skin) "ENOSPC"
              (ex_world (Some (vpk ex_skin))))
    as (w' & Hrun & Hfs & _ & _ & Hstore & _ & _ & _ & _ & Hfiles).
  - reflexivity.
  - discriminate.
  - reflexivity.
  - intros n abs. reflexivity.
  - intros n abs. reflexivity.
  - intros n. reflexivity.
  - exists w'. split; [exact Hrun|]. split; [exact Hfs|]. split; [exact Hstore|].
    exact Hfiles.
Defined.

(** C3 as stated fails: the write of the preview image fails, the run is
    rejected with that error and the payload is not staged. *)
Lemma preview_error_counterexample :
  finalize (ex_platform (fails_at (join ex_modDir "preview.svg")) not_a_zip)
    ex_form "Skins" st_vpk (ex_world (Some (vpk ex_skin)))
  = Rejected (IoError (op_writeFile (join ex_modDir "preview.svg")) "ENOSPC")
      (world_of
         (finalize (ex_platform (fails_at (join ex_modDir "preview.svg")) not_a_zip)
            ex_form "Skins" st_vpk (ex_world (Some (vpk ex_skin)))))
  /\ fs (world_of
           (finalize (ex_platform (fails_at (join ex_modDir "preview.svg")) not_a_zip)
              ex_form "Skins" st_vpk (ex_world (Some (vpk ex_skin)))))
       !! join (join ex_modDir "files") "SkinPack.vpk" = None
  /\ store (world_of
              (finalize (ex_platform (fails_at (join ex_modDir "preview.svg")) not_a_zip)
                 ex_form "Skins" st_vpk (ex_world (Some (vpk ex_skin))))) = [].
Proof. split_and!; vm_compute; reflexivity. Qed.


(** * Further properties *)

(** ** Classification, read backwards *)

Lemma detectSource_one f :
  detectSource [Some f]
  = if is_vpk f then Some (vpk f)
    else if is_archive f then Some (archive f) else None.
Proof.
  unfold detectSource. simpl.
  destruct (is_vpk f); [reflexivity|]. destruct (is_archive f); reflexivity.
Qed.

Lemma detectSource_several f1 f2 rest :
  detectSource (Some <$> f1 :: f2 :: rest)
  = match List.filter is_vpk (f1 :: f2 :: rest) with
    | first :: more => Some (folder_vpk (first :: more) (folder_of first))
    | [] => None
    end.
Proof.
  unfold detectSource.
  pose proof (filter_Boolean_Some (f1 :: f2 :: rest)) as Hflat.
  change (Some <$> f1 :: f2 :: rest)
    with (Some f1 :: (Some <$> f2 :: rest)) in *.
  cbv zeta iota beta. rewrite Hflat.
  change (length (f1 :: f2 :: rest) =? 1)%nat with false. cbv iota.
  destruct (List.filter is_vpk (f1 :: f2 :: rest)) as [|first more]; [reflexivity|].
  f_equal. f_equal. unfold folder_of.
  destruct (webkitRelativePath first) as [[|c rel]|]; try reflexivity.
  cbn [Js.truthy Js.or_else]. rewrite split_slash_head. reflexivity.
Qed.

(** An array classifies as the array of its files does. *)
Lemma detectSource_by_files (files : list (option File)) :
  detectSource files = detectSource (Some <$> filter_Boolean files).
Proof.
  destruct files as [|o files]; [reflexivity|].
  destruct (filter_Boolean (o :: files)) as [|f flat] eqn:E.
  - unfold detectSource. rewrite E. reflexivity.
  - pose proof (filter_Boolean_Some (f :: flat)) as Hflat.
    unfold detectSource.
    change (Some <$> f :: flat) with (Some f :: (Some <$> flat)) in *.
    cbv zeta iota beta. rewrite E, Hflat. reflexivity.
Qed.

Lemma detectSource_inversion (files : list (option File)) (src : DetectedSource) :
  detectSource files = Some src ->
  match src with
  | vpk f => filter_Boolean files = [f] /\ is_vpk f = true
  | archive f => filter_Boolean files = [f] /\ is_archive f = true /\ is_vpk f = false
  | folder_vpk fs folderName =>
      2 <= length (filter_Boolean files)
      /\ fs = List.filter is_vpk (filter_Boolean files)
      /\ exists first more, fs = first :: more /\ folderName = folder_of first
  end.
Proof.
  rewrite detectSource_by_files.
  destruct (filter_Boolean files) as [|f1 [|f2 rest]].
  - discriminate.
  - change (Some <$> [f1]) with [Some f1]. rewrite detectSource_one.
    destruct (is_vpk f1) eqn:Ev.
    + intros [= <-]. auto.
    + destruct (is_archive f1) eqn:Ea; [|discriminate].
      intros [= <-]. auto.
  - rewrite detectSource_several.
    destruct (List.filter is_vpk (f1 :: f2 :: rest)) as [|first more] eqn:E;
      [discriminate|].
    intros [= <-]. split; [simpl; lia|]. split; [reflexivity|]. eauto.
Qed.

Lemma detectSource_classified files src :
  detectSource files = Some src -> classified src.
Proof.
  intros H. apply detectSource_inversion in H.
  destruct src as [file|file|fs folderName]; cbn [classified].
  - tauto.
  - tauto.
  - destruct H as (_ & -> & first & more & E & _). split.
    + rewrite E. discriminate.
    + intros f Hf. apply filter_In in Hf. tauto.
Qed.

(** X3. Holes in the array of files play no part: two arrays that hold
    the same files in the same order, holes apart, classify alike. *)
Theorem detectSource_ignores_holes (files1 files2 : list (option File)) :
  filter_Boolean files1 = filter_Boolean files2 ->
  detectSource files1 = detectSource files2.
Proof.
  intros H. rewrite (detectSource_by_files files1), (detectSource_by_files files2), H.
  reflexivity.
Qed.

Lemma detectSource_ignores_holes_witness :
  detectSource [None; Some ex_b_vpk; None] = detectSource [Some ex_b_vpk].
Proof.
  apply (detectSource_ignores_holes [None; Some ex_b_vpk; None] [Some ex_b_vpk]).
  reflexivity.
Defined.

Lemma fold_case_app s t : fold_case (s +:+ t) = fold_case s +:+ fold_case t.
Proof. induction s as [|c s IH]; simpl; [reflexivity|]. rewrite IH. reflexivity. Qed.

Lemma list_ascii_app s t :
  list_ascii_of_string (s +:+ t) = list_ascii_of_string s ++ list_ascii_of_string t.
Proof. induction s as [|c s IH]; simpl; [reflexivity|]. rewrite IH. reflexivity. Qed.

(** The last letter of a name that ends in an extension is the last
    letter of the extension, up to case. *)
Lemma ends_in_last ext c s :
  ends_in (ext +:+ String c EmptyString) s ->
  exists front,
    list_ascii_of_string (fold_case s) = front ++ [Js.upcase c].
Proof.
  intros (stem & tail & -> & H).
  rewrite fold_case_app, H, fold_case_app, list_ascii_app, list_ascii_app.
  exists (list_ascii_of_string (fold_case stem)
          ++ list_ascii_of_string (fold_case ext)).
  rewrite <- app_assoc. reflexivity.
Qed.

(** X4. No name is both a packed asset's and an archive's: the rules of
    [detectSource] for a single file never compete. *)
Theorem vpk_archive_exclusive (s : string) :
  Js.regex_test re_vpk s = true -> Js.regex_test re_archive s = false.
Proof.
  intros Hv. destruct (Js.regex_test re_archive s) eqn:Ha; [|reflexivity].
  exfalso.
  apply regex_test_vpk_iff in Hv.
  apply (ends_in_last ".vp" "k") in Hv as [f1 H1].
  apply regex_test_iff in Ha as (lit & Hlit & Ha).
  destruct Hlit as [<-|[<-|[<-|[]]]].
  - apply (ends_in_last ".zi" "p") in Ha as [f2 H2].
    rewrite H1 in H2. apply app_inj_tail in H2 as [_ H2]. discriminate H2.
  - apply (ends_in_last ".ra" "r") in Ha as [f2 H2].
    rewrite H1 in H2. apply app_inj_tail in H2 as [_ H2]. discriminate H2.
  - apply (ends_in_last ".7" "z") in Ha as [f2 H2].
    rewrite H1 in H2. apply app_inj_tail in H2 as [_ H2]. discriminate H2.
Qed.

Lemma vpk_archive_exclusive_witness :
  Js.regex_test re_archive "Pack.Zip.VPK" = false.
Proof. apply vpk_archive_exclusive. reflexivity. Defined.

(** X1. What [detectSource] returns is made of the files it was given: a
    single packed asset or a single archive is the only file of the array
    and has the name of its kind; a folder holds the packed assets of an
    array of two files or more, all of them and in their order, under the
    folder name of the first. *)
Theorem detectSource_sound (files : list (option File)) (src : DetectedSource) :
  detectSource files = Some src ->
  match src with
  | vpk f => filter_Boolean files = [f] /\ ends_in ".vpk" (name f)
  | archive f =>
      filter_Boolean files = [f]
      /\ (ends_in ".zip" (name f) \/ ends_in ".rar" (name f) \/ ends_in ".7z" (name f))
      /\ ~ ends_in ".vpk" (name f)
  | folder_vpk fs folderName =>
      2 <= length (filter_Boolean files)
      /\ fs = List.filter is_vpk (filter_Boolean files)
      /\ exists first more, fs = first :: more /\ folderName = folder_of first
  end.
Proof.
  intros H. apply detectSource_inversion in H.
  destruct src as [file|file|fs folderName].
  - destruct H as (Hf & Ha & Hv). split; [exact Hf|]. split; [apply is_archive_iff, Ha|].
    intros H. apply is_vpk_iff in H. congruence.
  - destruct H as [Hf Hv]. split; [exact Hf | apply is_vpk_iff, Hv].
  - exact H.
Qed.

Lemma detectSource_sound_witness :
  2 <= length (filter_Boolean [Some ex_readme; None; Some ex_c_vpk; Some ex_b_vpk])
  /\ [ex_c_vpk; ex_b_vpk]
     = List.filter is_vpk (filter_Boolean [Some ex_readme; None; Some ex_c_vpk; Some ex_b_vpk])
  /\ exists first more,
       [ex_c_vpk; ex_b_vpk] = first :: more /\ Some "a" = folder_of first.
Proof.
  apply (detectSource_sound [Some ex_readme; None; Some ex_c_vpk; Some ex_b_vpk]
           (folder_vpk [ex_c_vpk; ex_b_vpk] (Some "a"))).
  reflexivity.
Defined.

(** X2. The files are refused exactly when none of them is a packed asset
    and they are not one single archive: two archives together are refused,
    an archive beside a packed asset is not. *)
Theorem detectSource_refuses (files : list (option File)) :
  detectSource files = None
  <-> (forall f, In f (filter_Boolean files) -> ~ ends_in ".vpk" (name f))
      /\ ~ (exists f, filter_Boolean files = [f]
                      /\ (ends_in ".zip" (name f) \/ ends_in ".rar" (name f)
                          \/ ends_in ".7z" (name f))).
Proof.
  rewrite detectSource_by_files.
  destruct (filter_Boolean files) as [|f1 [|f2 rest]].
  - split; [|reflexivity]. intros _. split.
    + intros f [].
    + intros (f & H & _). discriminate H.
  - change (Some <$> [f1]) with [Some f1]. rewrite detectSource_one. split.
    + destruct (is_vpk f1) eqn:Ev; [discriminate|].
      destruct (is_archive f1) eqn:Ea; [discriminate|]. intros _. split.
      * intros f [<-|[]] H. apply is_vpk_iff in H. congruence.
      * intros (f & [= <-] & H). apply is_archive_iff in H. congruence.
    + intros [Hv Ha].
      destruct (is_vpk f1) eqn:Ev.
      { destruct (Hv f1 (or_introl eq_refl)). apply is_vpk_iff, Ev. }
      destruct (is_archive f1) eqn:Ea; [|reflexivity].
      destruct Ha. exists f1. split; [reflexivity|]. apply is_archive_iff, Ea.
  - rewrite detectSource_several. split.
    + destruct (List.filter is_vpk (f1 :: f2 :: rest)) eqn:E; [|discriminate].
      intros _. split.
      * intros f Hf H. apply is_vpk_iff in H.
        rewrite (proj1 (filter_nil_iff _ _) E f Hf) in H. discriminate.
      * intros (f & H & _). discriminate H.
    + intros [Hv _].
      replace (List.filter is_vpk (f1 :: f2 :: rest)) with (@nil File); [reflexivity|].
      symmetry. apply filter_nil_iff. intros f Hf.
      destruct (is_vpk f) eqn:E; [|reflexivity].
      destruct (Hv f Hf). apply is_vpk_iff, E.
Qed.

Lemma first_segment_no_slash s : no_slash (first_segment s).
Proof.
  unfold no_slash. induction s as [|c s IH]; simpl; [tauto|].
  destruct (Ascii.eqb_spec c "/") as [->|Hc]; simpl; [tauto|].
  intros [H|H]; [exact (Hc H) | tauto].
Qed.

Lemma first_segment_prefix s :
  s = first_segment s \/ exists rest, s = first_segment s +:+ "/" +:+ rest.
Proof.
  induction s as [|c s IH]; simpl; [left; reflexivity|].
  destruct (Ascii.eqb_spec c "/") as [->|Hc].
  - right. exists s. reflexivity.
  - destruct IH as [IH|[rest IH]].
    + left. f_equal. exact IH.
    + right. exists rest.
      change (String c s = String c (first_segment s +:+ "/" +:+ rest)).
      f_equal. exact IH.
Qed.

(** X5. The folder name of a classified folder is the relative path of
    its first packed asset up to the first slash: it holds no slash, and it
    is absent exactly when that path is absent or empty. *)
Theorem folder_name_is_first_segment (files : list (option File)) fs folderName :
  detectSource files = Some (folder_vpk fs folderName) ->
  exists first more,
    fs = first :: more
    /\ match folderName with
       | Some n =>
           no_slash n
           /\ exists rel, webkitRelativePath first = Some rel
                /\ rel <> EmptyString
                /\ (rel = n \/ exists rest, rel = n +:+ "/" +:+ rest)
       | None =>
           webkitRelativePath first = None
           \/ webkitRelativePath first = Some EmptyString
       end.
Proof.
  intros H. apply detectSource_inversion in H as (_ & _ & first & more & -> & ->).
  exists first, more. split; [reflexivity|].
  unfold folder_of. destruct (webkitRelativePath first) as [[|c rel]|]; auto.
  split; [apply first_segment_no_slash|].
  exists (String c rel). split; [reflexivity|]. split; [discriminate|].
  apply first_segment_prefix.
Qed.

Lemma folder_name_is_first_segment_witness :
  exists first more,
    [ex_nested_a; ex_top_b] = first :: more
    /\ no_slash "m"
    /\ exists rel, webkitRelativePath first = Some rel
         /\ rel <> EmptyString
         /\ (rel = "m" \/ exists rest, rel = "m" +:+ "/" +:+ rest).
Proof.
  apply (folder_name_is_first_segment [Some ex_nested_a; Some ex_top_b]
           [ex_nested_a; ex_top_b] (Some "m")).
  reflexivity.
Defined.

Lemma detectSource_refuses_witness :
  detectSource [Some (mkFile "a.zip" None []); Some (mkFile "b.rar" None [])] = None.
Proof.
  apply (proj2 (detectSource_refuses
                  [Some (mkFile "a.zip" None []); Some (mkFile "b.rar" None [])])).
  split.
  - intros f Hf H. apply is_vpk_iff in H.
    destruct Hf as [<-|[<-|[]]]; discriminate H.
  - intros (f & H & _). discriminate H.
Defined.

(** ** Traces: what a run can do to the world *)

Lemma evolves_refl S w : evolves S w w.
Proof. apply rtc_refl. Qed.

Lemma evolves_trans S w1 w2 w3 :
  evolves S w1 w2 -> evolves S w2 w3 -> evolves S w1 w3.
Proof. apply rtc_trans. Qed.

Lemma evolves_step S w1 w2 : step S w1 w2 -> evolves S w1 w2.
Proof. apply rtc_once. Qed.

Lemma evolves_mono (S S' : path -> Prop) w w' :
  (forall abs, S abs -> S' abs) -> evolves S w w' -> evolves S' w w'.
Proof.
  intros HS H. induction H as [w|w1 w2 w3 Hstep _ IH]; [apply rtc_refl|].
  eapply rtc_l; [|exact IH].
  destruct Hstep; constructor; auto.
Qed.

Lemma within_mono (S S' : path -> Prop) {A} (m : Async A) :
  (forall abs, S abs -> S' abs) -> within S m -> within S' m.
Proof. intros HS H w. eapply evolves_mono; [exact HS | apply H]. Qed.

Lemma within_ret S {A} (a : A) : within S (ret a).
Proof. intros w. apply evolves_refl. Qed.

Lemma within_throw S {A} e : within S (@throw A e).
Proof. intros w. apply evolves_refl. Qed.

Lemma within_bind S {A B} (m : Async A) (k : A -> Async B) :
  within S m -> (forall a, within S (k a)) -> within S (bind m k).
Proof.
  intros Hm Hk w. unfold bind. specialize (Hm w).
  destruct (m w) as [a w1|e w1]; [|exact Hm].
  eapply evolves_trans; [exact Hm | apply Hk].
Qed.

Lemma within_try_catch S {A} (body : Async A) handler :
  within S body -> (forall e, within S (handler e)) -> within S (try_catch body handler).
Proof.
  intros Hb Hh w. unfold try_catch. specialize (Hb w).
  destruct (body w) as [a w1|e w1]; [exact Hb|].
  eapply evolves_trans; [exact Hb | apply Hh].
Qed.

Lemma within_toast_error S message : within S (toast (toast_error message)).
Proof. intros w. apply evolves_step, step_toast. discriminate. Qed.

Lemma within_console_error S e : within S (console_error e).
Proof. intros w. apply evolves_step, step_console. Qed.

Lemma within_io S plat {A} op (run : World -> A * World) :
  (forall w, evolves S w (snd (run w))) -> within S (io plat op run).
Proof.
  intros Hrun w. unfold io.
  destruct (io_fault plat (clock w) op).
  - apply evolves_step, step_tick.
  - eapply evolves_trans; [apply evolves_step, step_tick|].
    specialize (Hrun (tick w)). destruct (run (tick w)). exact Hrun.
Qed.

Lemma within_writeFile plat abs data : within (eq abs) (writeFile plat abs data).
Proof.
  apply within_io. intros w. apply evolves_step, step_write. reflexivity.
Qed.

Lemma within_readDir S plat abs : within S (readDir plat abs).
Proof. apply within_io. intros w. apply evolves_refl. Qed.

Lemma within_ensureDir S plat abs : within S (ensureDir plat abs).
Proof.
  unfold ensureDir. apply within_bind.
  - apply within_io. intros w. apply evolves_refl.
  - intros present. destruct (negb present); [|apply within_ret].
    apply within_io. intros w. apply evolves_step, step_mkdir.
Qed.

Lemma within_write_preview plat meta :
  within (eq (join (modDir_of plat) (preview_name (Meta.imageFile meta))))
    (write_preview plat meta (modDir_of plat)).
Proof.
  unfold write_preview, preview_name, writeBytes, writeText.
  destruct (Meta.imageFile meta) as [img|].
  - destruct (Js.regex_match re_image (name img));
      (apply within_bind; [apply within_writeFile | intros; apply within_ret]).
  - apply within_bind; [apply within_writeFile | intros; apply within_ret].
Qed.

Lemma within_stage_payload plat src :
  within (footprint_after_preview plat src)
    (stage_payload plat src (modDir_of plat) (filesDir_of plat)).
Proof.
  assert (Hfiles : forall nm data,
            within (footprint_after_preview plat src)
              (writeFile plat (join (filesDir_of plat) nm) data)).
  { intros nm data. eapply within_mono; [|apply within_writeFile].
    intros abs <-. left. eauto. }
  destruct src as [file|file|files folderName]; unfold stage_payload, writeBytes.
  - assert (Hwhole : within (footprint_after_preview plat (archive file))
                       (writeFile plat (join (modDir_of plat) (name file)) (bytes file))).
    { eapply within_mono; [|apply within_writeFile].
      intros abs <-. right. right. reflexivity. }
    destruct (Js.endsWith _ _); [|exact Hwhole].
    destruct (loadAsync plat (bytes file)) as [msg|zip_files]; [apply within_throw|].
    destruct (List.find zip_payload zip_files) as [entry|]; [apply Hfiles|].
    apply within_bind; [exact Hwhole | intros; apply within_toast_error].
  - apply Hfiles.
  - apply within_bind.
    + intros w. apply evolves_step, step_detected.
    + intros _. destruct (List.find is_vpk _); [apply Hfiles | apply within_throw].
Qed.

Lemma within_stage_failed plat src e :
  within (footprint_after_preview plat src) (stage_failed plat src (modDir_of plat) e).
Proof.
  unfold stage_failed, writeBytes.
  apply within_bind; [apply within_console_error|]. intros _.
  apply within_bind; [apply within_toast_error|]. intros _.
  destruct src as [file|file|files folderName]; try apply within_ret;
    (eapply within_mono; [|apply within_writeFile]);
    intros abs <-; right; right; reflexivity.
Qed.

Lemma within_keep_archive plat src :
  within (footprint_after_preview plat src)
    (keep_archive plat src (modDir_of plat) (filesDir_of plat)).
Proof.
  unfold keep_archive, writeBytes.
  apply within_bind; [apply within_readDir|]. intros filesList.
  destruct (negb _ && is_archive_source src); [|apply within_ret].
  destruct src as [file|file|files folderName]; try apply within_ret.
  eapply within_mono; [|apply within_writeFile].
  intros abs <-. right. right. reflexivity.
Qed.


Lemma outcome_bind plat meta category S {A} (m : Async A) (k : A -> Async unit) w :
  within S m ->
  (forall a w1, run_outcome plat meta category S w1 (k a w1)) ->
  run_outcome plat meta category S w (bind m k w).
Proof.
  intros Hm Hk. unfold bind. specialize (Hm w).
  destruct (m w) as [a w1|e w1].
  - destruct (Hk a w1) as (w2 & Hev & Hres).
    exists w2. split; [eapply evolves_trans; eassumption | exact Hres].
  - exists w1. split; [exact Hm|]. left. eauto.
Qed.

Lemma outcome_mono plat meta category (S S' : path -> Prop) w r :
  (forall abs, S abs -> S' abs) ->
  run_outcome plat meta category S w r -> run_outcome plat meta category S' w r.
Proof.
  intros HS (w1 & Hev & Hres). exists w1.
  split; [eapply evolves_mono; eassumption | exact Hres].
Qed.

Lemma register_outcome plat meta category previewName w :
  run_outcome plat meta category (eq (join (modDir_of plat) "metadata.json")) w
    (register plat meta category previewName w).
Proof.
  unfold register, writeText.
  apply outcome_bind; [apply within_writeFile|]. intros _ w1.
  unfold image_data_url. exists w1. split; [apply evolves_refl|].
  destruct (Meta.imageFile meta) as [img|].
  - destruct (readAsDataURL plat img) as [url|].
    + right. exists url. reflexivity.
    + left. eexists. reflexivity.
  - right. eexists. reflexivity.
Qed.

(** After the preview: the payload, the archive kept, the registration. *)
Lemma after_preview_outcome plat src meta category previewName w :
  run_outcome plat meta category (footprint_after_preview plat src) w
    ((do _ <- try_catch (stage_payload plat src (modDir_of plat) (filesDir_of plat))
                (stage_failed plat src (modDir_of plat));
      do _ <- keep_archive plat src (modDir_of plat) (filesDir_of plat);
      register plat meta category previewName) w).
Proof.
  apply outcome_bind.
  { apply within_try_catch; [apply within_stage_payload|].
    intros e. apply within_stage_failed. }
  intros _ w1. apply outcome_bind; [apply within_keep_archive|].
  intros _ w2. eapply outcome_mono; [|apply register_outcome].
  intros abs <-. right. left. reflexivity.
Qed.

Lemma footprint_after_preview_incl plat meta src abs :
  footprint_after_preview plat src abs -> footprint plat meta src abs.
Proof. intros H. right. exact H. Qed.

Lemma stage_outcome plat src meta category w :
  run_outcome plat meta category (footprint plat meta src) w
    (stage plat src meta category w).
Proof.
  unfold stage.
  apply outcome_bind; [apply within_ensureDir|]. intros _ w1.
  apply outcome_bind; [apply within_ensureDir|]. intros _ w2.
  apply outcome_bind; [apply within_ensureDir|]. intros _ w3.
  apply outcome_bind.
  { eapply within_mono; [|apply within_write_preview]. intros abs <-. left. reflexivity. }
  intros previewName w4.
  eapply outcome_mono; [apply footprint_after_preview_incl|].
  apply after_preview_outcome.
Qed.

(** What a trace keeps. *)
Lemma evolves_frame S w w' abs :
  evolves S w w' -> ~ S abs -> fs w' !! abs = fs w !! abs.
Proof.
  intros H Hn. induction H as [w|w1 w2 w3 Hstep _ IH]; [reflexivity|].
  rewrite IH. destruct Hstep; try reflexivity.
  rewrite fs_set_fs. apply lookup_insert_ne. intros <-. apply Hn. assumption.
Qed.

Lemma evolves_store S w w' :
  evolves S w w' -> store w' = store w /\ open w' = open w.
Proof.
  intros H. induction H as [w|w1 w2 w3 Hstep _ [IH1 IH2]]; [auto|].
  rewrite IH1, IH2. destruct Hstep; auto.
Qed.

Lemma evolves_grows S w w' :
  evolves S w w' ->
  dirs w ⊆ dirs w'
  /\ (forall abs, is_Some (fs w !! abs) -> is_Some (fs w' !! abs))
  /\ (exists shown, toasts w' = toasts w ++ shown
                    /\ forall t, In t shown -> forall m, t <> toast_success m)
  /\ (exists logged, console w' = console w ++ logged)
  /\ clock w <= clock w'.
Proof.
  intros H. induction H as [w|w1 w2 w3 Hstep _ IH].
  { split_and!; try done.
    - exists []. split; [symmetry; apply app_nil_r | intros t []].
    - exists []. symmetry. apply app_nil_r. }
  destruct IH as (Hd & Hf & (shown & Ht & Hshown) & (logged & Hc) & Hk).
  destruct Hstep as [w|w abs|w abs data HS|w t Hnot|w e|w d].
  - split_and!; eauto. cbn [clock tick] in Hk. lia.
  - split_and!; eauto.
    etransitivity; [|exact Hd]. cbn [dirs set_dirs]. set_solver.
  - split_and!; eauto.
    intros p Hp. apply Hf. rewrite fs_set_fs.
    destruct (decide (abs = p)) as [->|Hne].
    + rewrite lookup_insert_eq. eauto.
    + rewrite lookup_insert_ne by exact Hne. exact Hp.
  - split_and!; eauto.
    exists (t :: shown). split.
    + rewrite Ht, toasts_add_toast, <- app_assoc. reflexivity.
    + intros t' [<-|Ht']; [exact Hnot | apply Hshown, Ht'].
  - split_and!; eauto.
    exists (e :: logged). rewrite Hc, console_add_console, <- app_assoc. reflexivity.
  - split_and!; eauto.
Qed.

Lemma completed_fs plat meta category url w :
  fs (completed plat meta category url w) = fs w.
Proof. reflexivity. Qed.

Lemma completed_dirs plat meta category url w :
  dirs (completed plat meta category url w) = dirs w.
Proof. reflexivity. Qed.

(** How every run of [finalize] ends. *)
Lemma finalize_cases plat values category sourceType w :
  finalize plat values category sourceType w = Resolved tt w
  \/ finalize plat values category sourceType w
     = Resolved tt
         (set_open false
            (add_toast (toast_info "URL flow is handled by the API pipeline.") w))
  \/ finalize plat values category sourceType w
     = Resolved tt (add_toast (toast_error "No files detected.") w)
  \/ exists meta src,
       validateAndGet plat values = Some meta
       /\ detected w = Some src
       /\ finalize plat values category sourceType w = stage plat src meta category w.
Proof.
  unfold finalize.
  destruct (validateAndGet plat values) as [meta|]; [|left; reflexivity].
  destruct sourceType; [right; left; reflexivity | | |];
    (destruct (detected w) as [src|];
     [right; right; right; exists meta, src; auto | right; right; left; reflexivity]).
Qed.

(** X6. The paths [finalize] hands to [writeFile] are the preview,
    entries of [files/], [metadata.json] and, for a single file, a file of
    that name in the mod directory, each as [join] builds it: whatever the
    platform does and however the run ends, every path that is none of
    these keeps its content, and a call that returns early writes
    nothing. *)
Theorem finalize_footprint plat values category sourceType w abs :
  (validateAndGet plat values = None \/ sourceType = st_url \/ detected w = None ->
   fs (world_of (finalize plat values category sourceType w)) = fs w)
  /\ (forall meta src,
        validateAndGet plat values = Some meta ->
        detected w = Some src ->
        ~ footprint plat meta src abs ->
        fs (world_of (finalize plat values category sourceType w)) !! abs
        = fs w !! abs).
Proof.
  assert (Hstage : forall meta src,
            ~ footprint plat meta src abs ->
            fs (world_of (stage plat src meta category w)) !! abs = fs w !! abs).
  { intros meta src Hn.
    destruct (stage_outcome plat src meta category w) as (w1 & Hev & [[e ->]|[url ->]]);
      cbn [world_of]; rewrite ?completed_fs;
      apply (evolves_frame _ _ _ _ Hev Hn). }
  split.
  - unfold finalize. intros Hearly.
    destruct (validateAndGet plat values) as [meta|]; [|reflexivity].
    destruct sourceType; [reflexivity | | |];
      (destruct (detected w) as [src|]; [|reflexivity]);
      destruct Hearly as [H|[H|H]]; discriminate H.
  - destruct (finalize_cases plat values category sourceType w)
      as [->|[->|[->|(meta & src & Hm & Hd & ->)]]]; cbn [world_of].
    1-3: intros; reflexivity.
    intros meta' src' Hm' Hd'. rewrite Hm in Hm'. rewrite Hd in Hd'.
    injection Hm' as <-. injection Hd' as <-. apply Hstage.
Qed.

Lemma finalize_footprint_witness :
  fs (world_of
        (finalize (ex_platform (fails_in (join ex_modDir "files")) not_a_zip)
           ex_form "Skins" st_vpk (ex_world (Some (vpk ex_skin)))))
    !! join ex_modDir "notes.txt"
  = fs (ex_world (Some (vpk ex_skin))) !! join ex_modDir "notes.txt".
Proof.
  apply (proj2 (finalize_footprint
                  (ex_platform (fails_in (join ex_modDir "files")) not_a_zip)
                  ex_form "Skins" st_vpk (ex_world (Some (vpk ex_skin)))
                  (join ex_modDir "notes.txt"))
           ex_meta (vpk ex_skin)).
  - reflexivity.
  - reflexivity.
  - intros [H|[[nm H]|[H|H]]]; vm_compute in H; discriminate H.
Defined.

(** X7. A run only adds: every directory and every file that was there is
    still there, and the notices, the console and the store keep what they
    held and grow at the end. *)
Theorem finalize_only_adds plat values category sourceType w :
  dirs w ⊆ dirs (world_of (finalize plat values category sourceType w))
  /\ (forall abs, is_Some (fs w !! abs) ->
        is_Some (fs (world_of (finalize plat values category sourceType w)) !! abs))
  /\ toasts w `prefix_of` toasts (world_of (finalize plat values category sourceType w))
  /\ console w `prefix_of` console (world_of (finalize plat values category sourceType w))
  /\ store w `prefix_of` store (world_of (finalize plat values category sourceType w)).
Proof.
  destruct (finalize_cases plat values category sourceType w)
    as [->|[->|[->|(meta & src & Hm & Hd & ->)]]]; cbn [world_of].
  - split_and!; done.
  - split_and!; try done. eexists. reflexivity.
  - split_and!; try done. eexists. reflexivity.
  - destruct (stage_outcome plat src meta category w) as (w1 & Hev & Hres).
    destruct (evolves_grows _ _ _ Hev)
      as (Hdirs & Hfs & (shown & Ht & _) & (logged & Hc) & _).
    destruct (evolves_store _ _ _ Hev) as [Hs _].
    destruct Hres as [[e ->]|[url ->]]; cbn [world_of].
    + split_and!; try assumption.
      * exists shown. exact Ht.
      * exists logged. exact Hc.
      * rewrite Hs. done.
    + split_and!; try assumption.
      * eexists. cbn. rewrite Ht, <- app_assoc. reflexivity.
      * exists logged. exact Hc.
      * eexists. cbn. rewrite Hs, <- !app_assoc. reflexivity.
Qed.

(** X8. The mod is registered by a completed run and by no other: either
    the store is untouched and no "Added" notice is shown (and a rejected
    run leaves the dialog as it was), or the run resolved, the store
    gained exactly the three calls, the dialog is closed and the "Added"
    notice is the last one shown. *)
Theorem finalize_registers_on_completion plat values category sourceType w :
  (store (world_of (finalize plat values category sourceType w)) = store w
   /\ (exists shown,
         toasts (world_of (finalize plat values category sourceType w))
         = toasts w ++ shown
         /\ forall t, In t shown -> forall m, t <> toast_success m)
   /\ (is_resolved (finalize plat values category sourceType w) = false ->
       open (world_of (finalize plat values category sourceType w)) = open w))
  \/ (is_resolved (finalize plat values category sourceType w) = true
      /\ (exists dto,
            store (world_of (finalize plat values category sourceType w))
            = store w
              ++ [addMod dto (modDir_of plat) DOWNLOADED;
                  setModPath (modId_of plat) (modDir_of plat);
                  setModStatus (modId_of plat) DOWNLOADED])
      /\ open (world_of (finalize plat values category sourceType w)) = false
      /\ exists shown,
           toasts (world_of (finalize plat values category sourceType w))
           = toasts w ++ shown
               ++ [toast_success ("Added: " +:+ Js.trim (Form.name values))]
           /\ forall t, In t shown -> forall m, t <> toast_success m).
Proof.
  destruct (finalize_cases plat values category sourceType w)
    as [->|[->|[->|(meta & src & Hm & Hd & ->)]]]; cbn [world_of is_resolved].
  - left. split_and!; [reflexivity| |discriminate].
    exists []. split; [symmetry; apply app_nil_r | intros t []].
  - left. split_and!; [reflexivity| |discriminate].
    eexists. split; [reflexivity|]. intros t [<-|[]] m. discriminate.
  - left. split_and!; [reflexivity| |discriminate].
    eexists. split; [reflexivity|]. intros t [<-|[]] m. discriminate.
  - destruct (stage_outcome plat src meta category w) as (w1 & Hev & Hres).
    destruct (evolves_grows _ _ _ Hev) as (_ & _ & (shown & Ht & Hshown) & _).
    destruct (evolves_store _ _ _ Hev) as [Hs Ho].
    destruct (validateAndGet_Some _ _ _ Hm) as (Hn & _).
    destruct Hres as [[e ->]|[url ->]]; cbn [world_of is_resolved].
    + left. split_and!; [exact Hs | eauto | intros _; exact Ho].
    + right. split_and!; [reflexivity | | reflexivity |].
      * eexists. cbn. rewrite Hs, <- !app_assoc. reflexivity.
      * exists shown. split; [|exact Hshown].
        cbn. rewrite Ht, Hn, <- app_assoc. reflexivity.
Qed.

(** ** The preview and the archive that is kept *)

Lemma toLowerCase_of_fold ext lit :
  fold_case ext = fold_case lit -> Js.toLowerCase ext = Js.toLowerCase lit.
Proof.
  intros H. rewrite <- (toLowerCase_fold_case ext), H. apply toLowerCase_fold_case.
Qed.

Lemma preview_name_listed image : In (preview_name image) preview_names.
Proof.
  unfold preview_name, preview_names. destruct image as [img|]; [|simpl; auto].
  destruct (Js.regex_match re_image (name img)) as [ext|] eqn:E; [|simpl; auto].
  apply regex_match_sound in E as (stem & lit & _ & Hlit & Hfold).
  rewrite (toLowerCase_of_fold _ _ Hfold).
  destruct Hlit as [<-|[<-|[<-|[<-|[<-|[<-|[]]]]]]]; simpl; auto 8.
Qed.

Lemma preview_name_shape image :
  preview_name image <> "metadata.json"
  /\ Js.regex_test re_vpk (preview_name image) = false
  /\ Js.regex_test re_archive (preview_name image) = false.
Proof.
  pose proof (preview_name_listed image) as Hin.
  unfold preview_names in Hin.
  repeat (destruct Hin as [<-|Hin]; [split_and!; (reflexivity || discriminate)|]).
  destruct Hin.
Qed.

Lemma write_preview_written plat meta modDir w previewName w1 :
  write_preview plat meta modDir w = Resolved previewName w1 ->
  previewName = preview_name (Meta.imageFile meta)
  /\ w1 = set_fs (insert (join modDir (preview_name (Meta.imageFile meta)))
                   (preview_data (Meta.imageFile meta))) (tick w).
Proof.
  intros H.
  pose proof (write_preview_resolved_inv _ _ _ _ _ _ H) as ->.
  split; [reflexivity|].
  revert H. unfold write_preview, preview_name, preview_data, writeBytes, writeText.
  destruct (Meta.imageFile meta) as [img|].
  - destruct (Js.regex_match re_image (name img)); intros H;
      apply bind_resolved_inv in H as (u & w2 & Hw & H);
      apply writeFile_resolved_inv in Hw;
      (assert (w2 = w1) as <- by (unfold ret in H; congruence)); exact Hw.
  - intros H. apply bind_resolved_inv in H as (u & w2 & Hw & H).
    apply writeFile_resolved_inv in Hw.
    assert (w2 = w1) as <- by (unfold ret in H; congruence). exact Hw.
Qed.

(** X9. The preview file has one of six names, [preview] and an image
    extension in lower case, whatever the name of the image: it is never
    [metadata.json] and never has the name of a packed asset or of an
    archive. *)
Theorem write_preview_name plat meta modDir w previewName w1 :
  write_preview plat meta modDir w = Resolved previewName w1 ->
  In previewName preview_names
  /\ previewName <> "metadata.json"
  /\ Js.regex_test re_vpk previewName = false
  /\ Js.regex_test re_archive previewName = false
  /\ fs w1 !! join modDir previewName = Some (preview_data (Meta.imageFile meta)).
Proof.
  intros H. apply write_preview_written in H as [-> ->].
  split; [apply preview_name_listed|].
  destruct (preview_name_shape (Meta.imageFile meta)) as (Hm & Hv & Ha).
  split_and!; [exact Hm | exact Hv | exact Ha|].
  rewrite fs_set_fs. apply lookup_insert_eq.
Qed.

Lemma write_preview_name_witness :
  In "preview.jpeg" preview_names
  /\ "preview.jpeg" <> "metadata.json"
  /\ Js.regex_test re_vpk "preview.jpeg" = false
  /\ Js.regex_test re_archive "preview.jpeg" = false
  /\ fs (world_of
           (write_preview (ex_platform never_fails not_a_zip)
              (Meta.mk "Red Armor" None None None
                 (Some (mkFile "Cover.zip.JPEG" None [Byte.xff])))
              ex_modDir (ex_world None)))
       !! join ex_modDir "preview.jpeg"
     = Some (preview_data (Some (mkFile "Cover.zip.JPEG" None [Byte.xff]))).
Proof.
  apply (write_preview_name (ex_platform never_fails not_a_zip)
           (Meta.mk "Red Armor" None None None
              (Some (mkFile "Cover.zip.JPEG" None [Byte.xff])))
           ex_modDir (ex_world None) "preview.jpeg").
  reflexivity.
Defined.

Lemma preview_outside_footprint plat src image :
  classified src ->
  ~ footprint_after_preview plat src (join (modDir_of plat) (preview_name image)).
Proof.
  intros Hc.
  destruct (preview_name_shape image) as (Hm & Hv & Ha).
  unfold footprint_after_preview, filesDir_of.
  intros [[nm H]|[H|H]].
  - exact (join_join_ne _ _ _ _ H).
  - unfold join in H. apply app_inv_head in H. congruence.
  - destruct src as [file|file|files folderName]; [| |exact H];
      unfold join in H; apply app_inv_head in H; injection H as H;
      cbn [classified] in Hc; unfold is_vpk, is_archive in Hc;
      rewrite <- H in Hc.
    + destruct Hc as [Hc _]. congruence.
    + congruence.
Qed.

Lemma stage_after_preview plat src meta category w w' :
  stage plat src meta category w = Resolved tt w' ->
  exists w3 w4,
    write_preview plat meta (modDir_of plat) w3
      = Resolved (preview_name (Meta.imageFile meta)) w4
    /\ (do _ <- try_catch (stage_payload plat src (modDir_of plat) (filesDir_of plat))
                  (stage_failed plat src (modDir_of plat));
        do _ <- keep_archive plat src (modDir_of plat) (filesDir_of plat);
        register plat meta category (preview_name (Meta.imageFile meta))) w4
       = Resolved tt w'.
Proof.
  unfold stage. intros H.
  apply bind_resolved_inv in H as (? & w1 & _ & H).
  apply bind_resolved_inv in H as (? & w2 & _ & H).
  apply bind_resolved_inv in H as (? & w3 & _ & H).
  apply bind_resolved_inv in H as (pn & w4 & Hpn & H).
  pose proof (write_preview_resolved_inv _ _ _ _ _ _ Hpn) as ->.
  exists w3, w4. auto.
Qed.

(** X10. After every completed run on a classified source the preview is
    in the mod directory, under the name [metadata.json] records, with the
    bytes of the image (or the placeholder): no later write of the run,
    whatever failed on the way, replaces it. *)
Theorem finalize_preview_kept plat values category sourceType files w w' :
  detected w = detectSource files ->
  finalize plat values category sourceType w = Resolved tt w' ->
  store w' <> store w ->
  fs w' !! join (modDir_of plat) (preview_name (Form.imageFile values))
  = Some (preview_data (Form.imageFile values)).
Proof.
  intros Hdet Hrun Hstore.
  destruct (finalize_cases plat values category sourceType w)
    as [H|[H|[H|(meta & src & Hm & Hd & H)]]]; rewrite H in Hrun.
  1-3: injection Hrun as <-; destruct Hstore; reflexivity.
  destruct (validateAndGet_Some _ _ _ Hm) as (_ & _ & _ & _ & Hi).
  assert (Hc : classified src).
  { apply (detectSource_classified files). congruence. }
  apply stage_after_preview in Hrun as (w3 & w4 & Hpn & Hrest).
  apply write_preview_written in Hpn as [_ Hw4].
  destruct (after_preview_outcome plat src meta category
              (preview_name (Meta.imageFile meta)) w4) as (w5 & Hev & Hres).
  rewrite Hrest in Hres. destruct Hres as [[e He]|[url Hu]]; [discriminate|].
  injection Hu as ->. rewrite completed_fs.
  rewrite (evolves_frame _ _ _ _ Hev (preview_outside_footprint plat src _ Hc)).
  rewrite Hw4, <- Hi, fs_set_fs. apply lookup_insert_eq.
Qed.

Lemma finalize_preview_kept_witness :
  fs (world_of
        (finalize (ex_platform (fails_in (join ex_modDir "files")) not_a_zip)
           ex_form "Skins" st_archive (ex_world (detectSource [Some ex_bundle]))))
    !! join (modDir_of (ex_platform (fails_in (join ex_modDir "files")) not_a_zip))
         (preview_name (Form.imageFile ex_form))
  = Some (preview_data (Form.imageFile ex_form)).
Proof.
  apply (finalize_preview_kept
           (ex_platform (fails_in (join ex_modDir "files")) not_a_zip)
           ex_form "Skins" st_archive [Some ex_bundle]
           (ex_world (detectSource [Some ex_bundle]))
           (world_of
              (finalize (ex_platform (fails_in (join ex_modDir "files")) not_a_zip)
                 ex_form "Skins" st_archive (ex_world (detectSource [Some ex_bundle]))))).
  - reflexivity.
  - vm_compute. reflexivity.
  - vm_compute. discriminate.
Defined.

Lemma register_resolved_keeps plat meta category previewName w w' abs data :
  register plat meta category previewName w = Resolved tt w' ->
  (abs <> join (modDir_of plat) "metadata.json" ->
   fs w !! abs = Some data -> fs w' !! abs = Some data)
  /\ dirs w ⊆ dirs w'
  /\ (forall p, is_Some (fs w !! p) -> is_Some (fs w' !! p)).
Proof.
  intros H.
  destruct (register_outcome plat meta category previewName w) as (w1 & Hev & Hres).
  rewrite H in Hres. destruct Hres as [[e He]|[url Hu]]; [discriminate|].
  injection Hu as ->.
  destruct (evolves_grows _ _ _ Hev) as (Hd & Hf & _).
  split_and!.
  - intros Hne Hl. rewrite completed_fs.
    rewrite (evolves_frame _ _ _ abs Hev); [exact Hl|]. congruence.
  - rewrite completed_dirs. exact Hd.
  - intros p Hp. rewrite completed_fs. apply Hf, Hp.
Qed.

(** X11. An archive is never lost: after every completed run on an
    archive, whatever went wrong inside it, either [files/] holds an entry
    with a packed asset's name or the archive itself is in the mod
    directory, under its own name and with its own bytes. *)
Theorem finalize_archive_kept plat values category sourceType file w w' :
  detected w = Some (archive file) ->
  is_archive file = true ->
  finalize plat values category sourceType w = Resolved tt w' ->
  store w' <> store w ->
  (exists nm, Js.regex_test re_vpk nm = true
              /\ join (filesDir_of plat) nm ∈ dirs w' ∪ dom (fs w'))
  \/ fs w' !! join (modDir_of plat) (name file) = Some (bytes file).
Proof.
  intros Hdet Harch Hrun Hstore.
  destruct (finalize_cases plat values category sourceType w)
    as [H|[H|[H|(meta & src & Hm & Hd & H)]]]; rewrite H in Hrun.
  1-3: injection Hrun as <-; destruct Hstore; reflexivity.
  assert (src = archive file) as -> by congruence.
  apply stage_after_preview in Hrun as (w3 & w4 & _ & Hrest).
  apply bind_resolved_inv in Hrest as (? & w5 & _ & Hrest).
  apply bind_resolved_inv in Hrest as (? & w6 & Hkeep & Hreg).
  assert (Hne : join (modDir_of plat) (name file)
                <> join (modDir_of plat) "metadata.json").
  { unfold join. intros E. apply app_inv_head in E. injection E as E.
    unfold is_archive in Harch. rewrite E in Harch. discriminate Harch. }
  destruct (register_resolved_keeps _ _ _ _ _ _
              (join (modDir_of plat) (name file)) (bytes file) Hreg)
    as (Hkeepfile & Hdirs & Hfiles).
  unfold keep_archive in Hkeep.
  apply bind_resolved_inv in Hkeep as (filesList & w7 & Hread & Hkeep).
  apply io_resolved_inv in Hread. injection Hread as <- <-.
  destruct (existsb (Js.regex_test re_vpk) (entries_of (filesDir_of plat) (tick w5)))
    eqn:Ehas; cbn [negb andb is_archive_source] in Hkeep.
  - left. assert (w6 = tick w5) as -> by (unfold ret in Hkeep; congruence).
    apply existsb_exists in Ehas as (nm & Hin & Hnm).
    exists nm. split; [exact Hnm|].
    apply entries_of_iff in Hin. apply elem_of_union in Hin as [Hin|Hin].
    + apply elem_of_union_l, Hdirs, Hin.
    + apply elem_of_union_r, elem_of_dom, Hfiles, elem_of_dom, Hin.
  - right. apply writeFile_resolved_inv in Hkeep as ->.
    apply Hkeepfile; [exact Hne|]. rewrite fs_set_fs. apply lookup_insert_eq.
Qed.

Lemma finalize_archive_kept_witness :
  (exists nm, Js.regex_test re_vpk nm = true
     /\ join (filesDir_of (ex_platform (fails_in (join ex_modDir "files"))
                             (fun _ => inr [ex_inner_skin]))) nm
        ∈ dirs (world_of
                  (finalize (ex_platform (fails_in (join ex_modDir "files"))
                               (fun _ => inr [ex_inner_skin]))
                     ex_form "Skins" st_archive
                     (ex_world (Some (archive ex_bundle)))))
          ∪ dom (fs (world_of
                       (finalize (ex_platform (fails_in (join ex_modDir "files"))
                                    (fun _ => inr [ex_inner_skin]))
                          ex_form "Skins" st_archive
                          (ex_world (Some (archive ex_bundle)))))))
  \/ fs (world_of
           (finalize (ex_platform (fails_in (join ex_modDir "files"))
                        (fun _ => inr [ex_inner_skin]))
              ex_form "Skins" st_archive (ex_world (Some (archive ex_bundle)))))
       !! join (modDir_of (ex_platform (fails_in (join ex_modDir "files"))
                             (fun _ => inr [ex_inner_skin]))) (name ex_bundle)
     = Some (bytes ex_bundle).
Proof.
  apply (finalize_archive_kept
           (ex_platform (fails_in (join ex_modDir "files")) (fun _ => inr [ex_inner_skin]))
           ex_form "Skins" st_archive ex_bundle (ex_world (Some (archive ex_bundle)))
           (world_of
              (finalize (ex_platform (fails_in (join ex_modDir "files"))
                           (fun _ => inr [ex_inner_skin]))
                 ex_form "Skins" st_archive (ex_world (Some (archive ex_bundle)))))).
  - reflexivity.
  - reflexivity.
  - vm_compute. reflexivity.
  - vm_compute. discriminate.
Defined.

(** ** The sort of the folder *)

Lemma sort_insert_perm {A} (cmp : A -> A -> Z) x l :
  Permutation (x :: l) (sort_insert cmp x l).
Proof.
  induction l as [|y l IH]; simpl; [reflexivity|].
  destruct (0 <? cmp x y)%Z; [|reflexivity].
  rewrite perm_swap. apply perm_skip, IH.
Qed.

Lemma Array_sort_perm {A} (cmp : A -> A -> Z) l : Permutation l (Array_sort cmp l).
Proof.
  induction l as [|x l IH]; [reflexivity|].
  change (Array_sort cmp (x :: l)) with (sort_insert cmp x (Array_sort cmp l)).
  rewrite <- sort_insert_perm. apply perm_skip, IH.
Qed.

Section Sorting.

Context {A : Type} (cmp : A -> A -> Z).
Hypothesis Hanti : forall a b, (0 < cmp a b)%Z -> (cmp b a <= 0)%Z.
Hypothesis Htrans : forall a b c, (cmp a b <= 0)%Z -> (cmp b c <= 0)%Z -> (cmp a c <= 0)%Z.

Lemma sort_insert_sorted x l :
  sorted_by cmp l -> sorted_by cmp (sort_insert cmp x l).
Proof.
  unfold sorted_by. induction 1 as [|y l Hs IH Hy]; simpl.
  - repeat constructor.
  - destruct (Z.ltb_spec 0 (cmp x y)) as [Hgt|Hle].
    + constructor; [exact IH|].
      rewrite <- (sort_insert_perm cmp x l). constructor; [apply Hanti, Hgt | exact Hy].
    + constructor; [constructor; assumption|].
      constructor; [exact Hle|].
      eapply Forall_impl; [exact Hy|]. intros z Hz. eapply Htrans; eassumption.
Qed.

Lemma Array_sort_sorted l : sorted_by cmp (Array_sort cmp l).
Proof.
  induction l as [|x l IH]; [constructor|].
  change (Array_sort cmp (x :: l)) with (sort_insert cmp x (Array_sort cmp l)).
  apply sort_insert_sorted, IH.
Qed.

Lemma Array_sort_of_sorted l : sorted_by cmp l -> Array_sort cmp l = l.
Proof.
  unfold sorted_by. induction 1 as [|x l Hs IH Hx]; [reflexivity|].
  change (Array_sort cmp (x :: l)) with (sort_insert cmp x (Array_sort cmp l)).
  rewrite IH. destruct l as [|y l]; [reflexivity|]. simpl.
  destruct (Z.ltb_spec 0 (cmp x y)) as [Hgt|Hle]; [|reflexivity].
  apply Forall_cons in Hx as [Hxy _]. lia.
Qed.

End Sorting.

Lemma keeps_bind {X A B} (f : World -> X) (m : Async A) (k : A -> Async B) :
  keeps f m -> (forall a, keeps f (k a)) -> keeps f (bind m k).
Proof.
  intros Hm Hk w. unfold bind. specialize (Hm w).
  destruct (m w) as [a w1|e w1]; [|exact Hm].
  rewrite <- Hm. apply Hk.
Qed.

Lemma keeps_io {X A} (f : World -> X) plat op (run : World -> A * World) :
  (forall w, f (tick w) = f w) -> (forall w, f (snd (run w)) = f w) ->
  keeps f (io plat op run).
Proof.
  intros Ht Hrun w. unfold io. destruct (io_fault plat (clock w) op); [apply Ht|].
  specialize (Hrun (tick w)). destruct (run (tick w)) as [a w1].
  cbn [world_of snd] in *. rewrite Hrun. apply Ht.
Qed.

Lemma keeps_detected_writeFile plat abs data : keeps detected (writeFile plat abs data).
Proof. apply keeps_io; reflexivity. Qed.

Lemma keeps_detected_keep_archive plat src modDir filesDir :
  keeps detected (keep_archive plat src modDir filesDir).
Proof.
  unfold keep_archive, writeBytes. apply keeps_bind.
  - apply keeps_io; reflexivity.
  - intros filesList. destruct (negb _ && _); [|intros w; reflexivity].
    destruct src; try (intros w; reflexivity). apply keeps_detected_writeFile.
Qed.

Lemma keeps_detected_register plat meta category previewName :
  keeps detected (register plat meta category previewName).
Proof.
  unfold register, writeText. apply keeps_bind; [apply keeps_detected_writeFile|].
  intros _. apply keeps_bind.
  - unfold image_data_url. destruct (Meta.imageFile meta) as [img|].
    + destruct (readAsDataURL plat img); intros w; reflexivity.
    + intros w; reflexivity.
  - intros url w. reflexivity.
Qed.

Lemma folder_payload_detected plat files folderName modDir filesDir w :
  detected
    (world_of
       (try_catch (stage_payload plat (folder_vpk files folderName) modDir filesDir)
          (stage_failed plat (folder_vpk files folderName) modDir) w))
  = Some (folder_vpk
            (Array_sort (fun a b => localeCompare plat (fileName a) (fileName b)) files)
            folderName).
Proof.
  unfold try_catch, stage_payload, stage_failed, writeBytes.
  rewrite run_modify.
  destruct (List.find is_vpk _) as [first|].
  - pose proof (keeps_detected_writeFile plat (join filesDir (name first)) (bytes first)
                  (set_detected
                     (Some (folder_vpk
                              (Array_sort
                                 (fun a b => localeCompare plat (fileName a) (fileName b))
                                 files) folderName)) w)) as H.
    destruct (writeFile plat _ _ _) as [u w1|e w1]; cbn [world_of] in *; exact H.
  - reflexivity.
Qed.

(** X12. [finalize] sorts the files of a folder in place: after every
    completed run on a folder, the detected source holds the same files,
    rearranged so that none sorts after a later one in the order of
    [localeCompare] on [fileName]; sorting them again changes nothing, so
    a second run stages the same file. *)
Theorem finalize_sorts_folder plat values category sourceType files folderName w w' :
  consistent (localeCompare plat) ->
  detected w = Some (folder_vpk files folderName) ->
  finalize plat values category sourceType w = Resolved tt w' ->
  store w' <> store w ->
  exists sorted,
    detected w' = Some (folder_vpk sorted folderName)
    /\ Permutation files sorted
    /\ sorted_by (fun a b => localeCompare plat (fileName a) (fileName b)) sorted
    /\ Array_sort (fun a b => localeCompare plat (fileName a) (fileName b)) sorted
       = sorted.
Proof.
  intros [Hanti Htrans] Hdet Hrun Hstore.
  destruct (finalize_cases plat values category sourceType w)
    as [H|[H|[H|(meta & src & Hm & Hd & H)]]]; rewrite H in Hrun.
  1-3: injection Hrun as <-; destruct Hstore; reflexivity.
  assert (src = folder_vpk files folderName) as -> by congruence.
  apply stage_after_preview in Hrun as (w3 & w4 & _ & Hrest).
  apply bind_resolved_inv in Hrest as (? & w5 & Hpay & Hrest).
  apply bind_resolved_inv in Hrest as (? & w6 & Hkeep & Hreg).
  pose proof (folder_payload_detected plat files folderName
                (modDir_of plat) (filesDir_of plat) w4) as H5.
  rewrite Hpay in H5.
  pose proof (keeps_detected_keep_archive plat (folder_vpk files folderName)
                (modDir_of plat) (filesDir_of plat) w5) as H6.
  rewrite Hkeep in H6.
  pose proof (keeps_detected_register plat meta category
                (preview_name (Meta.imageFile meta)) w6) as H7.
  rewrite Hreg in H7. cbn [world_of] in *.
  exists (Array_sort (fun a b => localeCompare plat (fileName a) (fileName b)) files).
  split; [rewrite H7, H6; exact H5|].
  assert (Hs : sorted_by (fun a b => localeCompare plat (fileName a) (fileName b))
                 (Array_sort (fun a b => localeCompare plat (fileName a) (fileName b))
                    files)).
  { apply Array_sort_sorted; intros; eauto. }
  split_and!.
  - apply Array_sort_perm.
  - exact Hs.
  - apply Array_sort_of_sorted, Hs.
Qed.

Lemma finalize_sorts_folder_witness :
  exists sorted,
    detected
      (world_of
         (finalize (ex_platform never_fails not_a_zip) ex_form "Skins" st_folder_vpk
            (ex_world (Some (folder_vpk [ex_c_vpk; ex_b_vpk] (Some "a"))))))
    = Some (folder_vpk sorted (Some "a"))
    /\ Permutation [ex_c_vpk; ex_b_vpk] sorted
    /\ sorted_by
         (fun a b => localeCompare (ex_platform never_fails not_a_zip)
                       (fileName a) (fileName b)) sorted
    /\ Array_sort
         (fun a b => localeCompare (ex_platform never_fails not_a_zip)
                       (fileName a) (fileName b)) sorted
       = sorted.
Proof.
  apply (finalize_sorts_folder (ex_platform never_fails not_a_zip)
           ex_form "Skins" st_folder_vpk [ex_c_vpk; ex_b_vpk] (Some "a")
           (ex_world (Some (folder_vpk [ex_c_vpk; ex_b_vpk] (Some "a"))))
           (world_of
              (finalize (ex_platform never_fails not_a_zip) ex_form "Skins"
                 st_folder_vpk
                 (ex_world (Some (folder_vpk [ex_c_vpk; ex_b_vpk] (Some "a"))))))).
  - exact codeUnitCompare_consistent.
  - reflexivity.
  - vm_compute. reflexivity.
  - vm_compute. discriminate.
Defined.

(** ** [ensureDir] *)

(** X13. [ensureDir] is idempotent. Once it has resolved the path exists,
    no file was touched and no directory removed; called again it only
    asks whether the path exists and creates nothing. *)
Theorem ensureDir_idempotent plat (abs : path) w w1 :
  abs <> [] ->
  ensureDir plat abs w = Resolved tt w1 ->
  abs ∈ dirs w1 ∪ dom (fs w1)
  /\ fs w1 = fs w
  /\ dirs w ⊆ dirs w1
  /\ (io_fault plat (clock w1) (op_exists abs) = None ->
      ensureDir plat abs w1 = Resolved tt (tick w1)).
Proof.
  intros Hne H.
  assert (Hin : abs ∈ dirs w1 ∪ dom (fs w1) /\ fs w1 = fs w /\ dirs w ⊆ dirs w1).
  { revert H. unfold ensureDir, exists_, mkdir, bind, io.
    destruct (io_fault plat (clock w) (op_exists abs)); [discriminate|].
    change (dirs (tick w)) with (dirs w). change (fs (tick w)) with (fs w).
    case_bool_decide as Hex; cbn [negb].
    - intros [= <-]. split_and!; [exact Hex | reflexivity | reflexivity].
    - destruct (io_fault plat _ (op_mkdir abs)); [discriminate|].
      intros [= <-]. cbn [dirs fs set_dirs tick]. split_and!; [|reflexivity|set_solver].
      apply elem_of_union_l, elem_of_union_l, elem_of_list_to_set.
      apply list_elem_of_In, prefixes_self, Hne. }
  destruct Hin as (Hin & Hfs & Hdirs). split_and!; try assumption.
  intros Hok. unfold ensureDir, exists_, bind, io. rewrite Hok.
  change (dirs (tick w1)) with (dirs w1). change (fs (tick w1)) with (fs w1).
  rewrite bool_decide_eq_true_2 by exact Hin. reflexivity.
Qed.

Lemma ensureDir_idempotent_witness :
  ensureDir (ex_platform never_fails not_a_zip) ex_modDir
    (world_of (ensureDir (ex_platform never_fails not_a_zip) ex_modDir (ex_world None)))
  = Resolved tt
      (tick (world_of (ensureDir (ex_platform never_fails not_a_zip) ex_modDir
                         (ex_world None)))).
Proof.
  apply (ensureDir_idempotent (ex_platform never_fails not_a_zip) ex_modDir
           (ex_world None)
           (world_of (ensureDir (ex_platform never_fails not_a_zip) ex_modDir
                        (ex_world None)))).
  - discriminate.
  - vm_compute. reflexivity.
  - reflexivity.
Defined.

(** ** The metadata form *)

Lemma trimEnd_idem s : Js.trimEnd (Js.trimEnd s) = Js.trimEnd s.
Proof.
  induction s as [|c s IH]; [reflexivity|]. cbn [Js.trimEnd].
  destruct (Js.trimEnd s) as [|d t] eqn:E.
  - destruct (Js.is_space c) eqn:Ec; [reflexivity|].
    cbn [Js.trimEnd]. rewrite Ec. reflexivity.
  - cbn [Js.trimEnd] in *. rewrite IH. reflexivity.
Qed.

Lemma trimEnd_head c s :
  Js.is_space c = false -> exists t, Js.trimEnd (String c s) = String c t.
Proof.
  intros Hc. cbn [Js.trimEnd]. destruct (Js.trimEnd s); [rewrite Hc|]; eauto.
Qed.

Lemma trimStart_head s :
  Js.trimStart s = EmptyString
  \/ exists c t, Js.trimStart s = String c t /\ Js.is_space c = false.
Proof.
  induction s as [|c s IH]; [left; reflexivity|]. cbn [Js.trimStart].
  destruct (Js.is_space c) eqn:Ec; [exact IH|]. right. eauto.
Qed.

Lemma trim_idem s : Js.trim (Js.trim s) = Js.trim s.
Proof.
  unfold Js.trim. destruct (trimStart_head s) as [->|(c & t & -> & Hc)]; [reflexivity|].
  destruct (trimEnd_head c t Hc) as [t' E]. rewrite E.
  cbn [Js.trimStart]. rewrite Hc, <- E. apply trimEnd_idem.
Qed.

Lemma trimEnd_length s : String.length (Js.trimEnd s) <= String.length s.
Proof.
  induction s as [|c s IH]; [reflexivity|]. cbn [Js.trimEnd].
  destruct (Js.trimEnd s); [destruct (Js.is_space c)|]; simpl in *; lia.
Qed.

Lemma trimStart_length s : String.length (Js.trimStart s) <= String.length s.
Proof.
  induction s as [|c s IH]; [reflexivity|]. cbn [Js.trimStart].
  destruct (Js.is_space c); simpl in *; lia.
Qed.

Lemma trim_length s : String.length (Js.trim s) <= String.length s.
Proof.
  unfold Js.trim. etransitivity; [apply trimEnd_length | apply trimStart_length].
Qed.

Lemma or_undefined_trim (raw : option string) v :
  Js.or_undefined (Js.trim <$> raw) = Some v ->
  exists r, raw = Some r /\ v = Js.trim r /\ v <> EmptyString.
Proof.
  destruct raw as [r|]; [|discriminate]. cbn [fmap option_fmap option_map].
  unfold Js.or_undefined. destruct (Js.trim r) as [|c t] eqn:E; [discriminate|].
  intros [= <-]. exists r. rewrite E. split_and!; [reflexivity|reflexivity|discriminate].
Qed.

(** X14. What the metadata form hands over is normalised: the name is
    trimmed; an author, a link and a description are either absent or
    non-empty and trimmed, never blank; and the bounds of the schema
    still hold, at most 128 code units for the author and 4000 for the
    description. *)
Theorem validateAndGet_normalises plat values meta :
  validateAndGet plat values = Some meta ->
  Js.trim (Meta.name meta) = Meta.name meta
  /\ (forall a, Meta.author meta = Some a ->
        a <> EmptyString /\ Js.trim a = a /\ String.length a <= 128)
  /\ (forall l, Meta.link meta = Some l -> l <> EmptyString /\ Js.trim l = l)
  /\ (forall d, Meta.description meta = Some d ->
        d <> EmptyString /\ Js.trim d = d /\ String.length d <= 4000).
Proof.
  unfold validateAndGet, schema_valid.
  destruct (_ && _) eqn:Hvalid; [|discriminate].
  apply andb_true_iff in Hvalid as [Hvalid _].
  apply andb_true_iff in Hvalid as [Hvalid Hdesc].
  apply andb_true_iff in Hvalid as [_ Hauth].
  intros [= <-]. cbn [Meta.name Meta.author Meta.link Meta.description].
  split_and!.
  - apply trim_idem.
  - intros a Ha. apply or_undefined_trim in Ha as (r & Hr & -> & Hne).
    split_and!; [exact Hne | apply trim_idem|].
    rewrite Hr in Hauth. cbn [max_length] in Hauth.
    apply Nat.leb_le in Hauth. pose proof (trim_length r). lia.
  - intros l Hl. apply or_undefined_trim in Hl as (r & Hr & -> & Hne).
    split; [exact Hne | apply trim_idem].
  - intros d Hd. apply or_undefined_trim in Hd as (r & Hr & -> & Hne).
    split_and!; [exact Hne | apply trim_idem|].
    rewrite Hr in Hdesc. cbn [max_length] in Hdesc.
    apply Nat.leb_le in Hdesc. pose proof (trim_length r). lia.
Qed.

Lemma validateAndGet_normalises_witness :
  Js.trim (Meta.name ex_meta) = Meta.name ex_meta
  /\ (forall a, Meta.author ex_meta = Some a ->
        a <> EmptyString /\ Js.trim a = a /\ String.length a <= 128)
  /\ (forall l, Meta.link ex_meta = Some l -> l <> EmptyString /\ Js.trim l = l)
  /\ (forall d, Meta.description ex_meta = Some d ->
        d <> EmptyString /\ Js.trim d = d /\ String.length d <= 4000).
Proof.
  apply (validateAndGet_normalises (ex_platform never_fails not_a_zip) ex_form ex_meta).
  reflexivity.
Defined.

(** ** The URL field *)

Lemma literal_sound lit s r :
  Re.literal lit s = Some r ->
  exists pre, s = pre +:+ r /\ fold_case pre = fold_case lit.
Proof.
  revert s. induction lit as [|p lit IH]; intros s; cbn [Re.literal].
  - intros [= <-]. exists EmptyString. auto.
  - destruct s as [|c s]; [discriminate|].
    destruct (Js.char_ci p c) eqn:E; [|discriminate].
    intros H. destruct (IH _ H) as (pre & -> & Hpre).
    exists (String c pre). split; [reflexivity|]. simpl.
    unfold Js.char_ci in E. apply Ascii.eqb_eq in E. congruence.
Qed.

Lemma literal_complete lit pre r :
  fold_case pre = fold_case lit -> Re.literal lit (pre +:+ r) = Some r.
Proof.
  revert pre. induction lit as [|p lit IH]; intros [|c pre] H; try discriminate.
  - reflexivity.
  - simpl in H. injection H as Hc Hpre.
    change (String c pre +:+ r) with (String c (pre +:+ r)). cbn [Re.literal].
    unfold Js.char_ci. rewrite Hc, Ascii.eqb_refl. apply IH, Hpre.
Qed.

Lemma literal_app a b s :
  Re.literal (a +:+ b) s
  = match Re.literal a s with
    | Some r => Re.literal b r
    | None => None
    end.
Proof.
  revert s. induction a as [|p a IH]; intros s; [reflexivity|].
  change (String p a +:+ b) with (String p (a +:+ b)). cbn [Re.literal].
  destruct s as [|c s]; [reflexivity|].
  destruct (Js.char_ci p c); [apply IH | reflexivity].
Qed.

Lemma then_literal lit k s :
  Re.then_ lit k s = true
  <-> exists r, Re.literal lit s = Some r /\ k r = true.
Proof.
  unfold Re.then_. destruct (Re.literal lit s) as [r|].
  - split; [eauto|]. intros (r' & [= <-] & H). exact H.
  - split; [discriminate|]. intros (r' & H & _). discriminate H.
Qed.

(** The four prefixes [isGameBananaUrl] accepts, up to case. *)
Lemma isGameBananaUrl_literal url :
  isGameBananaUrl url = true
  <-> exists lit r,
        In lit ["https://www.gamebanana.com/"; "https://gamebanana.com/";
                "http://www.gamebanana.com/"; "http://gamebanana.com/"]
        /\ Re.literal lit (Js.trim url) = Some r.
Proof.
  unfold isGameBananaUrl, Re.optional.
  set (s := Js.trim url). split.
  - rewrite then_literal. intros (r1 & H1 & H).
    apply orb_true_iff in H.
    assert (Hhost : forall r3,
              (Re.then_ "www." (Re.then_ "gamebanana.com/" (fun _ => true)) r3
               || Re.then_ "gamebanana.com/" (fun _ => true) r3) = true ->
              exists r,
                Re.literal "www.gamebanana.com/" r3 = Some r
                \/ Re.literal "gamebanana.com/" r3 = Some r).
    { intros r3 Hh. apply orb_true_iff in Hh as [Hh|Hh].
      - apply then_literal in Hh as (r4 & H4 & Hh).
        apply then_literal in Hh as (r5 & H5 & _).
        exists r5. left.
        change "www.gamebanana.com/" with ("www." +:+ "gamebanana.com/").
        rewrite literal_app, H4. exact H5.
      - apply then_literal in Hh as (r5 & H5 & _). eauto. }
    destruct H as [H|H].
    + apply then_literal in H as (r2 & H2 & H).
      apply then_literal in H as (r3 & H3 & H).
      destruct (Hhost r3 H) as (r & [Hr|Hr]).
      * exists "https://www.gamebanana.com/", r. split; [simpl; auto|].
        change "https://www.gamebanana.com/"
          with ("http" +:+ "s" +:+ "://" +:+ "www.gamebanana.com/").
        rewrite literal_app, H1; cbv beta iota.
        rewrite literal_app, H2; cbv beta iota.
        rewrite literal_app, H3; cbv beta iota. exact Hr.
      * exists "https://gamebanana.com/", r. split; [simpl; auto|].
        change "https://gamebanana.com/"
          with ("http" +:+ "s" +:+ "://" +:+ "gamebanana.com/").
        rewrite literal_app, H1; cbv beta iota.
        rewrite literal_app, H2; cbv beta iota.
        rewrite literal_app, H3; cbv beta iota. exact Hr.
    + apply then_literal in H as (r3 & H3 & H).
      destruct (Hhost r3 H) as (r & [Hr|Hr]).
      * exists "http://www.gamebanana.com/", r. split; [simpl; auto 6|].
        change "http://www.gamebanana.com/"
          with ("http" +:+ "://" +:+ "www.gamebanana.com/").
        rewrite literal_app, H1; cbv beta iota.
        rewrite literal_app, H3; cbv beta iota. exact Hr.
      * exists "http://gamebanana.com/", r. split; [simpl; auto 6|].
        change "http://gamebanana.com/"
          with ("http" +:+ "://" +:+ "gamebanana.com/").
        rewrite literal_app, H1; cbv beta iota.
        rewrite literal_app, H3; cbv beta iota. exact Hr.
  - intros (lit & r & Hlit & Hr).
    assert (Hhost_www : forall r3 r,
              Re.literal "www.gamebanana.com/" r3 = Some r ->
              (Re.then_ "www." (Re.then_ "gamebanana.com/" (fun _ => true)) r3
               || Re.then_ "gamebanana.com/" (fun _ => true) r3) = true).
    { intros r3 r' H.
      change "www.gamebanana.com/" with ("www." +:+ "gamebanana.com/") in H.
      rewrite literal_app in H. apply orb_true_iff. left.
      destruct (Re.literal "www." r3) as [r4|] eqn:E4; [|discriminate].
      apply then_literal. exists r4. split; [exact E4|].
      apply then_literal. eauto. }
    assert (Hhost : forall r3 r,
              Re.literal "gamebanana.com/" r3 = Some r ->
              (Re.then_ "www." (Re.then_ "gamebanana.com/" (fun _ => true)) r3
               || Re.then_ "gamebanana.com/" (fun _ => true) r3) = true).
    { intros r3 r' H. apply orb_true_iff. right. apply then_literal. eauto. }
    destruct Hlit as [<-|[<-|[<-|[<-|[]]]]].
    + change "https://www.gamebanana.com/"
        with ("http" +:+ "s" +:+ "://" +:+ "www.gamebanana.com/") in Hr.
      rewrite literal_app in Hr.
      destruct (Re.literal "http" s) as [r1|] eqn:E1; [|discriminate].
      rewrite literal_app in Hr.
      destruct (Re.literal "s" r1) as [r2|] eqn:E2; [|discriminate].
      rewrite literal_app in Hr.
      destruct (Re.literal "://" r2) as [r3|] eqn:E3; [|discriminate].
      apply then_literal. exists r1. split; [exact E1|].
      apply orb_true_iff. left.
      apply then_literal. exists r2. split; [exact E2|].
      apply then_literal. exists r3. split; [exact E3|]. eapply Hhost_www, Hr.
    + change "https://gamebanana.com/"
        with ("http" +:+ "s" +:+ "://" +:+ "gamebanana.com/") in Hr.
      rewrite literal_app in Hr.
      destruct (Re.literal "http" s) as [r1|] eqn:E1; [|discriminate].
      rewrite literal_app in Hr.
      destruct (Re.literal "s" r1) as [r2|] eqn:E2; [|discriminate].
      rewrite literal_app in Hr.
      destruct (Re.literal "://" r2) as [r3|] eqn:E3; [|discriminate].
      apply then_literal. exists r1. split; [exact E1|].
      apply orb_true_iff. left.
      apply then_literal. exists r2. split; [exact E2|].
      apply then_literal. exists r3. split; [exact E3|]. eapply Hhost, Hr.
    + change "http://www.gamebanana.com/"
        with ("http" +:+ "://" +:+ "www.gamebanana.com/") in Hr.
      rewrite literal_app in Hr.
      destruct (Re.literal "http" s) as [r1|] eqn:E1; [|discriminate].
      rewrite literal_app in Hr.
      destruct (Re.literal "://" r1) as [r3|] eqn:E3; [|discriminate].
      apply then_literal. exists r1. split; [exact E1|].
      apply orb_true_iff. right.
      apply then_literal. exists r3. split; [exact E3|]. eapply Hhost_www, Hr.
    + change "http://gamebanana.com/"
        with ("http" +:+ "://" +:+ "gamebanana.com/") in Hr.
      rewrite literal_app in Hr.
      destruct (Re.literal "http" s) as [r1|] eqn:E1; [|discriminate].
      rewrite literal_app in Hr.
      destruct (Re.literal "://" r1) as [r3|] eqn:E3; [|discriminate].
      apply then_literal. exists r1. split; [exact E1|].
      apply orb_true_iff. right.
      apply then_literal. exists r3. split; [exact E3|]. eapply Hhost, Hr.
Qed.

(** X16. A URL is accepted exactly when, white space around it set
    aside, it starts with [http://] or [https://], then [gamebanana.com/]
    with or without [www.] in front, in any case: the slash after the host
    is required, so a longer host name is refused. *)
Theorem isGameBananaUrl_accepts (url : string) :
  isGameBananaUrl url = true
  <-> exists front rest,
        Js.trim url = front +:+ rest
        /\ (fold_case front = fold_case "https://www.gamebanana.com/"
            \/ fold_case front = fold_case "https://gamebanana.com/"
            \/ fold_case front = fold_case "http://www.gamebanana.com/"
            \/ fold_case front = fold_case "http://gamebanana.com/").
Proof.
  rewrite isGameBananaUrl_literal. split.
  - intros (lit & r & Hlit & Hr).
    apply literal_sound in Hr as (front & Hs & Hf).
    exists front, r. split; [exact Hs|].
    destruct Hlit as [<-|[<-|[<-|[<-|[]]]]]; auto.
  - intros (front & rest & Hs & Hf). rewrite Hs.
    destruct Hf as [Hf|[Hf|[Hf|Hf]]];
      eexists _, rest; (split; [|apply literal_complete, Hf]); simpl; auto 6.
Qed.

Lemma isGameBananaUrl_accepts_witness :
  isGameBananaUrl "  HTTPS://GameBanana.com/mods/12345 " = true.
Proof.
  apply (proj2 (isGameBananaUrl_accepts "  HTTPS://GameBanana.com/mods/12345 ")).
  exists "HTTPS://GameBanana.com/", "mods/12345". split; [reflexivity|].
  right. left. reflexivity.
Defined.

(** ** The name the dialog proposes *)

Lemma strip_end_match alts s :
  Re.strip_end alts s
    +:+ match Js.regex_match alts s with Some m => m | None => EmptyString end
  = s.
Proof.
  induction s as [|c s IH]; cbn [Re.strip_end Js.regex_match].
  - destruct (existsb (fun lit => Js.match_here lit EmptyString) alts); reflexivity.
  - destruct (existsb (fun lit => Js.match_here lit (String c s)) alts);
      [reflexivity|].
    change (String c (Re.strip_end alts s) +:+ ?m)
      with (String c (Re.strip_end alts s +:+ m)).
    rewrite IH. reflexivity.
Qed.

Lemma strip_end_matching alts s :
  Js.regex_test alts s = true ->
  exists ext lit,
    s = Re.strip_end alts s +:+ ext /\ In lit alts /\ fold_case ext = fold_case lit.
Proof.
  unfold Js.regex_test. intros H.
  pose proof (strip_end_match alts s) as E.
  destruct (Js.regex_match alts s) as [m|] eqn:Em; [|discriminate].
  apply regex_match_sound in Em as (stem & lit & _ & Hin & Hfold).
  exists m, lit. auto.
Qed.

(** X18. The name the dialog proposes is the file name without its
    extension: put back in front of the extension that was matched, it
    gives the file name again. For a folder it is the folder name when
    there is a non-empty one, the name of the first packed asset without
    its extension otherwise. *)
Theorem proposed_name_stem (files : list (option File)) (src : DetectedSource) :
  detectSource files = Some src ->
  match src with
  | vpk f =>
      exists ext, name f = proposed_name src +:+ ext
                  /\ fold_case ext = fold_case ".vpk"
  | archive f =>
      exists ext, name f = proposed_name src +:+ ext
                  /\ (fold_case ext = fold_case ".zip"
                      \/ fold_case ext = fold_case ".rar"
                      \/ fold_case ext = fold_case ".7z")
  | folder_vpk fs folderName =>
      exists first more,
        fs = first :: more
        /\ match folderName with
           | Some (String c n) => proposed_name src = String c n
           | _ => exists ext, name first = proposed_name src +:+ ext
                              /\ fold_case ext = fold_case ".vpk"
           end
  end.
Proof.
  intros H. apply detectSource_classified in H.
  destruct src as [file|file|fs folderName]; cbn [classified proposed_name] in *.
  - destruct H as [H _]. apply strip_end_matching in H as (ext & lit & E & Hin & Hf).
    exists ext. split; [exact E|].
    destruct Hin as [<-|[<-|[<-|[]]]]; auto.
  - apply strip_end_matching in H as (ext & lit & E & [<-|[]] & Hf). eauto.
  - destruct H as [Hne Hall]. destruct fs as [|first more]; [congruence|].
    exists first, more. split; [reflexivity|].
    assert (Hfirst : exists ext, name first = Re.strip_end re_vpk (name first) +:+ ext
                                 /\ fold_case ext = fold_case ".vpk").
    { specialize (Hall first (or_introl eq_refl)).
      apply strip_end_matching in Hall as (ext & lit & E & [<-|[]] & Hf). eauto. }
    assert (Hor : Js.or_else (Some (Re.strip_end re_vpk (name first))) EmptyString
                  = Re.strip_end re_vpk (name first)).
    { destruct (Re.strip_end re_vpk (name first)); reflexivity. }
    destruct folderName as [[|c n]|]; cbn [Js.or_else]; try reflexivity;
      fold (Js.or_else (Some (Re.strip_end re_vpk (name first))) EmptyString);
      rewrite Hor; exact Hfirst.
Qed.

Lemma proposed_name_stem_witness :
  exists ext, name ex_bundle = proposed_name (archive ex_bundle) +:+ ext
              /\ (fold_case ext = fold_case ".zip"
                  \/ fold_case ext = fold_case ".rar"
                  \/ fold_case ext = fold_case ".7z").
Proof.
  apply (proposed_name_stem [Some ex_bundle] (archive ex_bundle)).
  reflexivity.
Defined.

(** ** From the dialog to [finalize] *)

Lemma kind_of_not_url src : kind_of src <> st_url.
Proof. destruct src; discriminate. Qed.

(** X19. The dialog and [finalize] agree on what is being added. Once
    [startDialog] has opened the dialog, and whatever category is chosen
    in it, valid details send a URL to the notice that the URL flow is
    handled elsewhere, with no file read or written and nothing
    registered, and send a classified source to the staging of that very
    source: the early return on missing files is not taken. *)
Theorem dialog_then_finalize plat SKINS values category meta request pg :
  validateAndGet plat values = Some meta ->
  let pg' := startDialog SKINS request pg in
  open (world pg') = true
  /\ finalize plat values category (form_sourceType pg') (world pg')
     = match request with
       | from_url _ _ =>
           Resolved tt
             (set_open false
                (add_toast (toast_info "URL flow is handled by the API pipeline.")
                   (world pg')))
       | from_files src => stage plat src meta category (world pg')
       end.
Proof.
  intros Hmeta pg'. subst pg'. unfold finalize. rewrite Hmeta.
  destruct request as [url nm|src]; cbn [startDialog form_sourceType world].
  - split; reflexivity.
  - split; [reflexivity|].
    pose proof (kind_of_not_url src) as Hk.
    destruct (kind_of src); [congruence|reflexivity..].
Qed.

Lemma dialog_then_finalize_witness :
  open (world (startDialog "Skins" (from_files (vpk ex_skin)) (ex_page (ex_world None))))
  = true
  /\ finalize (ex_platform never_fails not_a_zip) ex_form "Models"
       (form_sourceType
          (startDialog "Skins" (from_files (vpk ex_skin)) (ex_page (ex_world None))))
       (world (startDialog "Skins" (from_files (vpk ex_skin)) (ex_page (ex_world None))))
     = stage (ex_platform never_fails not_a_zip) (vpk ex_skin) ex_meta "Models"
         (world (startDialog "Skins" (from_files (vpk ex_skin)) (ex_page (ex_world None)))).
Proof.
  apply (dialog_then_finalize (ex_platform never_fails not_a_zip) "Skins" ex_form
           "Models" ex_meta (from_files (vpk ex_skin)) (ex_page (ex_world None))).
  reflexivity.
Defined.

Lemma all_holes_iff {A} (files : list (option A)) :
  all_holes files = true <-> filter_Boolean files = [].
Proof.
  unfold all_holes, filter_Boolean.
  induction files as [|[f|] files IH]; simpl.
  - tauto.
  - split; discriminate.
  - exact IH.
Qed.

(** X20. A drop that carries at least one file is handled as a pick of
    the same files, once the highlight of the drop zone is off: the items
    of the drop are consulted only when it carries no file at all. *)
Theorem drop_with_files_is_pick SKINS dropped items fromItems src pg :
  filter_Boolean dropped <> [] ->
  detectSource dropped = Some src ->
  onDrop SKINS dropped items fromItems pg
  = onPickFiles SKINS dropped (setDragging false pg).
Proof.
  intros Hne Hsrc. unfold onDrop, onPickFiles.
  assert (Hfiles : (match dropped with [] => true | _ => false end || all_holes dropped)
                   = false).
  { apply orb_false_iff. split.
    - destruct dropped; [destruct Hne; reflexivity | reflexivity].
    - destruct (all_holes dropped) eqn:E; [|reflexivity].
      apply all_holes_iff in E. congruence. }
  rewrite Hfiles. cbn [andb]. rewrite Hsrc. reflexivity.
Qed.

Lemma drop_with_files_is_pick_witness :
  onDrop "Skins" [None; Some ex_skin] 2 [Some ex_bundle] (ex_page (ex_world None))
  = onPickFiles "Skins" [None; Some ex_skin] (setDragging false (ex_page (ex_world None))).
Proof.
  apply (drop_with_files_is_pick "Skins" [None; Some ex_skin] 2 [Some ex_bundle]
           (vpk ex_skin) (ex_page (ex_world None))).
  - discriminate.
  - reflexivity.
Defined.

(** ** The other branches of the payload step *)

Lemma upcase_of_downcase c :
  (128 <=? nat_of_ascii (Js.downcase c))%nat
  || Ascii.eqb (Js.upcase c) (Js.upcase (Js.downcase c)) = true.
Proof. destruct c as [[] [] [] [] [] [] [] []]; reflexivity. Qed.

Lemma fold_case_of_lower s lit :
  Js.toLowerCase s = lit ->
  (forall c, In c (list_ascii_of_string lit) -> nat_of_ascii c < 128) ->
  fold_case s = fold_case (Js.toLowerCase s).
Proof.
  intros <-. induction s as [|c s IH]; simpl; [reflexivity|].
  intros Hlit. f_equal.
  - pose proof (upcase_of_downcase c) as H. apply orb_true_iff in H as [H|H].
    + apply Nat.leb_le in H. specialize (Hlit _ (or_introl eq_refl)). lia.
    + apply Ascii.eqb_eq, H.
  - apply IH. intros d Hd. apply Hlit. right. exact Hd.
Qed.

Lemma endsWith_zip_ends_in s :
  Js.endsWith (Js.toLowerCase s) ".zip" = true -> ends_in ".zip" s.
Proof.
  induction s as [|c s IH].
  - discriminate.
  - intros H.
    change (Js.endsWith (Js.toLowerCase (String c s)) ".zip")
      with (String.eqb (Js.toLowerCase (String c s)) ".zip"
            || Js.endsWith (Js.toLowerCase s) ".zip") in H.
    apply orb_true_iff in H as [H|H].
    + apply String.eqb_eq in H.
      exists EmptyString, (String c s). split; [reflexivity|].
      rewrite (fold_case_of_lower (String c s) ".zip" H), H; [reflexivity|].
      intros d Hd. simpl in Hd.
      destruct Hd as [<-|[<-|[<-|[<-|[]]]]]; apply Nat.ltb_lt; reflexivity.
    + destruct (IH H) as (stem & tail & -> & Hf).
      exists (String c stem), tail. auto.
Qed.

Lemma finalize_stage plat values category sourceType meta src w :
  validateAndGet plat values = Some meta ->
  sourceType <> st_url ->
  detected w = Some src ->
  finalize plat values category sourceType w = stage plat src meta category w.
Proof.
  intros Hmeta Hst Hdet. unfold finalize. rewrite Hmeta.
  destruct sourceType; try congruence; rewrite Hdet; reflexivity.
Qed.

(** X21. A single packed asset is staged as it is: its bytes are written
    under [files/], under the name of the file, beside the preview and
    [metadata.json]; nothing else is written, no notice but the closing
    one is shown and the mod is registered. *)
Theorem finalize_single_vpk plat values category sourceType meta file w :
  reliable plat ->
  validateAndGet plat values = Some meta ->
  readable plat (Meta.imageFile meta) ->
  sourceType <> st_url ->
  detected w = Some (vpk file) ->
  exists w',
    finalize plat values category sourceType w = Resolved tt w'
    /\ fs w' = <[join (modDir_of plat) "metadata.json" :=
                  TextEncoder_encode
                    (JSON_stringify (metadata_document plat values category))]>
                (<[join (filesDir_of plat) (name file) := bytes file]>
                   (<[join (modDir_of plat) (preview_name (Form.imageFile values)) :=
                        preview_data (Form.imageFile values)]> (fs w)))
    /\ toasts w' = toasts w ++ [toast_success ("Added: " +:+ Js.trim (Form.name values))]
    /\ console w' = console w
    /\ registered plat meta category w w'.
Proof.
  intros Hrel Hmeta Hread Hst Hdet.
  rewrite (finalize_stage _ _ _ _ _ _ _ Hmeta Hst Hdet).
  pose proof (reliable_sound plat Hrel) as Hsound.
  destruct (validateAndGet_Some _ _ _ Hmeta) as (Hn & _ & _ & _ & Hi).
  edestruct (stage_run plat Hsound (vpk file) meta category w) as
    (w' & Hrun & Hfs & Hto & Hco & url & Hstore & Hop).
  { exact Hread. }
  { unfold try_catch, stage_payload, writeBytes.
    rewrite writeFile_resolved by apply Hrel. reflexivity. }
  exists w'. split; [exact Hrun|].
  unfold registered. rewrite Hfs, Hto, Hco, Hstore.
  unfold kept_fs. world_simpl.
  rewrite prepared_fs, prepared_toasts, prepared_console, prepared_store.
  rewrite (metadata_of_document _ _ _ _ Hmeta), Hn, Hi.
  split_and!; try reflexivity. exists url. auto.
Qed.

Lemma finalize_single_vpk_witness :
  exists w',
    finalize (ex_platform never_fails not_a_zip) ex_form "Skins" st_vpk
      (ex_world (Some (vpk ex_skin)))
    = Resolved tt w'
    /\ fs w' !! join (join ex_modDir "files") "SkinPack.vpk" = Some [Byte.x01; Byte.x02]
    /\ toasts w' = [toast_success "Added: Red Armor"].
Proof.
  destruct (finalize_single_vpk (ex_platform never_fails not_a_zip)
              ex_form "Skins" st_vpk ex_meta ex_skin (ex_world (Some (vpk ex_skin))))
    as (w' & Hrun & Hfs & Hto & _).
  - intros n op. reflexivity.
  - reflexivity.
  - exact I.
  - discriminate.
  - reflexivity.
  - exists w'. split; [exact Hrun|]. split.
    + rewrite Hfs. rewrite lookup_insert_ne by (intros [=]).
      apply lookup_insert_eq.
    + exact Hto.
Defined.

(** X22. An archive that is not a ZIP, a [.rar] or a [.7z], is never
    opened: it is stored whole in the mod directory, nothing is written
    under [files/], and the run completes and registers the mod without
    any notice that no packed asset was extracted. *)
Theorem finalize_archive_not_zip plat values category sourceType meta file w :
  reliable plat ->
  validateAndGet plat values = Some meta ->
  readable plat (Meta.imageFile meta) ->
  sourceType <> st_url ->
  detected w = Some (archive file) ->
  ~ ends_in ".zip" (name file) ->
  exists w',
    finalize plat values category sourceType w = Resolved tt w'
    /\ fs w' = <[join (modDir_of plat) "metadata.json" :=
                  TextEncoder_encode
                    (JSON_stringify (metadata_document plat values category))]>
                (<[join (modDir_of plat) (name file) := bytes file]>
                   (<[join (modDir_of plat) (preview_name (Form.imageFile values)) :=
                        preview_data (Form.imageFile values)]> (fs w)))
    /\ (forall nm, fs w' !! join (filesDir_of plat) nm = fs w !! join (filesDir_of plat) nm)
    /\ toasts w' = toasts w ++ [toast_success ("Added: " +:+ Js.trim (Form.name values))]
    /\ console w' = console w
    /\ registered plat meta category w w'.
Proof.
  intros Hrel Hmeta Hread Hst Hdet Hzip.
  rewrite (finalize_stage _ _ _ _ _ _ _ Hmeta Hst Hdet).
  pose proof (reliable_sound plat Hrel) as Hsound.
  destruct (validateAndGet_Some _ _ _ Hmeta) as (Hn & _ & _ & _ & Hi).
  assert (Hends : Js.endsWith (Js.toLowerCase (name file)) ".zip" = false).
  { destruct (Js.endsWith (Js.toLowerCase (name file)) ".zip") eqn:E; [|reflexivity].
    destruct Hzip. apply endsWith_zip_ends_in, E. }
  edestruct (stage_run plat Hsound (archive file) meta category w) as
    (w' & Hrun & Hfs & Hto & Hco & url & Hstore & Hop).
  { exact Hread. }
  { unfold try_catch, stage_payload, writeBytes. rewrite Hends.
    rewrite writeFile_resolved by apply Hrel. reflexivity. }
  exists w'. split; [exact Hrun|].
  assert (Hfs' : fs w' = <[join (modDir_of plat) "metadata.json" :=
                  TextEncoder_encode
                    (JSON_stringify (metadata_document plat values category))]>
                (<[join (modDir_of plat) (name file) := bytes file]>
                   (<[join (modDir_of plat) (preview_name (Form.imageFile values)) :=
                        preview_data (Form.imageFile values)]> (fs w)))).
  { rewrite Hfs. unfold kept_fs. world_simpl. rewrite prepared_fs.
    rewrite (metadata_of_document _ _ _ _ Hmeta), Hi.
    destruct (existsb _ _); [reflexivity|]. rewrite insert_insert_eq. reflexivity. }
  split; [exact Hfs'|]. split; [intros nm; rewrite Hfs'; apply lookup_files_frame|].
  unfold registered. rewrite Hto, Hco, Hstore. world_simpl.
  rewrite prepared_toasts, prepared_console, prepared_store, Hn.
  split_and!; try reflexivity. exists url. auto.
Qed.

Lemma finalize_archive_not_zip_witness :
  exists w',
    finalize (ex_platform never_fails not_a_zip) ex_form "Skins" st_archive
      (ex_world (Some (archive (mkFile "pack.7z" None [Byte.x37; Byte.x7a]))))
    = Resolved tt w'
    /\ fs w' !! join ex_modDir "pack.7z" = Some [Byte.x37; Byte.x7a]
    /\ toasts w' = [toast_success "Added: Red Armor"].
Proof.
  destruct (finalize_archive_not_zip (ex_platform never_fails not_a_zip)
              ex_form "Skins" st_archive ex_meta
              (mkFile "pack.7z" None [Byte.x37; Byte.x7a])
              (ex_world (Some (archive (mkFile "pack.7z" None [Byte.x37; Byte.x7a])))))
    as (w' & Hrun & Hfs & _ & Hto & _).
  - intros n op. reflexivity.
  - reflexivity.
  - exact I.
  - discriminate.
  - reflexivity.
  - intros H. apply ends_in_zip_endsWith in H. discriminate H.
  - exists w'. split; [exact Hrun|]. split.
    + rewrite Hfs. rewrite lookup_insert_ne by (intros [=]).
      apply lookup_insert_eq.
    + exact Hto.
Defined.

(** X23. A ZIP archive that cannot be read does not fail the run: the
    error of the reader is logged, the notice "Failed to process archive"
    is shown, the archive is stored whole in the mod directory, nothing
    is written under [files/], and the mod is registered and reported as
    added. *)
Theorem finalize_unreadable_zip plat values category sourceType meta file message w :
  reliable plat ->
  validateAndGet plat values = Some meta ->
  readable plat (Meta.imageFile meta) ->
  sourceType <> st_url ->
  detected w = Some (archive file) ->
  ends_in ".zip" (name file) ->
  loadAsync plat (bytes file) = inl message ->
  exists w',
    finalize plat values category sourceType w = Resolved tt w'
    /\ fs w' = <[join (modDir_of plat) "metadata.json" :=
                  TextEncoder_encode
                    (JSON_stringify (metadata_document plat values category))]>
                (<[join (modDir_of plat) (name file) := bytes file]>
                   (<[join (modDir_of plat) (preview_name (Form.imageFile values)) :=
                        preview_data (Form.imageFile values)]> (fs w)))
    /\ (forall nm, fs w' !! join (filesDir_of plat) nm = fs w !! join (filesDir_of plat) nm)
    /\ toasts w' = toasts w
         ++ [toast_error "Failed to process archive";
             toast_success ("Added: " +:+ Js.trim (Form.name values))]
    /\ console w' = console w ++ [Error message]
    /\ registered plat meta category w w'.
Proof.
  intros Hrel Hmeta Hread Hst Hdet Hzip Hload.
  rewrite (finalize_stage _ _ _ _ _ _ _ Hmeta Hst Hdet).
  pose proof (reliable_sound plat Hrel) as Hsound.
  destruct (validateAndGet_Some _ _ _ Hmeta) as (Hn & _ & _ & _ & Hi).
  edestruct (stage_run plat Hsound (archive file) meta category w) as
    (w' & Hrun & Hfs & Hto & Hco & url & Hstore & Hop).
  { exact Hread. }
  { unfold try_catch, stage_payload, stage_failed, writeBytes, toast, console_error, throw.
    rewrite (ends_in_zip_endsWith _ Hzip), Hload.
    rewrite !run_modify.
    rewrite writeFile_resolved by apply Hrel. reflexivity. }
  exists w'. split; [exact Hrun|].
  assert (Hfs' : fs w' = <[join (modDir_of plat) "metadata.json" :=
                  TextEncoder_encode
                    (JSON_stringify (metadata_document plat values category))]>
                (<[join (modDir_of plat) (name file) := bytes file]>
                   (<[join (modDir_of plat) (preview_name (Form.imageFile values)) :=
                        preview_data (Form.imageFile values)]> (fs w)))).
  { rewrite Hfs. unfold kept_fs. world_simpl. rewrite prepared_fs.
    rewrite (metadata_of_document _ _ _ _ Hmeta), Hi.
    destruct (existsb _ _); [reflexivity|]. rewrite insert_insert_eq. reflexivity. }
  split; [exact Hfs'|]. split; [intros nm; rewrite Hfs'; apply lookup_files_frame|].
  unfold registered. rewrite Hto, Hco, Hstore. world_simpl.
  rewrite prepared_toasts, prepared_console, prepared_store, Hn.
  split_and!.
  - rewrite <- app_assoc. reflexivity.
  - reflexivity.
  - exists url. auto.
Qed.

Lemma finalize_unreadable_zip_witness :
  exists w',
    finalize (ex_platform never_fails not_a_zip) ex_form "Skins" st_archive
      (ex_world (Some (archive ex_bundle)))
    = Resolved tt w'
    /\ fs w' !! join ex_modDir "bundle.ZIP" = Some [Byte.x50; Byte.x4b]
    /\ toasts w'
       = [toast_error "Failed to process archive"; toast_success "Added: Red Armor"]
    /\ console w'
       = [Error "Can't find end of central directory : is this a zip file ?"].
Proof.
  destruct (finalize_unreadable_zip (ex_platform never_fails not_a_zip)
              ex_form "Skins" st_archive ex_meta ex_bundle
              "Can't find end of central directory : is this a zip file ?"
              (ex_world (Some (archive ex_bundle))))
    as (w' & Hrun & Hfs & _ & Hto & Hco & _).
  - intros n op. reflexivity.
  - reflexivity.
  - exact I.
  - discriminate.
  - reflexivity.
  - exists "bundle", ".ZIP". split; reflexivity.
  - reflexivity.
  - exists w'. split; [exact Hrun|]. split; [|split; [exact Hto | exact Hco]].
    rewrite Hfs. rewrite lookup_insert_ne by (intros [=]).
    apply lookup_insert_eq.
Defined.

(** ** The name guessed from a URL *)

Lemma split_slash_segments s : Forall no_slash (Js.split_slash s).
Proof.
  induction s as [|c s IH]; cbn [Js.split_slash].
  - constructor; [|constructor]. intros [].
  - destruct (Ascii.eqb_spec c "/") as [->|Hc].
    + constructor; [intros [] | exact IH].
    + destruct (Js.split_slash s) as [|seg rest].
      * constructor; [|constructor]. intros [H|[]]. exact (Hc H).
      * inversion IH as [|? ? Hseg Hrest]; subst. constructor; [|exact Hrest].
        intros [H|H]; [exact (Hc H) | exact (Hseg H)].
Qed.

Lemma last_map_Some {A} (l : list A) n :
  List.last (List.map Some l) None = Some n -> In n l.
Proof.
  induction l as [|a [|b l] IH]; [discriminate| |].
  - intros [= <-]. left. reflexivity.
  - intros H. right. apply IH. exact H.
Qed.

Lemma last_map_Some_ex {A} (l : list A) :
  l <> [] -> exists n, List.last (List.map Some l) None = Some n.
Proof.
  induction l as [|a [|b l] IH]; [congruence| |]; intros _.
  - exists a. reflexivity.
  - destruct IH as [n Hn]; [discriminate|]. exists n. exact Hn.
Qed.

Lemma split_slash_has_segment pre c t :
  c <> "/"%char ->
  exists seg, In seg (Js.split_slash (pre +:+ String c t)) /\ seg <> EmptyString.
Proof.
  intros Hc. induction pre as [|d pre IH].
  - change (EmptyString +:+ String c t) with (String c t). cbn [Js.split_slash].
    destruct (Ascii.eqb_spec c "/") as [E|_]; [destruct (Hc E)|].
    destruct (Js.split_slash t) as [|seg rest]; eexists; (split; [left; reflexivity|]);
      discriminate.
  - change (String d pre +:+ String c t) with (String d (pre +:+ String c t)).
    cbn [Js.split_slash]. destruct IH as (seg & Hin & Hne).
    destruct (Ascii.eqb d "/").
    + exists seg. split; [right; exact Hin | exact Hne].
    + destruct (Js.split_slash (pre +:+ String c t)) as [|seg' rest]; [destruct Hin|].
      eexists. split; [left; reflexivity | discriminate].
Qed.

Lemma trimStart_suffix v : exists pre, v = pre +:+ Js.trimStart v.
Proof.
  induction v as [|c v [pre IH]]; [exists EmptyString; reflexivity|].
  cbn [Js.trimStart]. destruct (Js.is_space c).
  - exists (String c pre). change (String c v = String c (pre +:+ Js.trimStart v)).
    f_equal. exact IH.
  - exists EmptyString. reflexivity.
Qed.

Lemma trimEnd_first t c t' :
  Js.trimEnd t = String c t' -> exists t'', t = String c t''.
Proof.
  destruct t as [|d t]; [discriminate|]. cbn [Js.trimEnd].
  destruct (Js.trimEnd t); [destruct (Js.is_space d); [discriminate|]|];
    intros [= <- _]; eauto.
Qed.

Lemma accepted_has_letter v :
  isGameBananaUrl v = true ->
  exists pre c t, v = pre +:+ String c t /\ c <> "/"%char.
Proof.
  unfold isGameBananaUrl. intros H. apply then_literal in H as (r & H & _).
  destruct (Js.trim v) as [|c t'] eqn:E; [discriminate|].
  cbn [Re.literal] in H. destruct (Js.char_ci "h" c) eqn:Ec; [|discriminate].
  unfold Js.trim in E. apply trimEnd_first in E as [t E].
  destruct (trimStart_suffix v) as [pre Hv]. rewrite E in Hv.
  exists pre, c, t. split; [exact Hv|]. intros ->. discriminate Ec.
Qed.

(** X17. An accepted URL always gives the dialog a name to start from:
    its last non-empty segment between slashes, which is not empty and
    holds no slash. The dialog opens on the URL as typed, and what was
    detected from files before is dropped. *)
Theorem submit_url_proposes_name (SKINS v : string) (pg : Page) :
  isGameBananaUrl v = true ->
  exists n,
    guessName v = Some n
    /\ n <> EmptyString /\ no_slash n
    /\ initialMeta_name (submit_url SKINS v pg) = Some n
    /\ form_url (submit_url SKINS v pg) = Some v
    /\ form_sourceType (submit_url SKINS v pg) = st_url
    /\ detected (world (submit_url SKINS v pg)) = None
    /\ open (world (submit_url SKINS v pg)) = true.
Proof.
  intros Hacc.
  destruct (accepted_has_letter v Hacc) as (pre & c & t & Hv & Hc).
  destruct (split_slash_has_segment pre c t Hc) as (seg & Hin & Hseg).
  rewrite <- Hv in Hin.
  assert (Hne : List.filter (fun seg => Js.truthy (Some seg)) (Js.split_slash v) <> []).
  { intros E. assert (Hf : In seg (List.filter (fun seg => Js.truthy (Some seg))
                                     (Js.split_slash v))).
    { apply filter_In. split; [exact Hin|]. destruct seg; [congruence | reflexivity]. }
    rewrite E in Hf. destruct Hf. }
  destruct (last_map_Some_ex _ Hne) as [n Hn].
  pose proof (last_map_Some _ _ Hn) as Hn'. apply filter_In in Hn' as [Hn1 Hn2].
  exists n. unfold submit_url. rewrite Hacc. cbn [negb startDialog].
  cbn [initialMeta_name form_url form_sourceType world].
  assert (Hguess : guessName v = Some n) by exact Hn.
  rewrite Hguess. split_and!; try reflexivity.
  - destruct n; [discriminate Hn2 | discriminate].
  - pose proof (split_slash_segments v) as Hall.
    rewrite List.Forall_forall in Hall. apply Hall, Hn1.
  - destruct n; [discriminate Hn2 | reflexivity].
Qed.

Lemma submit_url_proposes_name_witness :
  exists n,
    guessName "https://gamebanana.com/mods/12345/" = Some n
    /\ n <> EmptyString /\ no_slash n
    /\ initialMeta_name
         (submit_url "Skins" "https://gamebanana.com/mods/12345/" (ex_page (ex_world None)))
       = Some n
    /\ form_url
         (submit_url "Skins" "https://gamebanana.com/mods/12345/" (ex_page (ex_world None)))
       = Some "https://gamebanana.com/mods/12345/"
    /\ form_sourceType
         (submit_url "Skins" "https://gamebanana.com/mods/12345/" (ex_page (ex_world None)))
       = st_url
    /\ detected
         (world (submit_url "Skins" "https://gamebanana.com/mods/12345/"
                   (ex_page (ex_world None))))
       = None
    /\ open
         (world (submit_url "Skins" "https://gamebanana.com/mods/12345/"
                   (ex_page (ex_world None))))
       = true.
Proof.
  apply (submit_url_proposes_name "Skins" "https://gamebanana.com/mods/12345/"
           (ex_page (ex_world None))).
  reflexivity.
Defined.

(** ** A name of blanks *)

Lemma trim_blank s :
  (forall c, In c (list_ascii_of_string s) -> Js.is_space c = true) ->
  Js.trim s = EmptyString.
Proof.
  intros H. unfold Js.trim.
  assert (E : Js.trimStart s = EmptyString).
  { induction s as [|c s IH]; [reflexivity|]. cbn [Js.trimStart].
    rewrite (H c (or_introl eq_refl)). apply IH. intros d Hd. apply H. right. exact Hd. }
  rewrite E. reflexivity.
Qed.

(** X15. The name is checked before it is trimmed: where some details
    are accepted, the same details under a name of two or more blanks are
    accepted as well, and the name handed over is then empty. *)
Theorem validateAndGet_blank_name plat values meta (blanks : string) :
  validateAndGet plat values = Some meta ->
  2 <= String.length blanks ->
  (forall c, In c (list_ascii_of_string blanks) -> Js.is_space c = true) ->
  validateAndGet plat
    (Form.mk blanks (Form.author values) (Form.description values)
       (Form.link values) (Form.imageFile values))
  = Some (Meta.mk EmptyString (Meta.author meta) (Meta.link meta)
            (Meta.description meta) (Meta.imageFile meta)).
Proof.
  unfold validateAndGet, schema_valid.
  destruct (_ && _) eqn:Hvalid; [|discriminate].
  apply andb_true_iff in Hvalid as [Hvalid Hlink].
  apply andb_true_iff in Hvalid as [Hvalid Hdesc].
  apply andb_true_iff in Hvalid as [_ Hauth].
  intros [= <-] Hlen Hblank.
  cbn [Form.name Form.author Form.description Form.link Form.imageFile
       Meta.author Meta.link Meta.description Meta.imageFile].
  rewrite Hauth, Hdesc, Hlink, (trim_blank _ Hblank).
  apply Nat.leb_le in Hlen. rewrite Hlen. reflexivity.
Qed.

Lemma validateAndGet_blank_name_witness :
  validateAndGet (ex_platform never_fails not_a_zip)
    (Form.mk "   " (Form.author ex_form) (Form.description ex_form)
       (Form.link ex_form) (Form.imageFile ex_form))
  = Some (Meta.mk EmptyString (Meta.author ex_meta) (Meta.link ex_meta)
            (Meta.description ex_meta) (Meta.imageFile ex_meta)).
Proof.
  apply (validateAndGet_blank_name (ex_platform never_fails not_a_zip) ex_form ex_meta "   ").
  - reflexivity.
  - simpl. lia.
  - intros c [<-|[<-|[<-|[]]]]; reflexivity.
Defined.
